(* ===== verification/_CoqProject ===== *)
-Q . S2P
Prelude.v
Entry.v
Hashing.v
Probe.v
Hashmap.v
Invariant.v
ResizeLoss.v
Refinement.v
Scan.v
Driver.v
Typing.v
Counters.v
Report.v
