(* ===== verification/Prelude.v ===== *)
(** * A verification development of [src/hashmap.py]

    The program is one Python module, [src/hashmap.py]: an open-addressed
    hash map with linear probing and tombstone deletion ([class Hashmap]),
    three hash functions selected by an integer [hashtype], automatic growth
    when the load factor passes [maxload], and two instrumentation counters
    ([probe], [collision]).  Around it sit a scan ([findMax]), a printer
    ([printMap]) and a driver that feeds the words of text files into three
    maps ([testMapFile], [testMap]).

    ** How the parts interact

    Every operation of [Hashmap] computes a start index with the hash
    function chosen by [self.hashtype] ([hash_func] = Python's [hash],
    [hash_func1] = polynomial, [hash_func2] = sum of code points), reduced
    modulo [self.cap], and walks the slot array from there.  [put] first
    consults [contains] and [get] (when the start slot is occupied), then runs
    its own probe loop, writes the entry, and may call [put] recursively on
    every old slot when it doubles the capacity.  [findMax] and [printMap]
    read the array.  [testMapFile] calls [put(word, 1)] on three maps (hash
    types 0, 1, 2) for every word of a file and prints their counters;
    [testMap] runs it on three files, each time on fresh maps, and prints
    what [findMax] reports for each map.

    ** Files (the order of [_CoqProject])

    - [Prelude] (this file): Python's run-time errors as the type [exc], the
      [result] type and its [let?] notation, the state-and-exception monad
      [PyM] with [let*], Python list indexing and assignment ([py_getitem],
      [py_setitem]: negative indices wrap, out-of-range raises [IndexError]),
      Python's [%] ([py_mod]: floored, [ZeroDivisionError] on 0), the count
      of occupied cells, the hint database [pyhash] and shared lemmas.
    - [Entry]: the data of the module: characters as code points
      ([pychar], [ord]), [str] as [pystr], keys ([KStr] for a string,
      [KDel] for the [_delobj] instance inside [DELETED]), the namedtuple
      [Entry], the sentinel [DELETED], and a table cell [slot] ([None] or an
      [Entry]); decidable equality and countability instances.
    - [Hashing]: [hash_func], [hash_func1], [hash_func2] and the dispatch on
      [hashtype] ([hash_of]); Python's built-in [hash] is an interface (the
      class [PyHash]) since its value is not fixed by the program.
    - [Probe]: the two probe loops: the lookup walk shared by [get],
      [contains] and [remove] ([lookup_walk]), and the insertion walk of
      [put] ([put_walk]) with its [firstDeleted] bookkeeping and its skip of
      occupied cells; the wrap-less duplicate scan of [put] ([dup_scan]).
    - [Hashmap]: the object state as the record [hashmap] (the seven
      [__slots__]), [init] ([__init__]), [start_index], [contains], [get],
      [remove], and [put] in the monad [PyM hashmap], cut as the code is:
      [put_body] (lines 37-62) with the duplicate branch [dup_branch]
      (lines 52-62), [put_place] (lines 65-94) with the choice of the cell
      [place_choice] (lines 75-80) and the resize check [resize_check]
      (lines 83-94), whose resize [rehash] calls [put] again on every old
      cell ([reinsert]); concrete runs of the scenarios of the spec.
    - [Invariant]: the probe-chain invariant [wf] of linear probing (every
      string key reachable from its home cell over occupied cells, no key
      stored twice, on top of [table_ok]); the objects a program reaches by
      successful calls ([reachable], an inductive step relation).
    - [ResizeLoss]: the state a resize leaves when its loop raises; the
      relation [keeps P] of a run ([P] before implies [P] after, on every
      run, also the raising ones) and the key set [keys_in K] of an array.
    - [Refinement]: the abstraction [abs] of the table as a finite map
      ([gmap] from keys to values) and the abstract operations [abs_get],
      [abs_contains], [abs_remove] and [abs_put] (upsert-or-increment).
    - [Scan]: [findMax] ([findMax_loop] on fuel) and the fold of its body
      ([max_step]) it computes.
    - [Driver]: the word loop of [testMapFile] on the three maps of
      [testMap] in lock step ([maps3], [put_word], [testMapFile_loop]);
      [str.lower] is a parameter, the lines come already split.
    - [Typing]: the shapes a cell can have ([cell_typed]: [None],
      [Entry(str, int)] or [DELETED]; [cell_str]: no tombstone), and a
      section [CellInvariant] proving once, for any per-cell predicate,
      that [put] keeps it at every depth.
    - [Counters]: the relation [counters_rel] between the counters before
      and after a run (collisions grow by at most the probes).
    - [Report]: the output side of the driver.  A print is an event of
      [out_event] appended to a trace ([emit]).  The state of the driver
      is [world]: the three maps and the trace.  The file defines
      [printMap], [testMapFile] (the word loop, then six counter prints),
      [report_max] ([findMax] and its print, with the [TypeError] of
      concatenating a non-[str] to a string), [novel] (one round of
      [testMap]) and [testMap] (three rounds, maps of 70000 cells;
      [testMap_run] takes the size as a parameter).

    ** What is proved (grouped by component)

    - Hashing: [hash_func1] equals a Horner evaluation (equivalence),
      [hash_func2] is invariant under permutation of the key, so anagrams
      collide (functional), both are non-negative; the start index lies in
      [0, cap) (bounds); [len] of the deletion sentinel raises [TypeError].
    - Probe: the lookup walk stops at the first empty or matching cell of
      the cyclic probe sequence (functional), terminates within [cap] steps
      when an empty cell exists (termination), and loops forever when none
      exists and the key is absent (so [get] hangs on a full table); the
      insertion walk terminates and never skips an empty cell; it raises
      [IndexError] when two occupied cells end the array (code bug).
    - Hashmap: [cap] stays the length of the array, [numkeys] stays the
      number of non-empty cells, the counters never decrease, and after a
      successful [put] the load factor is at most [maxload] (invariants).
      For every table, hash and depth, the failures of the code (findings):
      [put] of a key that [contains] does not find, starting at cell
      [cap - 2] with the last two cells occupied, raises [IndexError] (the
      skip of line 74 does not wrap); [put] of a key that [get] finds but
      that sits behind the wrap-around of its chain raises [IndexError]
      (the duplicate scan stops at [cap]); [put] of a present key that the
      scan meets writes the old value plus one at its cell, ignores the
      given value and changes nothing else; with hash type 1 or 2 every
      resize over a tombstone raises.  The scenarios of the spec are
      checked as concrete runs.
    - Invariant: [put] (through every resize and recursion depth) and
      [remove] keep [wf]; every reachable object is well formed and within
      its load bound (invariants, by induction on the step relation).
    - ResizeLoss: every run of [put] of a key in [K], raising or not,
      keeps every key of the array in [K]; with hash type 1 or 2, a resize
      of a table without duplicate keys whose array is
      [t1 ++ [DELETED] ++ t2] raises, and the array it leaves holds no key
      of [t2] (the entries after the first tombstone are lost).
    - Refinement: on a well-formed object with an empty cell, [get],
      [contains] and [remove] compute exactly [abs_get], [abs_contains] and
      [abs_remove] of the abstraction (they return, never hang), and
      [remove] of an absent key changes nothing while [remove] of a stored
      key only writes [DELETED] into its cell (a frame condition); every
      [put] of a string key that returns leaves [abs_put] of the old
      abstraction (a functional refinement whose proof follows the
      recursion through the resize); with [maxload < 1] every reachable
      object has an empty cell, so the lookup refinements apply to it; the
      laws of the spec's section 8 hold: [put] then [get] returns the value
      (or the old value plus one), a second [remove] changes nothing, and
      after [remove] the key is absent for [contains] and [get].
    - Driver: after a run of the word loop that returns, each of the three
      maps (hash types 0, 1, 2) holds, for every word, the number of its
      occurrences in the input (functional correctness of the program's
      purpose, through the refinement of [put]).
    - Scan: on a well-formed object the key [findMax] reports holds the
      largest count of the abstraction; [findMax] returns the first entry
      of greatest value above 1, the cell [table[0]] when no value exceeds
      1, and raises [TypeError] on a tombstone.
    - Typing: [put] keeps every cell [None], [Entry(str, int)] or
      [DELETED] when its own key and value have one of the two entry
      shapes (type); [put(word, 1)] never creates a tombstone; on a typed
      table [findMax] raises [TypeError] exactly when a tombstone is
      present; a concrete run under hash type 0 shows a resize putting
      [DELETED] back into the new array (against spec 4.3).
    - Counters: every run of [put], raising or not, adds at most as many
      collisions as probes, so every reachable object has
      [0 <= collision <= probe] (invariant).
    - Report: every run of [testMap] that returns prints, per file, the
      banner, the counters of the maps built from that file, and for each
      map a word of greatest count with that count, which exceeds 1
      (end-to-end functional correctness, through [Driver], [Scan] and
      [Refinement]); a file in which no word occurs twice makes its round
      raise [TypeError] (code bug); [printMap] prints every cell with its
      index, in order.

    ** Modelling choices, bounds and fuel

    - Python integers are unbounded: every integer of the program is a [Z],
      with no wrap-around.  [maxload] (a float, default [0.7]) is the exact
      rational [Q]; the comparison [numkeys / cap > maxload] is exact.  For
      [cap < 10^15] this agrees with IEEE doubles when [maxload] is the
      double nearest to a decimal such as [0.7].
    - Mutation happens in place in Python, so a raised exception leaves the
      updates made before it: [PyM] returns the state together with the
      result, also on an exception.
    - Every [while] loop is a [Fixpoint] on fuel; running out of fuel is the
      value [Err OutOfFuel], which no Python run produces.  The fuel given
      is [S (length table)] for the probe loops, which the termination
      theorems show is enough whenever the array has an empty cell, and the
      recursion of [put] through [rehash] has depth fuel
      [recursion_limit = 1000], Python's default limit on nested calls:
      running out of it stands for the [RecursionError] a deeper chain of
      resizes would raise.  The invariant and refinement theorems hold at
      every depth.
    - A print is modelled by the values it prints, not by their text:
      [str()] of a cell or an integer is not modelled.  The witnesses of
      [Report] use maps of 8 cells: the theorems hold for every positive
      size, 70000 included.
    - Not modelled: the input side of the driver (opening and reading the
      files, [re.split]), which is I/O and a library: each file is given as
      its lines split into words.  [str.lower] and Python's [hash] on
      strings are parameters ([hash] is salted per process).  The
      [__main__] guard (lines 292-293) only calls [testMap].

    ** Plan of the later parts

    A general theorem on tombstones under hash type 0 (a resize may put
    [DELETED] back or overwrite it, depending on the hashes); the counters
    [probe] and [collision] against an abstract count of the walks. *)

From stdpp Require Import base list decidable.
From Stdlib Require Import ZArith Lia.

Open Scope Z_scope.

(** ** Python exceptions and results *)

(** The run-time errors the module can raise, and [OutOfFuel], which marks a
    model run that exhausted its fuel (a Python run that does not stop). *)
Inductive exc :=
  | KeyError
  | IndexError
  | TypeError
  | AttributeError
  | ZeroDivisionError
  | OutOfFuel.

#[export] Instance exc_eq_dec : EqDecision exc.
Proof. solve_decision. Defined.

Inductive result (A : Type) : Type :=
  | Ok (a : A)
  | Err (e : exc).
Arguments Ok {A} a.
Arguments Err {A} e.

Definition rbind {A B} (r : result A) (k : A -> result B) : result B :=
  match r with
  | Ok a => k a
  | Err e => Err e
  end.

(** ** The state-and-exception monad of a method call *)

Definition PyM (S A : Type) : Type := S -> result A * S.

Definition mret {S A} (a : A) : PyM S A := fun s => (Ok a, s).

Definition mbind {S A B} (m : PyM S A) (k : A -> PyM S B) : PyM S B :=
  fun s => match m s with
           | (Ok a, s') => k a s'
           | (Err e, s') => (Err e, s')
           end.

Definition mthrow {S A} (e : exc) : PyM S A := fun s => (Err e, s).

(** Read a value from the state; the reading may raise. *)
Definition mread {S A} (f : S -> result A) : PyM S A := fun s => (f s, s).

Definition mmodify {S} (f : S -> S) : PyM S unit := fun s => (Ok tt, f s).

(** [simpl] runs a monadic program once it is applied to a state. *)
Arguments mret {S A} a s /.
Arguments mbind {S A B} m k s /.
Arguments mthrow {S A} e s /.
Arguments mread {S A} f s /.
Arguments mmodify {S} f s /.

Declare Scope py_scope.
Delimit Scope py_scope with py.
Notation "'let?' x ':=' r 'in' k" := (rbind r (fun x => k))
  (at level 10, x pattern, r at level 100, k at level 200) : py_scope.
Notation "'let*' x ':=' m 'in' k" := (mbind m (fun x => k))
  (at level 10, x pattern, m at level 100, k at level 200) : py_scope.
Notation "m ;; k" := (mbind m (fun _ => k))
  (at level 100, right associativity) : py_scope.
Open Scope py_scope.

(** ** Python lists *)

(** [lst[i]]: a negative index counts from the end; out of range raises. *)
Definition py_norm_index (n i : Z) : Z := if i <? 0 then i + n else i.

Definition py_getitem {A} (l : list A) (i : Z) : result A :=
  let j := py_norm_index (Z.of_nat (length l)) i in
  if (0 <=? j) && (j <? Z.of_nat (length l)) then
    match l !! Z.to_nat j with
    | Some x => Ok x
    | None => Err IndexError
    end
  else Err IndexError.

(** [lst[i] = x]. *)
Definition py_setitem {A} (l : list A) (i : Z) (x : A) : result (list A) :=
  let j := py_norm_index (Z.of_nat (length l)) i in
  if (0 <=? j) && (j <? Z.of_nat (length l)) then Ok (<[Z.to_nat j := x]> l)
  else Err IndexError.

(** [a % b] on Python integers: floored, like [Z.modulo]; [b = 0] raises. *)
Definition py_mod (a b : Z) : result Z :=
  if b =? 0 then Err ZeroDivisionError else Ok (a mod b).

(** The number of cells of an array that are not [None]. *)
Fixpoint occupied {A} (l : list (option A)) : nat :=
  match l with
  | [] => 0
  | Some _ :: l' => S (occupied l')
  | None :: l' => occupied l'
  end.

(** ** Automation *)

Create HintDb pyhash discriminated.

(** Case analysis on the first [match] over a result in a hypothesis. *)
Ltac res_case H :=
  match type of H with
  | context [match ?r with Ok _ => _ | Err _ => _ end] =>
      let E := fresh "E" in destruct r eqn:E; simpl in H
  end.

(** ** Lemmas on results and the monad *)

Lemma rbind_Ok {A B} (r : result A) (k : A -> result B) (b : B) :
  rbind r k = Ok b <-> exists a, r = Ok a /\ k a = Ok b.
Proof.
  destruct r as [a|e]; simpl; split.
  - eauto.
  - intros (a' & [= ->] & H). exact H.
  - discriminate.
  - intros (a' & ? & _). discriminate.
Qed.

Lemma mbind_Ok {S A B} (m : PyM S A) (k : A -> PyM S B) s b s' :
  mbind m k s = (Ok b, s') ->
  exists a s1, m s = (Ok a, s1) /\ k a s1 = (Ok b, s').
Proof.
  unfold mbind. destruct (m s) as [[a|e] s1]; [eauto | discriminate].
Qed.

Lemma mbind_run {S A B} (m : PyM S A) (k : A -> PyM S B) s a s1 r :
  m s = (Ok a, s1) -> k a s1 = r -> mbind m k s = r.
Proof. intros Hm Hk. unfold mbind. rewrite Hm. exact Hk. Qed.

(** ** Lemmas on Python list access *)

Lemma py_getitem_in_range {A} (l : list A) (i : Z) :
  0 <= i < Z.of_nat (length l) ->
  exists x, l !! Z.to_nat i = Some x /\ py_getitem l i = Ok x.
Proof.
  intros Hi. unfold py_getitem, py_norm_index.
  destruct (lookup_lt_is_Some_2 l (Z.to_nat i)) as [x Hx]; [lia|].
  exists x. split; [exact Hx|].
  rewrite (proj2 (Z.ltb_ge i 0)) by lia.
  rewrite (proj2 (Z.leb_le 0 i)), (proj2 (Z.ltb_lt i _)) by lia.
  simpl. rewrite Hx. reflexivity.
Qed.

Lemma py_getitem_lookup {A} (l : list A) (i : Z) (x : A) :
  0 <= i -> py_getitem l i = Ok x ->
  i < Z.of_nat (length l) /\ l !! Z.to_nat i = Some x.
Proof.
  intros H0 H. unfold py_getitem, py_norm_index in H.
  rewrite (proj2 (Z.ltb_ge i 0)) in H by lia.
  destruct (0 <=? i), (i <? Z.of_nat (length l)) eqn:Hlt; simpl in H;
    try discriminate.
  apply Z.ltb_lt in Hlt. destruct (l !! Z.to_nat i) eqn:E; [|discriminate].
  injection H as ->. auto.
Qed.

Lemma py_getitem_of_lookup {A} (l : list A) (i : Z) (x : A) :
  0 <= i -> l !! Z.to_nat i = Some x -> py_getitem l i = Ok x.
Proof.
  intros H0 Hx. destruct (py_getitem_in_range l i) as (y & Hy & ->).
  - split; [exact H0|]. apply lookup_lt_Some in Hx. lia.
  - congruence.
Qed.

Lemma py_getitem_ge {A} (l : list A) (i : Z) :
  Z.of_nat (length l) <= i -> py_getitem l i = Err IndexError.
Proof.
  intros H. unfold py_getitem, py_norm_index.
  rewrite (proj2 (Z.ltb_ge i 0)) by lia.
  rewrite (proj2 (Z.ltb_ge i _)) by lia.
  destruct (0 <=? i); reflexivity.
Qed.

Lemma py_setitem_in_range {A} (l : list A) (i : Z) (x : A) :
  0 <= i < Z.of_nat (length l) ->
  py_setitem l i x = Ok (<[Z.to_nat i := x]> l).
Proof.
  intros Hi. unfold py_setitem, py_norm_index.
  rewrite (proj2 (Z.ltb_ge i 0)) by lia.
  rewrite (proj2 (Z.leb_le 0 i)), (proj2 (Z.ltb_lt i _)) by lia.
  reflexivity.
Qed.

Lemma py_setitem_Ok {A} (l l' : list A) (i : Z) (x : A) :
  0 <= i -> py_setitem l i x = Ok l' ->
  i < Z.of_nat (length l) /\ l' = <[Z.to_nat i := x]> l.
Proof.
  intros H0 H. unfold py_setitem, py_norm_index in H.
  rewrite (proj2 (Z.ltb_ge i 0)) in H by lia.
  destruct (0 <=? i), (i <? Z.of_nat (length l)) eqn:Hlt; simpl in H;
    try discriminate.
  apply Z.ltb_lt in Hlt. injection H as <-. auto.
Qed.

(** A property of every element survives [lst[i] = x] with [x] that has it. *)
Lemma py_setitem_Forall {A} (P : A -> Prop) (l l' : list A) (i : Z) (x : A) :
  Forall P l -> P x -> py_setitem l i x = Ok l' -> Forall P l'.
Proof.
  intros Hl Hx H. unfold py_setitem in H.
  destruct (_ && _); [injection H as <-|discriminate]. apply Forall_insert; assumption.
Qed.

(** [[x for _ in range(n)]] has only elements [x]. *)
Lemma Forall_repeat {A} (P : A -> Prop) (x : A) (n : nat) : P x -> Forall P (repeat x n).
Proof. intros Hx. induction n; simpl; constructor; assumption. Qed.

(** What [lst[i]] returns is an element of [lst]. *)
Lemma py_getitem_elem {A} (l : list A) (i : Z) (x : A) : py_getitem l i = Ok x -> x ∈ l.
Proof.
  unfold py_getitem. destruct (_ && _); [|discriminate].
  destruct (l !! _) eqn:E; [intros [= <-]|discriminate]. exact (list_elem_of_lookup_2 _ _ _ E).
Qed.

Lemma py_mod_bounds (a b r : Z) :
  0 < b -> py_mod a b = Ok r -> 0 <= r < b.
Proof.
  unfold py_mod. intros Hb H.
  rewrite (proj2 (Z.eqb_neq b 0)) in H by lia.
  injection H as <-. apply Z.mod_pos_bound. exact Hb.
Qed.

(** ** Lemmas on the number of occupied cells *)

Lemma occupied_le_length {A} (l : list (option A)) :
  (occupied l <= length l)%nat.
Proof. induction l as [|[x|] l IH]; simpl; lia. Qed.

Lemma occupied_repeat_None {A} (n : nat) :
  occupied (repeat (@None A) n) = 0%nat.
Proof. induction n; simpl; auto. Qed.

Lemma occupied_insert_Some {A} (l : list (option A)) (i : nat) (x : A) :
  (i < length l)%nat ->
  occupied (<[i := Some x]> l) =
    (match l !! i with Some None => S (occupied l) | _ => occupied l end).
Proof.
  revert i. induction l as [|c l IH]; intros i Hi; simpl in Hi; [lia|].
  destruct i as [|i]; simpl.
  - destruct c; reflexivity.
  - rewrite IH by lia. destruct c, (l !! i) as [[|]|]; reflexivity.
Qed.

(** An array with fewer occupied cells than cells has an empty cell. *)
Lemma occupied_lt_has_None {A} (l : list (option A)) :
  (occupied l < length l)%nat -> exists i, l !! i = Some None.
Proof.
  induction l as [|[x|] l IH]; simpl; intros H; [lia| |].
  - destruct IH as [i Hi]; [lia|]. exists (S i). exact Hi.
  - exists 0%nat. reflexivity.
Qed.

#[export] Hint Resolve occupied_le_length occupied_repeat_None : pyhash.
#[export] Hint Resolve py_getitem_of_lookup py_setitem_in_range : pyhash.

(** ** Least element of a decidable property of offsets *)

Lemma nat_least_or_none (P : nat -> Prop) `{forall d, Decision (P d)} (m : nat) :
  (forall d, (d < m)%nat -> ~ P d) \/
  (exists d, (d < m)%nat /\ P d /\ forall d', (d' < d)%nat -> ~ P d').
Proof.
  induction m as [|m IH].
  - left. lia.
  - destruct IH as [Hnone | (d & Hd & HP & Hmin)].
    + destruct (decide (P m)) as [HP|HnP].
      * right. exists m. split; [lia|]. auto.
      * left. intros d Hd. destruct (decide (d = m)) as [->|]; [exact HnP|].
        apply Hnone. lia.
    + right. exists d. split; [lia|]. auto.
Qed.

Lemma nat_least (P : nat -> Prop) `{forall d, Decision (P d)} (m : nat) :
  P m -> exists d, (d <= m)%nat /\ P d /\ forall d', (d' < d)%nat -> ~ P d'.
Proof.
  intros HP. destruct (nat_least_or_none P (S m)) as [Hn | (d & Hd & HPd & Hmin)].
  - exfalso. apply (Hn m); [lia | exact HP].
  - exists d. split; [lia|]. auto.
Qed.

(** ** Cyclic positions *)

(** The increment-and-wrap step of the probe loops, [index + 1] reset to [0]
    at the end of the array. *)
Lemma wrap_succ_mod (n i : Z) :
  0 <= i < n -> (if i + 1 =? n then 0 else i + 1) = (i + 1) mod n.
Proof.
  intros Hi. destruct (Z.eqb_spec (i + 1) n) as [->|Hne].
  - rewrite Z.mod_same by lia. reflexivity.
  - rewrite Z.mod_small by lia. reflexivity.
Qed.

Lemma mod_offset_succ (n i : Z) (d : nat) :
  0 < n -> ((i + 1) mod n + Z.of_nat d) mod n = (i + Z.of_nat (S d)) mod n.
Proof.
  intros Hn. rewrite Z.add_mod_idemp_l by lia. f_equal. lia.
Qed.

Lemma mod_neg_small (n x : Z) : -n <= x < 0 -> x mod n = x + n.
Proof.
  intros Hx. rewrite <- (Z.mod_add x 1 n) by lia. rewrite Z.mul_1_l. apply Z.mod_small. lia.
Qed.

(** The distance from [p] to [q] along the cycle [0 .. n-1]. *)
Lemma mod_dist_pos (n p q : Z) :
  0 <= p < n -> 0 <= q < n -> p <> q -> 0 < (q - p) mod n.
Proof.
  intros Hp Hq Hne. destruct (Z.lt_ge_cases q p).
  - rewrite mod_neg_small by lia. lia.
  - rewrite Z.mod_small by lia. lia.
Qed.

Lemma mod_dist_succ (n p q : Z) :
  0 <= p < n -> 0 <= q < n -> p <> q ->
  (q - (p + 1)) mod n = (q - p) mod n - 1.
Proof.
  intros Hp Hq Hne. destruct (Z.lt_ge_cases q p).
  - rewrite !mod_neg_small by lia. lia.
  - destruct (Z.eq_dec q (p + 1)) as [->|].
    + rewrite Z.sub_diag, Z.mod_0_l, Z.mod_small by lia. lia.
    + rewrite !Z.mod_small by lia. lia.
Qed.

(** The offset that leads from [i] to [q] on the cycle. *)
Lemma mod_offset_reach (n i q : Z) :
  0 <= i < n -> 0 <= q < n ->
  (Z.to_nat ((q - i) mod n) < Z.to_nat n)%nat /\
  (i + Z.of_nat (Z.to_nat ((q - i) mod n))) mod n = q.
Proof.
  intros Hi Hq. pose proof (Z.mod_pos_bound (q - i) n ltac:(lia)) as Hb.
  split; [lia|]. rewrite Z2Nat.id by lia.
  rewrite Z.add_mod_idemp_r by lia. replace (i + (q - i)) with q by lia.
  apply Z.mod_small. exact Hq.
Qed.

Lemma mod_succ_offset (n i : Z) (d : nat) :
  0 < n -> ((i + Z.of_nat d) mod n + 1) mod n = (i + Z.of_nat (S d)) mod n.
Proof. intros Hn. rewrite Z.add_mod_idemp_l by lia. f_equal. lia. Qed.

(** ** Reasoning about monadic programs *)

#[export] Instance Z_le_preorder : PreOrder Z.le.
Proof. split; [intros x; lia | intros x y z; lia]. Qed.

(** Every run of [m], successful or not, relates its start and end states
    by [R] (for frame and monotonicity facts). *)
Definition mrel {S A} (R : S -> S -> Prop) (m : PyM S A) : Prop :=
  forall s r s', m s = (r, s') -> R s s'.

(** The successful runs of [m] preserve [P]. *)
Definition mpres {S A} (P : S -> Prop) (m : PyM S A) : Prop :=
  forall s a s', P s -> m s = (Ok a, s') -> P s'.

Section MonadLogic.
Context {S : Type}.

Lemma mrel_ret {A} (R : S -> S -> Prop) `{!Reflexive R} (a : A) : mrel R (mret a).
Proof. intros s r s' [= _ <-]. reflexivity. Qed.

Lemma mrel_read {A} (R : S -> S -> Prop) `{!Reflexive R} (f : S -> result A) :
  mrel R (mread f).
Proof. intros s r s' [= _ <-]. reflexivity. Qed.

Lemma mrel_throw {A} (R : S -> S -> Prop) `{!Reflexive R} (e : exc) :
  mrel R (@mthrow S A e).
Proof. intros s r s' [= _ <-]. reflexivity. Qed.

Lemma mrel_modify (R : S -> S -> Prop) (f : S -> S) :
  (forall s, R s (f s)) -> mrel R (mmodify f).
Proof. intros Hf s r s' [= _ <-]. apply Hf. Qed.

Lemma mrel_bind {A B} (R : S -> S -> Prop) `{!Reflexive R, !Transitive R}
    (m : PyM S A) (k : A -> PyM S B) :
  mrel R m -> (forall a, mrel R (k a)) -> mrel R (mbind m k).
Proof.
  intros Hm Hk s r s'. simpl. destruct (m s) as [[a|e] s1] eqn:E.
  - intros Hrun. transitivity s1; [exact (Hm _ _ _ E)|exact (Hk a _ _ _ Hrun)].
  - intros [= _ <-]. exact (Hm _ _ _ E).
Qed.

Lemma mpres_ret {A} (P : S -> Prop) (a : A) : mpres P (mret a).
Proof. intros s a' s' HP [= _ <-]. exact HP. Qed.

Lemma mpres_read {A} (P : S -> Prop) (f : S -> result A) : mpres P (mread f).
Proof. intros s a s' HP [= _ <-]. exact HP. Qed.

Lemma mpres_throw {A} (P : S -> Prop) (e : exc) : mpres P (@mthrow S A e).
Proof. intros s a s' _ [=]. Qed.

Lemma mpres_modify (P : S -> Prop) (f : S -> S) :
  (forall s, P s -> P (f s)) -> mpres P (mmodify f).
Proof. intros Hf s a s' HP [= _ <-]. apply Hf, HP. Qed.

Lemma mpres_bind {A B} (P : S -> Prop) (m : PyM S A) (k : A -> PyM S B) :
  mpres P m -> (forall a, mpres P (k a)) -> mpres P (mbind m k).
Proof.
  intros Hm Hk s b s' HP. simpl. destruct (m s) as [[a|e] s1] eqn:E; [|discriminate].
  intros Hrun. exact (Hk a _ _ _ (Hm _ _ _ HP E) Hrun).
Qed.

(** A successful run of [mbind m k] is a successful run of [m] followed by
    one of [k]. *)
Lemma mbind_inv {A B} (m : PyM S A) (k : A -> PyM S B) s b s' :
  mbind m k s = (Ok b, s') -> exists a s1, m s = (Ok a, s1) /\ k a s1 = (Ok b, s').
Proof. apply mbind_Ok. Qed.

(** [for x in l: f(x)], stopping at the first exception. *)
Fixpoint py_for {A} (l : list A) (f : A -> PyM S unit) : PyM S unit :=
  match l with
  | [] => mret tt
  | x :: l' => f x ;; py_for l' f
  end.

(** A loop whose body keeps [I] and moves the view [g] of the state by
    [step] computes the left fold of [step] over the list. *)
Lemma py_for_fold {A B} (I : S -> Prop) (g : S -> B) (step : B -> A -> B)
    (f : A -> PyM S unit) :
  (forall x s u s', I s -> f x s = (Ok u, s') -> I s' /\ g s' = step (g s) x) ->
  forall l s u s', I s -> py_for l f s = (Ok u, s') -> I s' /\ g s' = foldl step (g s) l.
Proof.
  intros Hf l. induction l as [|x l IH]; intros s u s' HI Hrun; simpl in Hrun.
  - injection Hrun as _ <-. auto.
  - apply mbind_inv in Hrun as (u1 & s1 & Hx & Hrun).
    destruct (Hf x s u1 s1 HI Hx) as [HI1 Hg1].
    destruct (IH s1 u s' HI1 Hrun) as [HI' Hg']. rewrite Hg', Hg1. auto.
Qed.

(** A loop whose body keeps [I] keeps [I]. *)
Lemma py_for_mpres {A} (I : S -> Prop) (f : A -> PyM S unit) :
  (forall x, mpres I (f x)) -> forall l, mpres I (py_for l f).
Proof.
  intros Hf l. induction l as [|x l IH]; simpl; [apply mpres_ret|].
  apply mpres_bind; [apply Hf|intros _; exact IH].
Qed.

End MonadLogic.

(** Decompose an [mrel] or [mpres] goal along the program's structure;
    [tac] closes the obligations of the state updates. *)
Ltac mrel_solve tac :=
  repeat (cbv beta; match goal with
  | |- mrel _ (mbind _ _) => apply mrel_bind; try exact _; [| intros ?]
  | |- mrel _ (mret _) => apply mrel_ret; exact _
  | |- mrel _ (mread _) => apply mrel_read; exact _
  | |- mrel _ (mthrow _) => apply mrel_throw; exact _
  | |- mrel _ (mmodify _) => apply mrel_modify; intros; tac
  | |- mrel _ (match ?x with _ => _ end) => destruct x
  | |- mrel _ (if ?b then _ else _) => destruct b
  end).

Ltac mpres_solve tac :=
  repeat (cbv beta; match goal with
  | |- mpres _ (mbind _ _) => apply mpres_bind; [| intros ?]
  | |- mpres _ (mret _) => apply mpres_ret
  | |- mpres _ (mread _) => apply mpres_read
  | |- mpres _ (mthrow _) => apply mpres_throw
  | |- mpres _ (mmodify _) => apply mpres_modify; intros; tac
  | |- mpres _ (match ?x with _ => _ end) => destruct x
  | |- mpres _ (if ?b then _ else _) => destruct b
  end).

Lemma mread_inv {S A} (f : S -> result A) (s : S) (a : A) (s' : S) :
  mread f s = (Ok a, s') -> f s = Ok a /\ s' = s.
Proof. simpl. intros [= -> <-]. auto. Qed.

Lemma mmodify_inv {S} (f : S -> S) (s : S) (a : unit) (s' : S) : mmodify f s = (Ok a, s') -> s' = f s.
Proof. simpl. intros [= _ <-]. reflexivity. Qed.

Lemma mret_inv {S A} (x : A) (s : S) (a : A) (s' : S) : mret x s = (Ok a, s') -> a = x /\ s' = s.
Proof. simpl. intros [= -> <-]. auto. Qed.

(** Invert the first step of a successful run [H] of a bind. *)
Ltac mstep H :=
  let a := fresh "a" in let s := fresh "s" in let H1 := fresh "Hstep" in
  apply mbind_inv in H as (a & s & H1 & H).

Lemma mrel_apply {S A} (R : S -> S -> Prop) (m : PyM S A) (s : S) (r : result A) (s' : S) :
  m s = (r, s') -> mrel R m -> R s s'.
Proof. intros Hrun Hm. exact (Hm _ _ _ Hrun). Qed.
