(* ===== verification/Entry.v ===== *)
(** * The data of [src/hashmap.py]

    A Python [str] is a sequence of code points: [pychar] wraps one code
    point, read back with [ord], and [pystr] is a list of them.  A key stored
    in the table is either a string ([KStr]) or the unique [_delobj()]
    instance that the sentinel [DELETED] holds as its key ([KDel]); the
    program compares keys with [==] and [!=], which for these two kinds is
    structural equality on strings and identity on the one [_delobj].
    [Entry] is the namedtuple of lines 5 and 17, whose value is an integer
    or [None] (the value of [DELETED]); a cell of the array is [None] or an
    [Entry]. *)

From stdpp Require Import base list decidable countable strings.
From Stdlib Require Import ZArith Ascii String.
From S2P Require Import Prelude.
Export String.StringSyntax.

Open Scope Z_scope.

(** One character of a Python string, by its code point. *)
Record pychar := PyChar { ord : Z }.

Definition pystr := list pychar.

(** Keys: a string, or the [_delobj()] instance of [DELETED] (line 17). *)
Inductive pykey :=
  | KStr (s : pystr)
  | KDel.

(** [Entry = namedtuple('Entry', ('key', 'value'))]. *)
Record entry := Entry { key : pykey; value : option Z }.

(** [DELETED = Entry(_delobj(), None)]. *)
Definition DELETED : entry := Entry KDel None.

(** A cell of [self.table]: [None] or an [Entry]. *)
Abbreviation slot := (option entry).

#[export] Instance pychar_eq_dec : EqDecision pychar.
Proof. solve_decision. Defined.
#[export] Instance pykey_eq_dec : EqDecision pykey.
Proof. solve_decision. Defined.
#[export] Instance entry_eq_dec : EqDecision entry.
Proof. solve_decision. Defined.

#[export] Instance pychar_countable : Countable pychar.
Proof. apply (inj_countable' ord PyChar). intros []. reflexivity. Defined.

(** A string literal of ASCII characters as a [pystr]. *)
Definition str (s : string) : pystr :=
  map (fun a => PyChar (Z.of_nat (nat_of_ascii a))) (list_ascii_of_string s).
Arguments str s%_string_scope.

(** [self.table[index] == DELETED]: namedtuple equality. *)
Definition is_deleted (e : entry) : bool := bool_decide (e = DELETED).

Lemma is_deleted_true (e : entry) : is_deleted e = true <-> e = DELETED.
Proof. unfold is_deleted. apply bool_decide_eq_true. Qed.

Lemma deleted_key_not_str (e : entry) (s : pystr) :
  is_deleted e = true -> key e <> KStr s.
Proof. intros ->%is_deleted_true. discriminate. Qed.

#[export] Hint Resolve deleted_key_not_str : pyhash.
