(* ===== verification/Hashing.v ===== *)
(** * The hash functions of [Hashmap] ([src/hashmap.py], lines 154-196)

    [hash_func] returns Python's built-in [hash(key)], which the program does
    not define and which CPython salts per process: it is the interface
    [PyHash], a class whose instance gives the hash of every string and of
    the [_delobj] instance.  [hash_func1] and [hash_func2] are the two
    counted loops over the characters of the key; on the [_delobj] key of
    [DELETED] their first statement [len(hashKey)] raises [TypeError].
    [hash_of] is the three-way dispatch on [self.hashtype] that every method
    repeats (lines 45-50, 102-107, 121-126, 142-147). *)

From stdpp Require Import base list decidable.
From Stdlib Require Import ZArith Lia Permutation.
From S2P Require Import Prelude Entry.

Open Scope Z_scope.

(** Python's built-in [hash] on the two kinds of key. *)
Class PyHash := {
  hash_str : pystr -> Z;
  hash_delobj : Z
}.

Section Hashing.
Context `{PyHash}.

(** [return hash(key)] (line 164). *)
Definition hash_func (k : pykey) : result Z :=
  match k with
  | KStr s => Ok (hash_str s)
  | KDel => Ok hash_delobj
  end.

(** [while index < keyLen: hashOutput += ord(hashKey[index]) * 31 ** index]
    (lines 173-180): the loop over [index] in [0, keyLen). *)
Definition hash_func1 (hashKey : pykey) : result Z :=
  match hashKey with
  | KStr s =>
      let keyLen := length s in
      Ok (fold_left
            (fun hashOutput index =>
               hashOutput + ord (nth index s (PyChar 0)) * 31 ^ Z.of_nat index)
            (seq 0 keyLen) 0)
  | KDel => Err TypeError
  end.

(** [while index < keyLen: hashOutput += ord(hashKey[index])]
    (lines 189-196). *)
Definition hash_func2 (hashKey : pykey) : result Z :=
  match hashKey with
  | KStr s =>
      let keyLen := length s in
      Ok (fold_left
            (fun hashOutput index => hashOutput + ord (nth index s (PyChar 0)))
            (seq 0 keyLen) 0)
  | KDel => Err TypeError
  end.

(** The dispatch on [self.hashtype]: [1], then [0], anything else [2]. *)
Definition hash_of (hashtype : Z) (k : pykey) : result Z :=
  if hashtype =? 1 then hash_func1 k
  else if hashtype =? 0 then hash_func k
  else hash_func2 k.

End Hashing.

(** ** Reference definitions *)

(** The polynomial of [hash_func1] by Horner's rule: [s0 + 31*(s1 + 31*(...))]. *)
Fixpoint horner31 (s : pystr) : Z :=
  match s with
  | [] => 0
  | c :: s' => ord c + 31 * horner31 s'
  end.

(** The sum of the code points. *)
Definition ord_sum (s : pystr) : Z := foldr Z.add 0 (map ord s).

(** A Python string: every code point is in [0, 0x10FFFF]. *)
Definition valid_str (s : pystr) : Prop :=
  Forall (fun c => 0 <= ord c <= 1114111) s.

(** ** Shared lemmas *)

Lemma fold_left_add_sum {A} (f : A -> Z) (l : list A) (acc : Z) :
  fold_left (fun a i => a + f i) l acc = acc + foldr Z.add 0 (map f l).
Proof.
  revert acc. induction l as [|x l IH]; intros acc; simpl; [lia|].
  rewrite IH. lia.
Qed.

Lemma foldr_add_scale {A} (f : A -> Z) (m : Z) (l : list A) :
  foldr Z.add 0 (map (fun i => m * f i) l) = m * foldr Z.add 0 (map f l).
Proof. induction l as [|x l IH]; simpl; [lia|]. rewrite IH. lia. Qed.

Lemma seq_0_S (n : nat) : seq 0 (S n) = 0%nat :: map S (seq 0 n).
Proof. simpl. f_equal. symmetry. apply seq_shift. Qed.

Lemma poly_sum_horner (s : pystr) :
  foldr Z.add 0
    (map (fun i => ord (nth i s (PyChar 0)) * 31 ^ Z.of_nat i) (seq 0 (length s)))
  = horner31 s.
Proof.
  induction s as [|c s IH]; [reflexivity|].
  rewrite length_cons, seq_0_S, map_cons, map_map. simpl (foldr _ _ (_ :: _)).
  rewrite (map_ext _ (fun i => 31 * (ord (nth i s (PyChar 0)) * 31 ^ Z.of_nat i))).
  - rewrite foldr_add_scale, IH. simpl. lia.
  - intros i. simpl nth. rewrite Nat2Z.inj_succ, Z.pow_succ_r by lia. lia.
Qed.

Lemma sum_ords_nth (s : pystr) :
  foldr Z.add 0 (map (fun i => ord (nth i s (PyChar 0))) (seq 0 (length s)))
  = ord_sum s.
Proof.
  unfold ord_sum. induction s as [|c s IH]; [reflexivity|].
  rewrite length_cons, seq_0_S, map_cons, map_map. simpl. rewrite IH. lia.
Qed.

Lemma hash_func2_sum (s : pystr) : hash_func2 (KStr s) = Ok (ord_sum s).
Proof.
  simpl. rewrite fold_left_add_sum, sum_ords_nth. reflexivity.
Qed.

Lemma ord_sum_perm (s t : pystr) : Permutation s t -> ord_sum s = ord_sum t.
Proof. unfold ord_sum. induction 1; simpl; lia. Qed.

Lemma horner31_nonneg (s : pystr) :
  Forall (fun c => 0 <= ord c) s -> 0 <= horner31 s.
Proof. induction 1; simpl; lia. Qed.

(** ** Properties of the hash functions *)

Section Properties.
Context `{PyHash}.

Lemma hash_func1_eq (s : pystr) : hash_func1 (KStr s) = Ok (horner31 s).
Proof.
  simpl. rewrite (fold_left_add_sum (fun i => ord (nth i s (PyChar 0)) * 31 ^ Z.of_nat i)).
  rewrite poly_sum_horner. reflexivity.
Qed.

(** C28: [hash_func1]'s loop computes the polynomial
    [sum_i ord(key[i]) * 31^i], i.e. the Horner evaluation [horner31]. *)
Theorem hash_func1_horner (s : pystr) : hash_func1 (KStr s) = Ok (horner31 s).
Proof. exact (hash_func1_eq s). Qed.

(** [hash_func2] depends only on the multiset of characters: two keys
    that are anagrams of each other get the same digest under hash type 2. *)
Theorem hash_func2_anagram (s t : pystr) :
  Permutation s t -> hash_func2 (KStr s) = hash_func2 (KStr t).
Proof.
  intros Hp. rewrite !hash_func2_sum. f_equal. apply ord_sum_perm. exact Hp.
Qed.

(** The polynomial digest of a Python string is non-negative. *)
Theorem hash_func1_nonneg (s : pystr) (h : Z) :
  valid_str s -> hash_func1 (KStr s) = Ok h -> 0 <= h.
Proof.
  intros Hv Hh. rewrite hash_func1_eq in Hh. injection Hh as <-.
  apply horner31_nonneg. eapply Forall_impl; [|exact Hv]. simpl. lia.
Qed.

(** Hashing the deletion sentinel's key raises [TypeError] under every
    hash type but [0] ([len] of an [_delobj]). *)
Theorem hash_of_delobj (hashtype : Z) :
  hashtype <> 0 -> hash_of hashtype KDel = Err TypeError.
Proof.
  intros Hne. unfold hash_of.
  destruct (hashtype =? 1); [reflexivity|].
  rewrite (proj2 (Z.eqb_neq hashtype 0) Hne). reflexivity.
Qed.

End Properties.

(** An instance of the [PyHash] interface for concrete runs: it hashes a
    string with the polynomial of [hash_func1] (CPython's real values are
    salted per process and are not fixed by the program). *)
Definition demo_hash : PyHash := {| hash_str := horner31; hash_delobj := 1 |}.

(** ** Witnesses *)

Lemma hash_func2_anagram_witness :
  hash_func2 (KStr (str "ab")) = hash_func2 (KStr (str "ba")).
Proof. apply hash_func2_anagram. simpl. apply perm_swap. Defined.

Lemma hash_func1_nonneg_witness : 0 <= 3135.
Proof.
  apply (hash_func1_nonneg (str "ab") 3135).
  - unfold valid_str. apply (bool_decide_unpack _). vm_compute. exact I.
  - vm_compute. reflexivity.
Defined.

Lemma hash_of_delobj_witness : @hash_of demo_hash 2 KDel = Err TypeError.
Proof. apply hash_of_delobj. lia. Defined.
