(* ===== verification/Probe.v ===== *)
(** * The probe loops of [Hashmap] ([src/hashmap.py])

    - [lookup_walk]: the loop
      [while self.table[index] is not None and self.table[index].key != key:
       index += 1; if index == bound: index = 0]
      that [get] and [contains] run with [bound = self.cap] (lines 127-130,
      148-151) and [remove] with [bound = len(self.table)] (lines 108-111).
    - [put_walk]: the insertion loop of [put] (lines 65-74), which records
      the first [DELETED] cell it meets, and which, after each step, skips
      the next cell without testing it when that cell is occupied; its
      state is the counter [self.probe], which the skip increments.
    - [dup_scan]: the loop of [put] that rewrites a duplicate key (lines
      56-60); it stops at [self.cap] without wrapping.

    A cyclic probe position is [(i + d) mod n] for a start [i] and an offset
    [d]; [stops] says whether the lookup loop ends at a cell.  The theorems
    characterise each loop against these positions: the first stopping
    offset is what the lookup walk returns, running out of fuel happens only
    when no offset stops, and the insertion walk never passes an empty
    cell. *)

From stdpp Require Import base list decidable.
From Stdlib Require Import ZArith Lia.
From S2P Require Import Prelude Entry.

Open Scope Z_scope.
Open Scope py_scope.

(** ** The loops *)

Fixpoint lookup_walk (table : list slot) (bound : Z) (k : pykey)
    (index : Z) (fuel : nat) : result Z :=
  match fuel with
  | O => Err OutOfFuel
  | S fuel' =>
      let? c := py_getitem table index in
      match c with
      | Some e =>
          if bool_decide (key e = k) then Ok index
          else
            let index := index + 1 in
            let index := if index =? bound then 0 else index in
            lookup_walk table bound k index fuel'
      | None => Ok index
      end
  end.

Fixpoint put_walk (table : list slot) (k : pykey) (index : Z)
    (firstDeleted : option Z) (fuel : nat) : PyM Z (Z * option Z) :=
  match fuel with
  | O => mthrow OutOfFuel
  | S fuel' =>
      let* c := mread (fun _ => py_getitem table index) in
      match c with
      | Some e =>
          if bool_decide (key e = k) then mret (index, firstDeleted)
          else
            let firstDeleted :=
              if is_deleted e && bool_decide (firstDeleted = None)
              then Some index else firstDeleted in
            let index := index + 1 in
            let index := if index =? Z.of_nat (length table) then 0 else index in
            let* c' := mread (fun _ => py_getitem table index) in
            match c' with
            | Some _ =>
                mmodify Z.succ ;;
                put_walk table k (index + 1) firstDeleted fuel'
            | None => put_walk table k index firstDeleted fuel'
            end
      | None => mret (index, firstDeleted)
      end
  end.

(** [inl i]: the duplicate is at [i] (the caller writes it and returns);
    [inr i]: the loop ended with [index = i]. *)
Fixpoint dup_scan (table : list slot) (cap : Z) (k : pykey) (index : Z)
    (fuel : nat) : result (Z + Z) :=
  match fuel with
  | O => Err OutOfFuel
  | S fuel' =>
      if index <? cap then
        let? c := py_getitem table index in
        match c with
        | Some e =>
            if bool_decide (key e = k) then Ok (inl index)
            else dup_scan table cap k (index + 1) fuel'
        | None => Err AttributeError
        end
      else Ok (inr index)
  end.

(** ** Reference notions *)

(** The lookup loop ends at cell [j]: it is empty or holds key [k]. *)
Definition stops (table : list slot) (k : pykey) (j : Z) : bool :=
  match table !! Z.to_nat j with
  | Some None => true
  | Some (Some e) => bool_decide (key e = k)
  | None => false
  end.

(** The cells at offsets [0 .. d-1] from [i] are all occupied. *)
Definition occupied_run (table : list slot) (i : Z) (d : nat) : Prop :=
  forall d', (d' < d)%nat ->
    exists e, table !! Z.to_nat ((i + Z.of_nat d') mod Z.of_nat (length table))
              = Some (Some e).

(** The [firstDeleted] of [put_walk] after offset [d]: [None], or a
    [DELETED] cell at a smaller offset. *)
Definition first_deleted_ok (table : list slot) (i : Z) (d : nat)
    (fd : option Z) : Prop :=
  match fd with
  | None => True
  | Some q => exists dq, (dq < d)%nat /\
      q = (i + Z.of_nat dq) mod Z.of_nat (length table) /\
      table !! Z.to_nat q = Some (Some DELETED)
  end.

(** ** Lemmas on one step *)

Section Walks.
Variable table : list slot.
Local Abbreviation n := (Z.of_nat (length table)).

Lemma getitem_pos (p : Z) :
  0 <= p < n -> exists c, table !! Z.to_nat p = Some c /\ py_getitem table p = Ok c.
Proof. apply py_getitem_in_range. Qed.

Lemma stops_cell (k : pykey) (p : Z) (c : slot) :
  table !! Z.to_nat p = Some c ->
  stops table k p = match c with None => true | Some e => bool_decide (key e = k) end.
Proof. intros Hc. unfold stops. rewrite Hc. destruct c; reflexivity. Qed.

Lemma occupied_run_S (i : Z) (d : nat) (e : entry) :
  occupied_run table i d ->
  table !! Z.to_nat ((i + Z.of_nat d) mod n) = Some (Some e) ->
  occupied_run table i (S d).
Proof.
  intros Hrun He d' Hd'. destruct (decide (d' = d)) as [->|Hne]; [eauto|].
  apply Hrun. lia.
Qed.

Lemma first_deleted_ok_mono (i : Z) (d d' : nat) (fd : option Z) :
  (d <= d')%nat -> first_deleted_ok table i d fd -> first_deleted_ok table i d' fd.
Proof.
  destruct fd as [q|]; simpl; [|auto].
  intros Hle (dq & Hdq & Hq & Hc). exists dq. split; [lia|auto].
Qed.

(** ** The lookup walk against [stops] *)

Lemma lookup_walk_first (k : pykey) (fuel : nat) : forall (i : Z) (d : nat),
  0 <= i < n -> (d < fuel)%nat ->
  stops table k ((i + Z.of_nat d) mod n) = true ->
  (forall d', (d' < d)%nat -> stops table k ((i + Z.of_nat d') mod n) = false) ->
  lookup_walk table n k i fuel = Ok ((i + Z.of_nat d) mod n).
Proof.
  induction fuel as [|fuel IH]; intros i d Hi Hd Hstop Hbefore; [lia|].
  destruct (getitem_pos i Hi) as (c & Hc & Hget).
  simpl. rewrite Hget. simpl.
  assert (Hi0 : (i + Z.of_nat 0) mod n = i) by (rewrite Z.add_0_r; apply Z.mod_small; lia).
  destruct d as [|d].
  - rewrite Hi0 in Hstop |- *. rewrite (stops_cell k i c Hc) in Hstop.
    destruct c as [e|]; [|reflexivity].
    rewrite Hstop. reflexivity.
  - pose proof (Hbefore 0%nat ltac:(lia)) as H0. rewrite Hi0, (stops_cell k i c Hc) in H0.
    destruct c as [e|]; [|discriminate]. rewrite H0.
    rewrite wrap_succ_mod by lia.
    rewrite <- mod_offset_succ by lia.
    apply IH.
    + apply Z.mod_pos_bound. lia.
    + lia.
    + rewrite mod_offset_succ by lia. exact Hstop.
    + intros d' Hd'. rewrite mod_offset_succ by lia. apply Hbefore. lia.
Qed.

Lemma lookup_walk_exhausts (k : pykey) (fuel : nat) : forall (i : Z),
  0 <= i < n ->
  (forall d, (d < fuel)%nat -> stops table k ((i + Z.of_nat d) mod n) = false) ->
  lookup_walk table n k i fuel = Err OutOfFuel.
Proof.
  induction fuel as [|fuel IH]; intros i Hi Hnone; [reflexivity|].
  destruct (getitem_pos i Hi) as (c & Hc & Hget).
  simpl. rewrite Hget. simpl.
  pose proof (Hnone 0%nat ltac:(lia)) as H0.
  rewrite Z.add_0_r, Z.mod_small, (stops_cell k i c Hc) in H0 by lia.
  destruct c as [e|]; [|discriminate]. rewrite H0.
  rewrite wrap_succ_mod by lia.
  apply IH; [apply Z.mod_pos_bound; lia|].
  intros d Hd. rewrite mod_offset_succ by lia. apply Hnone. lia.
Qed.

(** ** The insertion walk *)

Lemma put_walk_step_bound (p : Z) :
  0 <= p < n -> 0 <= (if p + 1 =? n then 0 else p + 1) < n.
Proof. intros Hp. destruct (Z.eqb_spec (p + 1) n); lia. Qed.

(** The walk from [p] does not run out of fuel when the empty cell [pN] is
    less than [fuel] steps ahead of [p]. *)
Lemma put_walk_no_exhaustion (k : pykey) (pN : Z) (fuel : nat) :
  forall (p : Z) (fd : option Z) (probe : Z),
  0 <= p < n -> 0 <= pN < n -> table !! Z.to_nat pN = Some None ->
  (pN - p) mod n < Z.of_nat fuel ->
  fst (put_walk table k p fd fuel probe) <> Err OutOfFuel.
Proof.
  induction fuel as [|fuel IH]; intros p fd probe Hp HpN HN Hdist.
  { pose proof (Z.mod_pos_bound (pN - p) n ltac:(lia)). lia. }
  destruct (getitem_pos p Hp) as (c & Hc & Hget).
  simpl. rewrite Hget. simpl.
  destruct c as [e|]; [|discriminate].
  destruct (bool_decide (key e = k)); [discriminate|].
  assert (Hne : p <> pN) by (intros ->; congruence).
  pose proof (put_walk_step_bound p Hp) as Hp1.
  assert (Hd1 : (pN - (if p + 1 =? n then 0 else p + 1)) mod n = (pN - p) mod n - 1).
  { rewrite wrap_succ_mod, Zminus_mod_idemp_r by lia. apply mod_dist_succ; lia. }
  revert Hp1 Hd1. generalize (if p + 1 =? n then 0 else p + 1). intros p1 Hp1 Hd1.
  destruct (getitem_pos p1 Hp1) as (c1 & Hc1 & Hget1).
  rewrite Hget1. simpl.
  destruct c1 as [e1|].
  - assert (Hne1 : p1 <> pN) by (intros Heq; rewrite Heq in Hc1; congruence).
    pose proof (mod_dist_pos n p1 pN Hp1 HpN Hne1).
    destruct (Z.eq_dec (p1 + 1) n) as [Hend|Hin].
    + destruct fuel as [|fuel]; [lia|].
      simpl. rewrite Hend, py_getitem_ge by lia. discriminate.
    + apply IH; [lia|exact HpN|exact HN|].
      rewrite mod_dist_succ by lia. lia.
  - apply IH; [exact Hp1|exact HpN|exact HN|]. lia.
Qed.

Lemma put_walk_at_end (k : pykey) (fd : option Z) (probe : Z) (fuel : nat) :
  exists e, fst (put_walk table k n fd fuel probe) = Err e.
Proof.
  destruct fuel as [|fuel]; simpl; [eauto|].
  rewrite py_getitem_ge by lia. simpl. eauto.
Qed.

(** What a successful insertion walk started at [i] establishes: it stops
    at offset [dj] on an empty cell or on the key, every cell before it is
    occupied, [firstDeleted] names a [DELETED] cell passed on the way (and
    is kept once set), and the probe counter does not decrease. *)
Lemma put_walk_result (k : pykey) (i : Z) (fuel : nat) :
  forall (d : nat) (fd : option Z) (probe : Z) (j : Z) (fd' : option Z) (probe' : Z),
  0 <= i < n ->
  occupied_run table i d -> first_deleted_ok table i d fd ->
  put_walk table k ((i + Z.of_nat d) mod n) fd fuel probe = (Ok (j, fd'), probe') ->
  exists dj, (d <= dj)%nat /\ j = (i + Z.of_nat dj) mod n /\
    occupied_run table i dj /\ stops table k j = true /\
    first_deleted_ok table i dj fd' /\ (fd <> None -> fd' = fd) /\ probe <= probe'.
Proof.
  induction fuel as [|fuel IH];
    intros d fd probe j fd' probe' Hi Hrun Hfd Hwalk; [discriminate|].
  assert (Hp : 0 <= (i + Z.of_nat d) mod n < n) by (apply Z.mod_pos_bound; lia).
  destruct (getitem_pos _ Hp) as (c & Hc & Hget).
  simpl in Hwalk. rewrite Hget in Hwalk. simpl in Hwalk.
  destruct c as [e|].
  2:{ injection Hwalk as <- <- <-. exists d. rewrite (stops_cell k _ None Hc).
      repeat split; auto; lia. }
  destruct (bool_decide (key e = k)) eqn:Hk.
  { injection Hwalk as <- <- <-. exists d. rewrite (stops_cell k _ _ Hc), Hk.
    repeat split; auto; lia. }
  assert (Hrun1 : occupied_run table i (S d)) by (eapply occupied_run_S; eauto).
  set (fd1 := if is_deleted e && bool_decide (fd = None)
              then Some ((i + Z.of_nat d) mod n) else fd) in Hwalk.
  assert (Hfd1 : first_deleted_ok table i (S d) fd1 /\ (fd <> None -> fd1 = fd)).
  { subst fd1. destruct (is_deleted e) eqn:Hdel, (bool_decide (fd = None)) eqn:Hnone;
      simpl; try (split; [eapply first_deleted_ok_mono; [|exact Hfd]; lia|auto]).
    apply is_deleted_true in Hdel. apply bool_decide_eq_true in Hnone. subst.
    split; [|congruence]. exists d. split; [lia|]. split; [reflexivity|exact Hc]. }
  destruct Hfd1 as [Hfd1 Hkeep].
  rewrite wrap_succ_mod, mod_succ_offset in Hwalk by lia.
  assert (Hp1 : 0 <= (i + Z.of_nat (S d)) mod n < n) by (apply Z.mod_pos_bound; lia).
  destruct (getitem_pos _ Hp1) as (c1 & Hc1 & Hget1).
  rewrite Hget1 in Hwalk. simpl in Hwalk.
  destruct c1 as [e1|]; simpl in Hwalk.
  - destruct (Z.eq_dec ((i + Z.of_nat (S d)) mod n + 1) n) as [Hend|Hin].
    { rewrite Hend in Hwalk. destruct (put_walk_at_end k fd1 (Z.succ probe) fuel) as [x Hx].
      rewrite Hwalk in Hx. discriminate. }
    assert (Hstep : (i + Z.of_nat (S d)) mod n + 1 = (i + Z.of_nat (S (S d))) mod n).
    { rewrite <- (Z.mod_small ((i + Z.of_nat (S d)) mod n + 1) n) by lia.
      rewrite Z.add_mod_idemp_l by lia. f_equal. lia. }
    rewrite Hstep in Hwalk.
    destruct (IH _ _ _ _ _ _ Hi (occupied_run_S _ _ _ Hrun1 Hc1)
                (first_deleted_ok_mono i (S d) (S (S d)) fd1 ltac:(lia) Hfd1) Hwalk)
      as (dj & Hle & Hj & Hrunj & Hstop & Hfdj & Hkeepj & Hpr).
    exists dj. split; [lia|]. do 4 (split; [assumption|]). split; [|lia].
    intros Hfd0. rewrite Hkeepj by (rewrite Hkeep by exact Hfd0; exact Hfd0).
    exact (Hkeep Hfd0).
  - destruct (IH _ _ _ _ _ _ Hi Hrun1 Hfd1 Hwalk)
      as (dj & Hle & Hj & Hrunj & Hstop & Hfdj & Hkeepj & Hpr).
    exists dj. split; [lia|]. do 4 (split; [assumption|]). split; [|lia].
    intros Hfd0. rewrite Hkeepj by (rewrite Hkeep by exact Hfd0; exact Hfd0).
    exact (Hkeep Hfd0).
Qed.

End Walks.

(** ** Termination and divergence of the probe loops *)

Lemma empty_cell_offset (table : list slot) (k : pykey) (i : Z) (p : nat) :
  0 <= i < Z.of_nat (length table) -> table !! p = Some None ->
  exists d0, (d0 < length table)%nat /\
    stops table k ((i + Z.of_nat d0) mod Z.of_nat (length table)) = true.
Proof.
  intros Hi Hp. pose proof (lookup_lt_Some _ _ _ Hp) as Hlt.
  destruct (mod_offset_reach (Z.of_nat (length table)) i (Z.of_nat p) Hi ltac:(lia))
    as [Hd Hreach].
  eexists. split; [rewrite Nat2Z.id in Hd; exact Hd|].
  rewrite Hreach. unfold stops. rewrite Nat2Z.id, Hp. reflexivity.
Qed.

(** C18: when the array has an empty cell, the lookup loop of [get],
    [contains] and [remove] started at a valid index terminates within
    [len(self.table)] steps, at the first cell of the cyclic probe sequence
    that is empty or holds the key. *)
Theorem lookup_walk_terminates (table : list slot) (k : pykey) (i : Z) :
  0 <= i < Z.of_nat (length table) ->
  (exists p, table !! p = Some None) ->
  exists d, (d < length table)%nat /\
    stops table k ((i + Z.of_nat d) mod Z.of_nat (length table)) = true /\
    (forall d', (d' < d)%nat ->
       stops table k ((i + Z.of_nat d') mod Z.of_nat (length table)) = false) /\
    lookup_walk table (Z.of_nat (length table)) k i (S (length table))
      = Ok ((i + Z.of_nat d) mod Z.of_nat (length table)).
Proof.
  intros Hi [p Hp].
  destruct (empty_cell_offset table k i p Hi Hp) as (d0 & Hd0 & Hstop0).
  destruct (nat_least (fun d => stops table k
              ((i + Z.of_nat d) mod Z.of_nat (length table)) = true) d0 Hstop0)
    as (d & Hle & Hstop & Hmin).
  assert (Hbefore : forall d', (d' < d)%nat ->
            stops table k ((i + Z.of_nat d') mod Z.of_nat (length table)) = false).
  { intros d' Hd'. apply not_true_is_false. apply Hmin. exact Hd'. }
  exists d. split; [lia|]. split; [exact Hstop|]. split; [exact Hbefore|].
  apply lookup_walk_first; [exact Hi|lia|exact Hstop|exact Hbefore].
Qed.

(** C27: when no cell is empty and none holds the key, the lookup loop never
    stops: for every amount of fuel the run is cut, i.e. [get], [contains]
    and [remove] of an absent key hang on a full table. *)
Theorem lookup_walk_diverges (table : list slot) (k : pykey) :
  (forall p c, table !! p = Some c -> exists e, c = Some e /\ key e <> k) ->
  forall i fuel, 0 <= i < Z.of_nat (length table) ->
  lookup_walk table (Z.of_nat (length table)) k i fuel = Err OutOfFuel.
Proof.
  intros Hfull i fuel Hi. apply lookup_walk_exhausts; [exact Hi|].
  intros d _.
  assert (Hb : 0 <= (i + Z.of_nat d) mod Z.of_nat (length table) < Z.of_nat (length table))
    by (apply Z.mod_pos_bound; lia).
  destruct (lookup_lt_is_Some_2 table
              (Z.to_nat ((i + Z.of_nat d) mod Z.of_nat (length table)))) as [c Hc]; [lia|].
  destruct (Hfull _ _ Hc) as (e & -> & Hne).
  rewrite (stops_cell _ _ _ _ Hc). apply bool_decide_eq_false. exact Hne.
Qed.

(** C19: when the array has an empty cell, the insertion loop of [put]
    started at a valid index stops within [len(self.table)] steps: it
    returns a placement or raises, and is never cut by the fuel. *)
Theorem put_walk_terminates (table : list slot) (k : pykey) (i : Z)
    (fd : option Z) (probe : Z) :
  0 <= i < Z.of_nat (length table) ->
  (exists p, table !! p = Some None) ->
  fst (put_walk table k i fd (S (length table)) probe) <> Err OutOfFuel.
Proof.
  intros Hi [p Hp]. pose proof (lookup_lt_Some _ _ _ Hp) as Hlt.
  apply (put_walk_no_exhaustion table k (Z.of_nat p)); [exact Hi|lia| |].
  - rewrite Nat2Z.id. exact Hp.
  - pose proof (Z.mod_pos_bound (Z.of_nat p - i) (Z.of_nat (length table)) ltac:(lia)).
    lia.
Qed.

(** ** Witnesses on a three-cell array *)

Definition demo_table : list slot :=
  [Some (Entry (KStr (str "a")) (Some 1)); None; Some DELETED].

Lemma lookup_walk_terminates_witness :
  exists j, lookup_walk demo_table 3 (KStr (str "b")) 2 4 = Ok j.
Proof.
  destruct (lookup_walk_terminates demo_table (KStr (str "b")) 2)
    as (d & _ & _ & _ & Hrun); [simpl; lia | exists 1%nat; reflexivity |].
  eexists. exact Hrun.
Defined.

Lemma lookup_walk_diverges_witness :
  lookup_walk [Some DELETED; Some (Entry (KStr (str "a")) (Some 1))] 2
    (KStr (str "b")) 0 100 = Err OutOfFuel.
Proof.
  apply (lookup_walk_diverges [Some DELETED; Some (Entry (KStr (str "a")) (Some 1))]
           (KStr (str "b"))); [|simpl; lia].
  intros [|[|p]] c Hc; simpl in Hc; try discriminate; injection Hc as <-;
    eexists; split; [reflexivity| discriminate | reflexivity | discriminate].
Defined.

Lemma put_walk_terminates_witness :
  fst (put_walk demo_table (KStr (str "b")) 2 None 4 0) <> Err OutOfFuel.
Proof.
  apply put_walk_terminates; [simpl; lia | exists 1%nat; reflexivity].
Defined.

(** ** The duplicate scan *)

Lemma dup_scan_inl (table : list slot) (cap : Z) (k : pykey) (index : Z) (fuel : nat) (i : Z) :
  0 <= index -> dup_scan table cap k index fuel = Ok (inl i) ->
  0 <= i /\ exists e, table !! Z.to_nat i = Some (Some e) /\ key e = k.
Proof.
  revert index. induction fuel as [|fuel IH]; intros index H0 Hscan; [discriminate|].
  simpl in Hscan. destruct (index <? cap); [|discriminate].
  destruct (py_getitem table index) as [c|] eqn:Hget; [|discriminate]. simpl in Hscan.
  destruct c as [e|]; [|discriminate].
  destruct (bool_decide (key e = k)) eqn:Hk.
  - injection Hscan as <-. apply py_getitem_lookup in Hget as [_ Hget]; [|exact H0].
    split; [exact H0|]. exists e. split; [exact Hget|]. apply bool_decide_eq_true in Hk. exact Hk.
  - apply (IH (index + 1)); [lia|exact Hscan].
Qed.

Lemma dup_scan_inr (table : list slot) (cap : Z) (k : pykey) (index : Z) (fuel : nat) (i : Z) :
  dup_scan table cap k index fuel = Ok (inr i) -> cap <= i /\ index <= i.
Proof.
  revert index. induction fuel as [|fuel IH]; intros index Hscan; [discriminate|].
  simpl in Hscan. destruct (index <? cap) eqn:Hlt.
  - destruct (py_getitem table index) as [c|]; [|discriminate]. simpl in Hscan.
    destruct c as [e|]; [|discriminate].
    destruct (bool_decide (key e = k)); [discriminate|].
    apply IH in Hscan. lia.
  - injection Hscan as <-. apply Z.ltb_ge in Hlt. lia.
Qed.

(** The skip of lines 72-74 does not wrap: from the cell before the last,
    over a cell whose key is not [k], the walk steps to the last cell, finds
    it occupied (whatever key it holds: it is never tested), and reads
    [table[len(table)]]. *)
Lemma put_walk_skip_past_end (table : list slot) (k : pykey) (fd : option Z) (fuel : nat)
    (probe : Z) (e1 e2 : entry) :
  (2 <= length table)%nat -> (2 <= fuel)%nat ->
  table !! (length table - 2)%nat = Some (Some e1) -> key e1 <> k ->
  table !! (length table - 1)%nat = Some (Some e2) ->
  fst (put_walk table k (Z.of_nat (length table) - 2) fd fuel probe) = Err IndexError.
Proof.
  intros Hn Hf H1 Hk H2. destruct fuel as [|[|fuel]]; [lia|lia|]. cbn [put_walk mbind mread].
  rewrite (py_getitem_of_lookup _ _ (Some e1)) by (lia || (rewrite <- H1; f_equal; lia)).
  cbn. rewrite bool_decide_eq_false_2 by exact Hk.
  replace (Z.of_nat (length table) - 2 + 1 =? Z.of_nat (length table)) with false
    by (symmetry; apply Z.eqb_neq; lia).
  cbn [mbind mread].
  rewrite (py_getitem_of_lookup _ _ (Some e2)) by (lia || (rewrite <- H2; f_equal; lia)).
  cbn [mbind mmodify put_walk mread].
  rewrite py_getitem_ge by lia. reflexivity.
Qed.

(** Over cells from [index] to [cap - 1] that all hold other keys, the
    duplicate scan ends with [index = cap]. *)
Lemma dup_scan_past_end (table : list slot) (cap : Z) (k : pykey) (n : nat) :
  cap <= Z.of_nat (length table) ->
  forall index, 0 <= index <= cap -> Z.to_nat (cap - index) = n ->
  (forall j, index <= j < cap -> exists e, table !! Z.to_nat j = Some (Some e) /\ key e <> k) ->
  dup_scan table cap k index (S n) = Ok (inr cap).
Proof.
  intros Hcap. induction n as [|n IH]; intros index Hi Hn Hcells; simpl.
  - rewrite (proj2 (Z.ltb_ge index cap)) by lia. f_equal. f_equal. lia.
  - rewrite (proj2 (Z.ltb_lt index cap)) by lia.
    destruct (Hcells index ltac:(lia)) as (e & He & Hk).
    rewrite (py_getitem_of_lookup _ _ _ (proj1 Hi) He). simpl.
    rewrite bool_decide_eq_false_2 by exact Hk.
    apply IH; [lia|lia|]. intros j Hj. apply Hcells. lia.
Qed.

(** Over cells from [index] to [j - 1] that hold other keys, the duplicate
    scan stops at the cell [j] that holds [k]. *)
Lemma dup_scan_finds (table : list slot) (cap : Z) (k : pykey) (j : Z) (e : entry) (n : nat) :
  cap <= Z.of_nat (length table) -> j < cap ->
  table !! Z.to_nat j = Some (Some e) -> key e = k ->
  forall index, 0 <= index <= j -> Z.to_nat (cap - index) = n ->
  (forall m, index <= m < j -> exists e', table !! Z.to_nat m = Some (Some e') /\ key e' <> k) ->
  dup_scan table cap k index (S n) = Ok (inl j).
Proof.
  intros Hcap Hj He Hk. induction n as [|n IH]; intros index Hi Hn Hcells; [lia|]. simpl.
  rewrite (proj2 (Z.ltb_lt index cap)) by lia.
  destruct (Z.eq_dec index j) as [->|Hne].
  - rewrite (py_getitem_of_lookup _ _ _ (proj1 Hi) He). simpl.
    rewrite bool_decide_eq_true_2 by exact Hk. reflexivity.
  - destruct (Hcells index ltac:(lia)) as (e' & He' & Hk').
    rewrite (py_getitem_of_lookup _ _ _ (proj1 Hi) He'). simpl.
    rewrite bool_decide_eq_false_2 by exact Hk'.
    apply IH; [lia|lia|]. intros m Hm. apply Hcells. lia.
Qed.

Lemma put_walk_out_of_range (table : list slot) (k : pykey) (i : Z) (fd : option Z)
    (fuel : nat) (probe : Z) :
  Z.of_nat (length table) <= i -> exists e, fst (put_walk table k i fd fuel probe) = Err e.
Proof.
  intros Hi. destruct fuel as [|fuel]; simpl; [eauto|].
  rewrite py_getitem_ge by exact Hi. simpl. eauto.
Qed.

Lemma lookup_walk_nonneg (table : list slot) (bound : Z) (k : pykey) (fuel : nat) :
  forall i j, 0 <= i -> lookup_walk table bound k i fuel = Ok j -> 0 <= j.
Proof.
  induction fuel as [|fuel IH]; intros i j Hi Hrun; [discriminate|].
  simpl in Hrun. destruct (py_getitem table i) as [[e|]|]; simpl in Hrun; try discriminate.
  - destruct (bool_decide (key e = k)); [injection Hrun as <-; exact Hi|].
    eapply IH; [|exact Hrun]. destruct (i + 1 =? bound); lia.
  - injection Hrun as <-. exact Hi.
Qed.

(** The converse of [lookup_walk_first]: a successful lookup walk ended at
    the first stopping offset. *)
Lemma lookup_walk_Ok_inv (table : list slot) (k : pykey) (fuel : nat) :
  forall (i j : Z),
  0 <= i < Z.of_nat (length table) ->
  lookup_walk table (Z.of_nat (length table)) k i fuel = Ok j ->
  exists d, (d < fuel)%nat /\ j = (i + Z.of_nat d) mod Z.of_nat (length table) /\
    stops table k j = true /\
    forall d', (d' < d)%nat ->
      stops table k ((i + Z.of_nat d') mod Z.of_nat (length table)) = false.
Proof.
  induction fuel as [|fuel IH]; intros i j Hi Hrun; [discriminate|].
  destruct (getitem_pos table i Hi) as (c & Hc & Hget).
  simpl in Hrun. rewrite Hget in Hrun. simpl in Hrun.
  assert (Hi0 : (i + Z.of_nat 0) mod Z.of_nat (length table) = i)
    by (rewrite Z.add_0_r; apply Z.mod_small; lia).
  destruct c as [e|].
  2:{ injection Hrun as <-. exists 0%nat. rewrite Hi0, (stops_cell _ _ _ _ Hc).
      split_and!; auto; lia. }
  destruct (bool_decide (key e = k)) eqn:Hk.
  { injection Hrun as <-. exists 0%nat. rewrite Hi0, (stops_cell _ _ _ _ Hc), Hk.
    split_and!; auto; lia. }
  rewrite wrap_succ_mod in Hrun by lia.
  destruct (IH _ _ ltac:(apply Z.mod_pos_bound; lia) Hrun) as (d & Hd & Hj & Hstop & Hbefore).
  exists (S d). split; [lia|]. split; [rewrite Hj; apply mod_offset_succ; lia|].
  split; [exact Hstop|].
  intros [|d'] Hd'.
  - rewrite Hi0, (stops_cell _ _ _ _ Hc). exact Hk.
  - rewrite <- mod_offset_succ by lia. apply Hbefore. lia.
Qed.
