(* ===== verification/Hashmap.v ===== *)
(** * The class [Hashmap] ([src/hashmap.py], lines 19-152)

    The object state is the record [hashmap], one field per entry of
    [__slots__]: [table] (the array of cells), [numkeys], [cap], [maxload],
    [hashtype], [probe], [collision].  [init] is [__init__].  The reading
    methods are functions of the state: [start_index] (the hash dispatch and
    [% self.cap] that opens every method), [contains] and [get].  The
    mutating methods are programs of the monad [PyM hashmap]: [remove], and
    [put], whose body [put_body] is split as the code is: the duplicate
    branch ([dup_branch], lines 52-62), the insertion walk and placement
    ([put_place], lines 65-82, with the choice of the cell [place_choice]),
    and the resize check ([resize_check]: the resize [rehash] and its loop
    [reinsert], lines 83-94), which calls [put] again on every old cell.  The recursion of
    [put] through [rehash] is a [Fixpoint] on a depth fuel; the public
    entry point [hm_put] gives it [recursion_limit], Python's default limit
    on the depth of recursive calls. *)

From stdpp Require Import base list decidable.
From Stdlib Require Import ZArith Lia QArith_base.
From S2P Require Import Prelude Entry Hashing Probe.

Open Scope Z_scope.
Open Scope py_scope.

(** ** The object *)

Record hashmap := mkHashmap {
  table : list slot;
  numkeys : Z;
  cap : Z;
  maxload : Q;
  hashtype : Z;
  probe : Z;
  collision : Z
}.

Definition set_table (t : list slot) (s : hashmap) : hashmap :=
  mkHashmap t (numkeys s) (cap s) (maxload s) (hashtype s) (probe s) (collision s).
Definition set_numkeys (nk : Z) (s : hashmap) : hashmap :=
  mkHashmap (table s) nk (cap s) (maxload s) (hashtype s) (probe s) (collision s).
Definition set_cap (c : Z) (s : hashmap) : hashmap :=
  mkHashmap (table s) (numkeys s) c (maxload s) (hashtype s) (probe s) (collision s).
Definition set_probe (p : Z) (s : hashmap) : hashmap :=
  mkHashmap (table s) (numkeys s) (cap s) (maxload s) (hashtype s) p (collision s).
Definition set_collision (c : Z) (s : hashmap) : hashmap :=
  mkHashmap (table s) (numkeys s) (cap s) (maxload s) (hashtype s) (probe s) c.

(** [__init__(self, inittype, initsz=100, maxload=0.7)] (lines 22-34). *)
Definition init (inittype initsz : Z) (ml : Q) : hashmap :=
  {| cap := initsz;
     table := repeat None (Z.to_nat initsz);
     numkeys := 0;
     maxload := ml;
     hashtype := inittype;
     probe := 0;
     collision := 0 |}.

Definition init_default (inittype : Z) : hashmap := init inittype 100 (7 # 10).

(** The depth of recursion Python allows by default ([sys.getrecursionlimit()]). *)
Definition recursion_limit : nat := 1000.

Section Methods.
Context `{PyHash}.

(** [index = self.hash_funcX(key) % self.cap], as every method starts. *)
Definition start_index (s : hashmap) (k : pykey) : result Z :=
  let? h := hash_of (hashtype s) k in
  py_mod h (cap s).

(** Fuel of the probe loops: one step per cell, and one more. *)
Definition walk_fuel (s : hashmap) : nat := S (length (table s)).

(** [contains] (lines 136-152). *)
Definition contains (s : hashmap) (k : pykey) : result bool :=
  let? index := start_index s k in
  let? index := lookup_walk (table s) (cap s) k index (walk_fuel s) in
  let? c := py_getitem (table s) index in
  Ok (match c with Some _ => true | None => false end).

(** [get] (lines 115-134): the value, or [KeyError]. *)
Definition get (s : hashmap) (k : pykey) : result (option Z) :=
  let? index := start_index s k in
  let? index := lookup_walk (table s) (cap s) k index (walk_fuel s) in
  let? c := py_getitem (table s) index in
  match c with
  | Some e => Ok (value e)
  | None => Err KeyError
  end.

(** [self.table[index] = x]. *)
Definition write_cell (index : Z) (c : slot) : PyM hashmap unit :=
  let* t := mread (fun s => py_setitem (table s) index c) in
  mmodify (set_table t).

(** [remove] (lines 96-113). *)
Definition remove (k : pykey) : PyM hashmap unit :=
  let* index := mread (fun s => start_index s k) in
  let* index := mread (fun s =>
    lookup_walk (table s) (Z.of_nat (length (table s))) k index (walk_fuel s)) in
  let* c := mread (fun s => py_getitem (table s) index) in
  match c with
  | Some _ => write_cell index (Some DELETED)
  | None => mret tt
  end.

(** [self.get(key) + 1]: [None + 1] raises [TypeError]. *)
Definition py_add1 (v : option Z) : result Z :=
  match v with
  | Some x => Ok (x + 1)
  | None => Err TypeError
  end.

(** [self.numkeys / self.cap > self.maxload]. *)
Definition load_exceeds (s : hashmap) : result bool :=
  if cap s =? 0 then Err ZeroDivisionError
  else Ok (negb (Qle_bool (inject_Z (numkeys s) / inject_Z (cap s)) (maxload s))).

(** Run the insertion walk, whose state is the counter [self.probe]. *)
Definition on_probe {A} (m : hashmap -> PyM Z A) : PyM hashmap A :=
  fun s => let (r, p) := m s (probe s) in (r, set_probe p s).

(** [for entry in oldtable: if entry is not None: self.put(entry[0], entry[1])]. *)
Fixpoint reinsert (rec : pykey -> option Z -> PyM hashmap unit)
    (oldtable : list slot) : PyM hashmap unit :=
  match oldtable with
  | [] => mret tt
  | Some e :: rest => rec (key e) (value e) ;; reinsert rec rest
  | None :: rest => reinsert rec rest
  end.

(** The resize (lines 85-94). *)
Definition rehash (rec : pykey -> option Z -> PyM hashmap unit) : PyM hashmap unit :=
  let* oldtable := mread (fun s => Ok (table s)) in
  mmodify (fun s => set_cap (cap s * 2) s) ;;
  mmodify (fun s => set_table (repeat None (Z.to_nat (cap s))) s) ;;
  mmodify (set_numkeys 0) ;;
  reinsert rec oldtable.

(** The choice of the cell (lines 75-80): the first tombstone the walk
    met, unless it stopped at the key; else the stop [index], after
    counting a new key when that cell is empty. *)
Definition place_choice (k : pykey) (index : Z) (firstDeleted : option Z) (c : slot)
    : PyM hashmap Z :=
  let bump := match c with
              | None => mmodify (fun s => set_numkeys (numkeys s + 1) s)
              | Some _ => mret tt
              end in
  match firstDeleted with
  | Some fd =>
      if match c with None => true | Some e => bool_decide (key e <> k) end
      then mret fd
      else bump ;; mret index
  | None => bump ;; mret index
  end.

(** [if self.numkeys / self.cap > self.maxload:] and the resize (lines 83-94). *)
Definition resize_check (rec : pykey -> option Z -> PyM hashmap unit) : PyM hashmap unit :=
  let* exceeds := mread load_exceeds in
  if exceeds then rehash rec else mret tt.

(** Lines 65-94: the insertion walk from [index], the choice of the cell,
    the write, and the resize check. *)
Definition put_place (rec : pykey -> option Z -> PyM hashmap unit)
    (k : pykey) (v : option Z) (index : Z) : PyM hashmap unit :=
  let* (index, firstDeleted) :=
    on_probe (fun s => put_walk (table s) k index None (walk_fuel s)) in
  let* c := mread (fun s => py_getitem (table s) index) in
  let* index := place_choice k index firstDeleted c in
  write_cell index (Some (Entry k v)) ;;
  resize_check rec.

(** The duplicate branch (lines 52-62), entered when the start cell is
    occupied: a key that [contains] finds gets [self.get(key) + 1], written
    at the first cell from [index] on that holds it ([None] tells [put] to
    return); if the scan runs past the end, or the key is absent, the
    insertion follows from the index and with the value it returns. *)
Definition dup_branch (k : pykey) (v : option Z) (index : Z)
    : PyM hashmap (option (Z * option Z)) :=
  mmodify (fun s => set_probe (probe s + 1) s) ;;
  let* present := mread (fun s => contains s k) in
  if present then
    let* old := mread (fun s => get s k) in
    let* v' := mread (fun _ => py_add1 old) in
    let* r := mread (fun s =>
      dup_scan (table s) (cap s) k index (S (Z.to_nat (cap s - index)))) in
    match r with
    | inl i => write_cell i (Some (Entry k (Some v'))) ;; mret None
    | inr i => mret (Some (i, Some v'))
    end
  else
    mmodify (fun s => set_collision (collision s + 1) s) ;;
    mret (Some (index, v)).

(** The body of [put] (lines 37-94); [rec] is the recursive call. *)
Definition put_body (rec : pykey -> option Z -> PyM hashmap unit)
    (k : pykey) (v : option Z) : PyM hashmap unit :=
  let* index := mread (fun s => start_index s k) in
  let* c := mread (fun s => py_getitem (table s) index) in
  let* next :=
    match c with
    | Some _ => dup_branch k v index
    | None => mret (Some (index, v))
    end in
  match next with
  | None => mret tt
  | Some (index, v) => put_place rec k v index
  end.

Fixpoint put (depth : nat) (k : pykey) (v : option Z) : PyM hashmap unit :=
  match depth with
  | O => mthrow OutOfFuel
  | S depth' => put_body (put depth') k v
  end.

(** [m.put(key, value)] as a caller writes it. *)
Definition hm_put (k : pykey) (v : Z) : PyM hashmap unit :=
  put recursion_limit k (Some v).

(** Induction on the depth of [put]: a property that every body preserves
    when its recursive calls preserve it holds at every depth. *)
Lemma put_mpres (P : hashmap -> Prop) :
  (forall rec, (forall k v, mpres P (rec k v)) -> forall k v, mpres P (put_body rec k v)) ->
  forall depth k v, mpres P (put depth k v).
Proof.
  intros Hbody depth. induction depth as [|depth IH]; intros k v; simpl put.
  - apply mpres_throw.
  - apply Hbody. exact IH.
Qed.

End Methods.

(** ** Frame and monotonicity of every run *)

(** Across any run, the counters do not decrease and [maxload] and
    [hashtype] do not change. *)
Definition hm_mono (s s' : hashmap) : Prop :=
  probe s <= probe s' /\ collision s <= collision s' /\
  maxload s' = maxload s /\ hashtype s' = hashtype s.

#[export] Instance hm_mono_preorder : PreOrder hm_mono.
Proof.
  split.
  - intros s. unfold hm_mono. split_and!; reflexivity.
  - intros s1 s2 s3 (? & ? & ? & ?) (? & ? & ? & ?). unfold hm_mono.
    split_and!; congruence || lia.
Qed.

Ltac hm_mono_tac := unfold hm_mono; simpl; split_and!; reflexivity || lia.

Section Frame.
Context `{PyHash}.

Lemma put_walk_probe_mono (t : list slot) (k : pykey) (i : Z) (fd : option Z) (fuel : nat) :
  mrel Z.le (put_walk t k i fd fuel).
Proof.
  revert i fd. induction fuel as [|fuel IH]; intros i fd; simpl put_walk.
  - apply mrel_throw; exact _.
  - mrel_solve lia; apply IH.
Qed.

Lemma on_probe_mono {A} (m : hashmap -> PyM Z A) :
  (forall s, mrel Z.le (m s)) -> mrel hm_mono (on_probe m).
Proof.
  intros Hm s r s'. unfold on_probe. destruct (m s (probe s)) as [r0 p] eqn:E.
  intros [= _ <-]. pose proof (Hm s _ _ _ E). hm_mono_tac.
Qed.

Lemma write_cell_mono (i : Z) (c : slot) : mrel hm_mono (write_cell i c).
Proof. unfold write_cell. mrel_solve hm_mono_tac. Qed.

Lemma reinsert_mono (rec : pykey -> option Z -> PyM hashmap unit) (old : list slot) :
  (forall k v, mrel hm_mono (rec k v)) -> mrel hm_mono (reinsert rec old).
Proof.
  intros Hrec. induction old as [|[e|] old IH]; simpl reinsert; mrel_solve hm_mono_tac;
    auto.
Qed.

Lemma put_mono (depth : nat) (k : pykey) (v : option Z) : mrel hm_mono (put depth k v).
Proof.
  revert k v. induction depth as [|depth IH]; intros k v; simpl put.
  - apply mrel_throw; exact _.
  - unfold put_body, dup_branch, put_place, place_choice, resize_check, rehash.
    mrel_solve hm_mono_tac;
      solve [apply write_cell_mono | apply reinsert_mono; exact IH
            | apply on_probe_mono; intros; apply put_walk_probe_mono].
Qed.

End Frame.

(** ** The table invariant: shape and count *)

(** [self.cap] is the length of [self.table], and positive. *)
Definition shape_ok (s : hashmap) : Prop :=
  cap s = Z.of_nat (length (table s)) /\ 0 < cap s.

(** [self.numkeys] is the number of cells that are not [None]. *)
Definition count_ok (s : hashmap) : Prop :=
  numkeys s = Z.of_nat (occupied (table s)).

Definition table_ok (s : hashmap) : Prop := shape_ok s /\ count_ok s.

Section TableInvariant.
Context `{PyHash}.

Lemma start_index_in_range (s : hashmap) (k : pykey) (i : Z) :
  0 < cap s -> start_index s k = Ok i -> 0 <= i < cap s.
Proof.
  unfold start_index. intros Hc Hs. apply rbind_Ok in Hs as (h & _ & Hm).
  exact (py_mod_bounds _ _ _ Hc Hm).
Qed.

Lemma on_probe_inv {A} (m : hashmap -> PyM Z A) (s : hashmap) (a : A) (s' : hashmap) :
  on_probe m s = (Ok a, s') -> exists p, m s (probe s) = (Ok a, p) /\ s' = set_probe p s.
Proof. unfold on_probe. destruct (m s (probe s)) as [r p]. intros [= -> <-]. eauto. Qed.

Lemma write_cell_inv (i : Z) (c : slot) (s s' : hashmap) (u : unit) :
  write_cell i c s = (Ok u, s') ->
  exists t, py_setitem (table s) i c = Ok t /\ s' = set_table t s.
Proof.
  unfold write_cell. simpl. destruct (py_setitem (table s) i c) as [t|]; [|discriminate].
  intros [= _ <-]. eauto.
Qed.

Lemma write_occupied_ok (i : Z) (e e' : entry) (s s' : hashmap) (u : unit) :
  table_ok s -> 0 <= i -> table s !! Z.to_nat i = Some (Some e) ->
  write_cell i (Some e') s = (Ok u, s') -> table_ok s'.
Proof.
  intros [[Hcap Hpos] Hcnt] Hi Hc Hw. apply write_cell_inv in Hw as (t & Ht & ->).
  apply py_setitem_Ok in Ht as [Hlt ->]; [|exact Hi].
  unfold table_ok, shape_ok, count_ok, set_table in *; simpl.
  rewrite length_insert, occupied_insert_Some, Hc by lia. split; [split|]; lia.
Qed.

Lemma write_empty_ok (i : Z) (e' : entry) (s s' : hashmap) (u : unit) :
  shape_ok s -> numkeys s = Z.of_nat (occupied (table s)) + 1 -> 0 <= i ->
  table s !! Z.to_nat i = Some None ->
  write_cell i (Some e') s = (Ok u, s') -> table_ok s'.
Proof.
  intros [Hcap Hpos] Hcnt Hi Hc Hw. apply write_cell_inv in Hw as (t & Ht & ->).
  apply py_setitem_Ok in Ht as [Hlt ->]; [|exact Hi].
  unfold table_ok, shape_ok, count_ok, set_table in *; simpl.
  rewrite length_insert, occupied_insert_Some, Hc by lia. split; [split|]; lia.
Qed.

Section WithRec.
Variable rec : pykey -> option Z -> PyM hashmap unit.
Hypothesis rec_ok : forall k v, mpres table_ok (rec k v).

Lemma reinsert_ok (old : list slot) : mpres table_ok (reinsert rec old).
Proof.
  induction old as [|[e|] old IH]; simpl reinsert; mpres_solve idtac; auto.
Qed.

Lemma rehash_ok : mpres table_ok (rehash rec).
Proof.
  intros s a s' [[Hc Hp] _] Hrun. unfold rehash in Hrun. simpl in Hrun.
  eapply reinsert_ok; [|exact Hrun].
  unfold table_ok, shape_ok, count_ok, set_numkeys, set_table, set_cap; simpl.
  rewrite repeat_length, occupied_repeat_None. split; [split|]; lia.
Qed.

Lemma place_tail_ok : mpres table_ok (resize_check rec).
Proof. unfold resize_check. mpres_solve idtac; apply rehash_ok. Qed.

(** The write at the cell [j] where the walk stopped, after [numkeys] was
    incremented if that cell was empty (lines 79-82). *)
Lemma write_at_stop_ok (k : pykey) (v : option Z) (j : Z) (c : slot)
    (s s0 s' : hashmap) (a : Z) (u : unit) :
  table_ok s -> 0 <= j -> table s !! Z.to_nat j = Some c ->
  (match c with
   | None => mmodify (fun s => set_numkeys (numkeys s + 1) s)
   | Some _ => mret tt
   end ;; mret j) s = (Ok a, s0) ->
  write_cell a (Some (Entry k v)) s0 = (Ok u, s') -> table_ok s'.
Proof.
  intros Hok Hj Hc Hb Hw. destruct c as [e|]; simpl in Hb; injection Hb as <- <-.
  - exact (write_occupied_ok _ _ _ _ _ _ Hok Hj Hc Hw).
  - destruct Hok as [Hshape Hcnt].
    apply (write_empty_ok j (Entry k v) (set_numkeys (numkeys s + 1) s) s' u); auto.
    unfold count_ok in Hcnt. simpl. lia.
Qed.

(** The choice of the cell (lines 76-80), the write (line 82) and what
    follows it, after an insertion walk that stopped at [j] with
    [firstDeleted = fd]. *)
Lemma place_write_ok (k : pykey) (v : option Z) (j : Z) (fd : option Z) (c : slot)
    (tail : PyM hashmap unit) (s s' : hashmap) (u : unit) :
  mpres table_ok tail ->
  table_ok s -> 0 <= j -> table s !! Z.to_nat j = Some c ->
  (fd = None \/
    exists q, fd = Some q /\ 0 <= q /\ table s !! Z.to_nat q = Some (Some DELETED)) ->
  (let* index := place_choice k j fd c in
   write_cell index (Some (Entry k v)) ;; tail) s = (Ok u, s') ->
  table_ok s'.
Proof.
  intros Htail Hok Hj Hc Hfd Hrun. mstep Hrun. mstep Hrun. revert Hrun. apply Htail.
  unfold place_choice in Hstep.
  destruct fd as [q|]; [|exact (write_at_stop_ok k v j c _ _ _ _ _ Hok Hj Hc Hstep Hstep0)].
  destruct (match c with None => true | Some e => bool_decide (key e <> k) end).
  - apply mret_inv in Hstep as [-> ->].
    destruct Hfd as [Hfd | (q' & [= <-] & Hq & Hdel)]; [discriminate|].
    exact (write_occupied_ok _ _ _ _ _ _ Hok Hq Hdel Hstep0).
  - exact (write_at_stop_ok k v j c _ _ _ _ _ Hok Hj Hc Hstep Hstep0).
Qed.

(** Lines 65-94 from a start index [index >= 0]. *)
Lemma put_place_ok (k : pykey) (v : option Z) (index : Z) :
  0 <= index -> mpres table_ok (put_place rec k v index).
Proof.
  intros Hidx s u s' Hok Hrun. unfold put_place in Hrun.
  mstep Hrun. apply on_probe_inv in Hstep as (p & Hwalk & ->). destruct a as [j fd].
  assert (Hok1 : table_ok (set_probe p s)) by exact Hok.
  destruct Hok as [[Hcap Hpos] _].
  destruct (Z_lt_ge_dec index (cap s)) as [Hin|Hout].
  2:{ destruct (put_walk_out_of_range (table s) k index None (walk_fuel s) (probe s))
        as [e He]; [lia|]. rewrite Hwalk in He. discriminate. }
  rewrite <- (Z.mod_small index (Z.of_nat (length (table s)))), <- (Z.add_0_r index),
    <- (Nat2Z.inj_0) in Hwalk by lia.
  destruct (put_walk_result (table s) k index (walk_fuel s) 0 None (probe s) j fd p
              ltac:(lia) ltac:(intros d' Hd'; lia) I Hwalk)
    as (dj & _ & Hj & _ & _ & Hfd & _ & _).
  assert (Hjb : 0 <= j < cap s) by (rewrite Hj, Hcap; apply Z.mod_pos_bound; lia).
  mstep Hrun. apply mread_inv in Hstep as [Hc ->]. simpl in Hc.
  apply py_getitem_lookup in Hc as [_ Hc]; [|lia].
  refine (place_write_ok k v j fd a _ _ _ _ place_tail_ok Hok1 ltac:(lia) Hc _ Hrun).
  destruct fd as [q|]; [right|left; reflexivity].
  destruct Hfd as (dq & _ & Hq & Hdel). exists q. split; [reflexivity|].
  split; [rewrite Hq; apply Z.mod_pos_bound; lia | exact Hdel].
Qed.

(** The duplicate branch (lines 52-62), entered when the start cell is
    occupied: it either rewrites the duplicate and returns, or hands a start
    index [>= 0] to the insertion. *)
Lemma dup_branch_ok (k : pykey) (v : option Z) (index : Z) (s s1 : hashmap)
    (next : option (Z * option Z)) :
  table_ok s -> 0 <= index -> dup_branch k v index s = (Ok next, s1) ->
  table_ok s1 /\ (forall i v', next = Some (i, v') -> 0 <= i).
Proof.
  intros Hok Hidx Hrun. unfold dup_branch in Hrun.
  mstep Hrun. apply mmodify_inv in Hstep as ->.
  mstep Hrun. apply mread_inv in Hstep as [_ ->].
  destruct a0.
  - mstep Hrun. apply mread_inv in Hstep as [_ ->].
    mstep Hrun. apply mread_inv in Hstep as [_ ->].
    mstep Hrun. apply mread_inv in Hstep as [Hscan ->].
    destruct a2 as [i|i].
    + apply dup_scan_inl in Hscan as [Hi (e & He & _)]; [|exact Hidx].
      mstep Hrun. apply mret_inv in Hrun as [-> ->]. split; [|discriminate].
      exact (write_occupied_ok i e _ (set_probe (probe s + 1) s) _ _ Hok Hi He Hstep).
    + apply dup_scan_inr in Hscan as [_ Hle].
      apply mret_inv in Hrun as [-> ->]. split; [exact Hok|].
      intros i' v' [= <- _]. lia.
  - mstep Hrun. apply mmodify_inv in Hstep as ->.
    apply mret_inv in Hrun as [-> ->]. split; [exact Hok|].
    intros i' v' [= <- _]. exact Hidx.
Qed.

Lemma put_body_ok (k : pykey) (v : option Z) : mpres table_ok (put_body rec k v).
Proof.
  intros s u s' Hok Hrun. unfold put_body in Hrun.
  mstep Hrun. apply mread_inv in Hstep as [Hidx ->].
  pose proof (start_index_in_range s k a (proj2 (proj1 Hok)) Hidx) as Hb.
  mstep Hrun. apply mread_inv in Hstep as [_ ->].
  mstep Hrun.
  assert (Hnext : table_ok s0 /\ forall i v', a1 = Some (i, v') -> 0 <= i).
  { destruct a0 as [e|].
    - exact (dup_branch_ok k v a s s0 a1 Hok ltac:(lia) Hstep).
    - apply mret_inv in Hstep as [-> ->]. split; [exact Hok|].
      intros i v' [= <- _]. lia. }
  destruct Hnext as [Hok0 Hpos].
  destruct a1 as [[i v']|].
  - exact (put_place_ok k v' i (Hpos i v' eq_refl) _ _ _ Hok0 Hrun).
  - apply mret_inv in Hrun as [_ ->]. exact Hok0.
Qed.

End WithRec.
End TableInvariant.

Section PutInvariant.
Context `{PyHash}.

Lemma put_table_mpres (depth : nat) (k : pykey) (v : option Z) :
  mpres table_ok (put depth k v).
Proof. apply put_mpres. intros rec Hrec k' v'. apply put_body_ok; assumption. Qed.

(** C4: [put] preserves the table invariant: after a successful call
    [self.cap] is still [len(self.table)] and positive, and [self.numkeys]
    is the number of cells that are not [None] (resizes included, at every
    depth of recursion). *)
Theorem put_table_ok (depth : nat) (k : pykey) (v : option Z) (s s' : hashmap) (u : unit) :
  table_ok s -> put depth k v s = (Ok u, s') -> table_ok s'.
Proof.
  exact (put_table_mpres depth k v s u s').
Qed.

End PutInvariant.

(** ** The load factor bound *)

(** [self.numkeys / self.cap <= self.maxload]. *)
Definition load_ok (s : hashmap) : Prop :=
  (inject_Z (numkeys s) / inject_Z (cap s) <= maxload s)%Q.

Definition load_inv (s : hashmap) : Prop := (0 <= maxload s)%Q /\ load_ok s.

(** The fields that decide the load factor do not change. *)
Definition load_frame (s s' : hashmap) : Prop :=
  numkeys s' = numkeys s /\ cap s' = cap s /\ maxload s' = maxload s.

#[export] Instance load_frame_preorder : PreOrder load_frame.
Proof.
  split; [intros s; unfold load_frame; auto|].
  intros s1 s2 s3 (? & ? & ?) (? & ? & ?). unfold load_frame. split_and!; congruence.
Qed.

Lemma load_inv_frame (s s' : hashmap) : load_frame s s' -> load_inv s -> load_inv s'.
Proof.
  intros (Hn & Hc & Hm) [H0 Hl]. unfold load_inv, load_ok. rewrite Hn, Hc, Hm. auto.
Qed.

Lemma load_exceeds_false (s : hashmap) :
  load_exceeds s = Ok false -> load_ok s.
Proof.
  unfold load_exceeds, load_ok. destruct (cap s =? 0); [discriminate|].
  intros [= Hle]. apply negb_false_iff, Qle_bool_iff in Hle. exact Hle.
Qed.

Lemma load_ok_empty (s : hashmap) : numkeys s = 0 -> (0 <= maxload s)%Q -> load_ok s.
Proof.
  intros Hn Hm. unfold load_ok, Qle in *. rewrite Hn. simpl in *.
  pose proof (Pos2Z.is_pos (Qden (maxload s))). nia.
Qed.

Ltac frame_tac := unfold load_frame; simpl; split_and!; reflexivity.

Section LoadBound.
Context `{PyHash}.

Lemma write_cell_frame (i : Z) (c : slot) : mrel load_frame (write_cell i c).
Proof. unfold write_cell. mrel_solve frame_tac. Qed.

Lemma mrel_maxload {A} (m : PyM hashmap A) s r s' :
  mrel hm_mono m -> m s = (r, s') -> maxload s' = maxload s.
Proof. intros Hm Hrun. apply (Hm _ _ _ Hrun). Qed.

Section WithRec.
Variable rec : pykey -> option Z -> PyM hashmap unit.
Hypothesis rec_inv : forall k v, mpres load_inv (rec k v).

Lemma reinsert_load (old : list slot) : mpres load_inv (reinsert rec old).
Proof. induction old as [|[e|] old IH]; simpl reinsert; mpres_solve idtac; auto. Qed.

(** The resize check establishes the bound from any state with
    [maxload >= 0]: either the check passes, or the resize starts from
    [numkeys = 0] and every reinsertion keeps the bound. *)
Lemma tail_load (s s' : hashmap) (u : unit) :
  (0 <= maxload s)%Q -> resize_check rec s = (Ok u, s') -> load_inv s'.
Proof.
  intros Hm Hrun. unfold resize_check in Hrun. mstep Hrun. apply mread_inv in Hstep as [Hex ->].
  destruct a.
  - unfold rehash in Hrun. simpl in Hrun.
    refine (reinsert_load _ _ _ _ _ Hrun).
    split; [exact Hm|]. apply load_ok_empty; [reflexivity|exact Hm].
  - apply mret_inv in Hrun as [_ ->]. split; [exact Hm|]. apply load_exceeds_false, Hex.
Qed.

Lemma put_place_load (k : pykey) (v : option Z) (index : Z) (s s' : hashmap) (u : unit) :
  (0 <= maxload s)%Q -> put_place rec k v index s = (Ok u, s') -> load_inv s'.
Proof.
  intros Hm Hrun. unfold put_place in Hrun.
  mstep Hrun. pose proof (mrel_maxload _ _ _ _ (on_probe_mono _ (fun s =>
    put_walk_probe_mono _ _ _ _ _)) Hstep) as E1.
  destruct a as [j fd]. mstep Hrun. apply mread_inv in Hstep0 as [_ ->].
  mstep Hrun.
  assert (E2 : maxload s1 = maxload s0).
  { refine (mrel_maxload _ _ _ _ _ Hstep0). unfold place_choice. mrel_solve hm_mono_tac. }
  mstep Hrun. pose proof (mrel_maxload _ _ _ _ (write_cell_mono _ _) Hstep1) as E3.
  apply (tail_load s2 s' u); [congruence|exact Hrun].
Qed.

Lemma put_body_load (k : pykey) (v : option Z) : mpres load_inv (put_body rec k v).
Proof.
  intros s u s' Hinv Hrun. unfold put_body in Hrun.
  mstep Hrun. apply mread_inv in Hstep as [_ ->].
  mstep Hrun. apply mread_inv in Hstep as [_ ->].
  mstep Hrun.
  assert (Hinv0 : load_inv s0).
  { refine (load_inv_frame _ _ _ Hinv). apply (mrel_apply _ _ _ _ _ Hstep).
    unfold dup_branch. mrel_solve frame_tac; apply write_cell_frame. }
  destruct a1 as [[i v']|].
  - exact (put_place_load k v' i s0 s' u (proj1 Hinv0) Hrun).
  - apply mret_inv in Hrun as [_ ->]. exact Hinv0.
Qed.

End WithRec.
End LoadBound.

Section PutLoad.
Context `{PyHash}.

Lemma put_load_mpres (depth : nat) (k : pykey) (v : option Z) :
  mpres load_inv (put depth k v).
Proof. apply put_mpres. intros rec Hrec k' v'. apply put_body_load; assumption. Qed.

(** C5: when [maxload >= 0] and the load factor of the table is at most
    [maxload] before a call, it is at most [maxload] after every successful
    [put] (line 83 resizes until the check passes; the early return of the
    duplicate branch changes neither [numkeys] nor [cap]). *)
Theorem put_load_bound (depth : nat) (k : pykey) (v : option Z) (s s' : hashmap) (u : unit) :
  (0 <= maxload s)%Q -> load_ok s -> put depth k v s = (Ok u, s') -> load_ok s'.
Proof.
  intros Hm Hl Hrun.
  exact (proj2 (put_load_mpres depth k v s u s' (conj Hm Hl) Hrun)).
Qed.

End PutLoad.

(** ** Counters and [remove] *)

(** The fields that a removal leaves alone. *)
Definition keep_counts (s s' : hashmap) : Prop :=
  numkeys s' = numkeys s /\ cap s' = cap s /\ probe s' = probe s /\
  collision s' = collision s.

#[export] Instance keep_counts_preorder : PreOrder keep_counts.
Proof.
  split; [intros s; unfold keep_counts; auto|].
  intros s1 s2 s3 (? & ? & ? & ?) (? & ? & ? & ?). unfold keep_counts. split_and!; congruence.
Qed.

Ltac keep_tac := unfold keep_counts; simpl; split_and!; reflexivity.

Section Counters.
Context `{PyHash}.

(** C32: [self.probe] and [self.collision] never decrease across a call of
    [put], whether it returns or raises (the updates made before an
    exception stay in the object). *)
Theorem put_counters_monotone (depth : nat) (k : pykey) (v : option Z)
    (s s' : hashmap) (r : result unit) :
  put depth k v s = (r, s') -> probe s <= probe s' /\ collision s <= collision s'.
Proof. intros Hrun. destruct (put_mono depth k v s r s' Hrun) as (? & ? & _). auto. Qed.

(** [remove] preserves the table invariant: it only overwrites an
    occupied cell with [DELETED]. *)
Theorem remove_table_ok (k : pykey) (s s' : hashmap) (u : unit) :
  table_ok s -> remove k s = (Ok u, s') -> table_ok s'.
Proof.
  intros Hok Hrun. unfold remove in Hrun.
  mstep Hrun. apply mread_inv in Hstep as [Hidx ->].
  pose proof (start_index_in_range s k a (proj2 (proj1 Hok)) Hidx) as Hb.
  mstep Hrun. apply mread_inv in Hstep as [Hwalk ->].
  pose proof (lookup_walk_nonneg _ _ _ _ a a0 ltac:(lia) Hwalk) as Hj.
  mstep Hrun. apply mread_inv in Hstep as [Hc ->].
  apply py_getitem_lookup in Hc as [_ Hc]; [|exact Hj].
  destruct a1 as [e|].
  - exact (write_occupied_ok _ e _ _ _ _ Hok Hj Hc Hrun).
  - apply mret_inv in Hrun as [_ ->]. exact Hok.
Qed.

(** [remove] changes neither [numkeys] nor [cap] nor the counters,
    whatever its outcome: a removal does not lower the load factor that
    decides the next resize. *)
Theorem remove_keeps_numkeys (k : pykey) (s s' : hashmap) (r : result unit) :
  remove k s = (r, s') ->
  numkeys s' = numkeys s /\ cap s' = cap s /\ probe s' = probe s /\
  collision s' = collision s.
Proof.
  intros Hrun. apply (mrel_apply keep_counts _ _ _ _ Hrun).
  unfold remove, write_cell. mrel_solve keep_tac.
Qed.

End Counters.

(** ** Tombstones at a resize *)

Section ResizeErrors.
Context `{PyHash}.

(** The loop of the resize raises once it reaches a tombstone, when the
    hash type cannot hash the [_delobj] key, or earlier. *)
Lemma reinsert_tombstone_raises (depth : nat) (old : list slot) :
  Some DELETED ∈ old -> forall s, hashtype s = 1 \/ hashtype s = 2 ->
  exists e s', reinsert (put depth) old s = (Err e, s').
Proof.
  induction old as [|c old IH]; intros Hin s Ht; [inversion Hin|].
  apply elem_of_cons in Hin as [<-|Hin].
  - simpl reinsert. destruct depth as [|d]; simpl; [eauto|].
    unfold put_body. cbn [mbind mread]. unfold start_index, hash_of.
    destruct Ht as [-> | ->]; simpl; eauto.
  - destruct c as [e|]; simpl reinsert; [|exact (IH Hin s Ht)].
    simpl. destruct (put depth (key e) (value e) s) as [[u|e'] s1] eqn:E; [|eauto].
    apply IH; [exact Hin|].
    destruct (put_mono depth (key e) (value e) s _ s1 E) as (_ & _ & _ & ->). exact Ht.
Qed.

(** With hash type 1 or 2, every resize of a table that holds a
    tombstone raises: the loop of line 92 reinserts [DELETED], whose key has
    no [len()] ([TypeError]), unless an earlier reinsertion raised first;
    the resize never completes, so the entries not yet reinserted are lost
    (the spec says tombstones are dropped). *)
Theorem rehash_tombstone_raises (depth : nat) (s : hashmap) :
  (hashtype s = 1 \/ hashtype s = 2) -> Some DELETED ∈ table s ->
  exists e s', rehash (put depth) s = (Err e, s').
Proof.
  intros Ht Hin. unfold rehash. cbn [mbind mread mmodify].
  apply (reinsert_tombstone_raises depth (table s) Hin). exact Ht.
Qed.

End ResizeErrors.

(** ** The three probe loops of [put] disagree

    The duplicate scan (lines 56-60) stops at [self.cap] instead of wrapping,
    and the insertion walk (lines 65-74) skips a cell after each step
    without wrapping the skip.  The theorems hold for every table, every
    hash and every depth. *)

Section IndexErrors.
Context `{PyHash}.

(** [contains] is true when the start cell already holds the key. *)
Lemma contains_start_key (s : hashmap) (k : pykey) (i : Z) (e : entry) :
  start_index s k = Ok i -> 0 <= i -> table s !! Z.to_nat i = Some (Some e) -> key e = k ->
  contains s k = Ok true.
Proof.
  intros Hi Hi0 He Hk. unfold contains. rewrite Hi. simpl.
  unfold walk_fuel. cbn [lookup_walk].
  rewrite (py_getitem_of_lookup _ _ _ Hi0 He). simpl. rewrite bool_decide_eq_true_2 by exact Hk.
  simpl. rewrite (py_getitem_of_lookup _ _ _ Hi0 He). reflexivity.
Qed.

Lemma get_contains (s : hashmap) (k : pykey) (x : option Z) :
  get s k = Ok x -> contains s k = Ok true.
Proof.
  unfold get, contains. intros Hg.
  destruct (start_index s k) as [i|]; cbn [rbind] in *; [|congruence].
  destruct (lookup_walk _ _ _ _ _) as [j|]; cbn [rbind] in *; [|congruence].
  destruct (py_getitem _ _) as [[c|]|]; cbn [rbind] in *; congruence.
Qed.

(** An occupied start cell sends [put] into the duplicate branch. *)
Lemma put_body_occupied (rec : pykey -> option Z -> PyM hashmap unit) (k : pykey) (v : option Z)
    (s : hashmap) (i : Z) (e : entry) :
  start_index s k = Ok i -> 0 <= i -> table s !! Z.to_nat i = Some (Some e) ->
  put_body rec k v s =
    (let* next := dup_branch k v i in
     match next with None => mret tt | Some (index, v) => put_place rec k v index end) s.
Proof.
  intros Hi Hi0 He. unfold put_body. cbn [mbind mread]. rewrite Hi.
  rewrite (py_getitem_of_lookup _ _ _ Hi0 He). reflexivity.
Qed.

(** C20: the skip of the insertion loop (lines 72-74) runs past the end of
    the array: when a key that [contains] does not find starts at the cell
    before the last, and the last two cells are occupied, [put] raises
    [IndexError] on [self.table[self.cap]]. *)
Theorem put_skip_index_error (depth : nat) (k : pykey) (v : option Z) (s : hashmap) (e1 e2 : entry) :
  shape_ok s -> start_index s k = Ok (cap s - 2) -> contains s k = Ok false ->
  table s !! Z.to_nat (cap s - 2) = Some (Some e1) ->
  table s !! Z.to_nat (cap s - 1) = Some (Some e2) ->
  fst (put (S depth) k v s) = Err IndexError.
Proof.
  intros [Hlen Hpos] Hi Hc H1 H2.
  pose proof (start_index_in_range s k _ Hpos Hi) as Hr.
  assert (Hk : key e1 <> k).
  { intros Hk. rewrite (contains_start_key s k _ e1 Hi ltac:(lia) H1 Hk) in Hc. discriminate. }
  simpl put. rewrite (put_body_occupied _ k v s _ e1 Hi ltac:(lia) H1).
  unfold dup_branch. cbn [mbind mmodify mread].
  change (contains (set_probe (probe s + 1) s) k) with (contains s k). rewrite Hc.
  cbn [mbind mmodify mret]. unfold put_place, on_probe. cbn [mbind table].
  set (s2 := set_collision _ _).
  pose proof (put_walk_skip_past_end (table s) k None (walk_fuel s2) (probe s2) e1 e2
                ltac:(lia) ltac:(unfold walk_fuel; simpl; lia)
                ltac:(rewrite <- H1; f_equal; lia) Hk
                ltac:(rewrite <- H2; f_equal; lia)) as Hw.
  rewrite <- Hlen in Hw.
  change (table s2) with (table s).
  destruct (put_walk (table s) k (cap s - 2) None (walk_fuel s2) (probe s2)) as [r p].
  simpl in Hw. subst r. reflexivity.
Qed.

(** C23: the duplicate scan (lines 56-60) does not wrap: when [get] finds a
    key but every cell from its start index to the end of the array holds
    another key (the key sits behind the wrap-around of its chain), [put]
    raises [IndexError]: the scan ends with [index = self.cap] and the
    insertion walk reads [self.table[self.cap]]. *)
Theorem put_dup_wrap_index_error (depth : nat) (k : pykey) (v : option Z) (s : hashmap)
    (i x : Z) :
  shape_ok s -> start_index s k = Ok i -> get s k = Ok (Some x) ->
  (forall j, i <= j < cap s -> exists e, table s !! Z.to_nat j = Some (Some e) /\ key e <> k) ->
  fst (put (S depth) k v s) = Err IndexError.
Proof.
  intros [Hlen Hpos] Hi Hg Hcells.
  pose proof (start_index_in_range s k _ Hpos Hi) as Hr.
  destruct (Hcells i ltac:(lia)) as (e & He & _).
  simpl put. rewrite (put_body_occupied _ k v s _ e Hi ltac:(lia) He).
  unfold dup_branch. cbn [mbind mmodify mread].
  change (contains (set_probe (probe s + 1) s) k) with (contains s k).
  rewrite (get_contains s k _ Hg). cbn [mbind mread].
  change (get (set_probe (probe s + 1) s) k) with (get s k). rewrite Hg. simpl py_add1.
  cbn [mbind mread].
  change (table (set_probe (probe s + 1) s)) with (table s).
  change (cap (set_probe (probe s + 1) s)) with (cap s).
  rewrite (dup_scan_past_end (table s) (cap s) k _ ltac:(lia) i ltac:(lia) eq_refl Hcells).
  cbn [mbind mret]. unfold put_place, on_probe. cbn [mbind].
  destruct (walk_fuel _) as [|f] eqn:Ef; [discriminate|].
  cbn [put_walk mbind mread]. rewrite py_getitem_ge; [reflexivity|cbn [table set_probe]; lia].
Qed.

(** C22: [put] of a key that is present and that the duplicate scan meets
    at cell [j] before the end of the array ignores the given value: it
    writes the old value plus one (line 59) at [j], counts one probe and no
    collision, changes nothing else, and returns. *)
Theorem put_duplicate_increments (depth : nat) (k : pykey) (v : option Z) (s : hashmap)
    (i j x : Z) (w : option Z) :
  shape_ok s -> start_index s k = Ok i -> get s k = Ok (Some x) -> i <= j < cap s ->
  table s !! Z.to_nat j = Some (Some (Entry k w)) ->
  (forall m, i <= m < j -> exists e, table s !! Z.to_nat m = Some (Some e) /\ key e <> k) ->
  put (S depth) k v s =
    (Ok tt, set_table (<[Z.to_nat j := Some (Entry k (Some (x + 1)))]> (table s))
              (set_probe (probe s + 1) s)).
Proof.
  intros [Hlen Hpos] Hi Hg Hj Hcell Hcells.
  pose proof (start_index_in_range s k _ Hpos Hi) as Hr.
  assert (Hs : exists e, table s !! Z.to_nat i = Some (Some e)).
  { destruct (Z.eq_dec i j) as [->|Hne]; [eauto|].
    destruct (Hcells i ltac:(lia)) as (e & He & _). eauto. }
  destruct Hs as [e He].
  simpl put. rewrite (put_body_occupied _ k v s _ e Hi ltac:(lia) He).
  unfold dup_branch. cbn [mbind mmodify mread].
  change (contains (set_probe (probe s + 1) s) k) with (contains s k).
  rewrite (get_contains s k _ Hg). cbn [mbind mread].
  change (get (set_probe (probe s + 1) s) k) with (get s k). rewrite Hg. simpl py_add1.
  cbn [mbind mread].
  change (table (set_probe (probe s + 1) s)) with (table s).
  change (cap (set_probe (probe s + 1) s)) with (cap s).
  rewrite (dup_scan_finds (table s) (cap s) k j _ _ ltac:(lia) (proj2 Hj) Hcell eq_refl
             i ltac:(lia) eq_refl Hcells).
  unfold write_cell. cbn [mbind mread mmodify mret].
  change (table (set_probe (probe s + 1) s)) with (table s).
  rewrite py_setitem_in_range by lia. reflexivity.
Qed.

End IndexErrors.

(** ** Concrete runs: the scenarios of the spec and the failures of the code *)

Definition ks (w : String.string) : pykey := KStr (str w).
Arguments ks w%_string_scope.

Section Runs.
Context `{PyHash}.

(** The scenario of the spec: with hash type 1, capacity 4 and
    [maxload = 0.7], inserting "a", "b", "c" with value 1 succeeds, the
    third insertion (3/4 > 0.7) doubles the capacity to 8, and [get]
    returns 1 for each key.  It holds for every Python [hash]. *)
Theorem scenario_resize :
  let (r, s) := (hm_put (ks "a") 1 ;; hm_put (ks "b") 1 ;; hm_put (ks "c") 1)
                   (init 1 4 (7 # 10)) in
  r = Ok tt /\ cap s = 8 /\ numkeys s = 3 /\
  get s (ks "a") = Ok (Some 1) /\ get s (ks "b") = Ok (Some 1) /\
  get s (ks "c") = Ok (Some 1).
Proof. vm_compute. repeat split. Qed.

(** The second scenario of the spec: after [put("x", 5)],
    [remove("x")], [put("y", 9)] on a default table of hash type 1, [get]
    returns 9 for "y" and [contains] is false for "x". *)
Theorem scenario_tombstone :
  let (r, s) := (hm_put (ks "x") 5 ;; remove (ks "x") ;; hm_put (ks "y") 9)
                   (init_default 1) in
  r = Ok tt /\ get s (ks "y") = Ok (Some 9) /\ contains s (ks "x") = Ok false.
Proof. vm_compute. repeat split. Qed.

(** A resize reinserts tombstones ([entry is not None] holds for
    [DELETED], line 93), and [hash_func1] of the [_delobj] key raises
    [TypeError]; the old array is already discarded, so the live entries
    "b" and "c" are lost: the table is left empty with capacity 8. *)
Theorem rehash_tombstone_type_error :
  let (r, s) := (hm_put (ks "a") 1 ;; remove (ks "a") ;;
                 hm_put (ks "b") 1 ;; hm_put (ks "c") 1) (init 1 4 (7 # 10)) in
  r = Err TypeError /\ cap s = 8 /\ table s = repeat None 8 /\
  contains s (ks "b") = Ok false.
Proof. vm_compute. repeat split. Qed.

(** The collision count of the order-independent digest (hash type 2)
    is not always at least that of the polynomial digest (hash type 1) on a
    key set with anagrams: on "ab", "ba", "aa", "hd", "he" inserted with
    value 1 into default tables, type 1 counts 2 collisions and type 2
    counts 1. *)
Theorem collision_differential_fails :
  let words := [ks "ab"; ks "ba"; ks "aa"; ks "hd"; ks "he"] in
  let run t := foldr (fun w m => hm_put w 1 ;; m) (mret tt) words (init_default t) in
  fst (run 1) = Ok tt /\ fst (run 2) = Ok tt /\
  collision (snd (run 1)) = 2 /\ collision (snd (run 2)) = 1.
Proof. vm_compute. repeat split. Qed.

End Runs.

(** ** Witnesses of the theorems with hypotheses *)

Section Witnesses.
#[local] Existing Instance demo_hash.

Lemma put_table_ok_witness :
  table_ok (snd (put 3 (ks "a") (Some 1) (init 1 4 (7 # 10)))).
Proof.
  apply (put_table_ok 3 (ks "a") (Some 1) (init 1 4 (7 # 10)) _ tt).
  - split; [split|]; vm_compute; reflexivity.
  - vm_compute. reflexivity.
Defined.

Lemma put_load_bound_witness :
  load_ok (snd (put 3 (ks "c") (Some 1)
                  (snd ((hm_put (ks "a") 1 ;; hm_put (ks "b") 1) (init 1 4 (7 # 10)))))).
Proof.
  apply (put_load_bound 3 (ks "c") (Some 1)
           (snd ((hm_put (ks "a") 1 ;; hm_put (ks "b") 1) (init 1 4 (7 # 10)))) _ tt).
  - vm_compute. discriminate.
  - vm_compute. discriminate.
  - vm_compute. reflexivity.
Defined.

(** The table of capacity 4 holding "b" (cell 2) and "c" (cell 3). *)
Definition table_bc : hashmap :=
  snd ((hm_put (ks "b") 1 ;; hm_put (ks "c") 1) (init 1 4 (9 # 10))).

Lemma put_counters_monotone_witness :
  probe table_bc <= probe (snd (put 3 (ks "f") (Some 1) table_bc)) /\
  collision table_bc <= collision (snd (put 3 (ks "f") (Some 1) table_bc)).
Proof.
  apply (put_counters_monotone 3 (ks "f") (Some 1) table_bc _
           (fst (put 3 (ks "f") (Some 1) table_bc))).
  vm_compute. reflexivity.
Defined.

(** The table of capacity 4 holding "c" (cell 3) and "g" (home 3,
    wrapped to cell 0). *)
Definition table_cg : hashmap :=
  snd ((hm_put (ks "c") 1 ;; hm_put (ks "g") 1) (init 1 4 (9 # 10))).

Lemma put_skip_index_error_witness : fst (hm_put (ks "f") 1 table_bc) = Err IndexError.
Proof.
  apply (put_skip_index_error 999 (ks "f") (Some 1) table_bc
           (Entry (ks "b") (Some 1)) (Entry (ks "c") (Some 1)));
    [split| | | |]; vm_compute; reflexivity.
Defined.

Lemma put_dup_wrap_index_error_witness : fst (hm_put (ks "g") 1 table_cg) = Err IndexError.
Proof.
  apply (put_dup_wrap_index_error 999 (ks "g") (Some 1) table_cg 3 1);
    [split; vm_compute; reflexivity | vm_compute; reflexivity | vm_compute; reflexivity |].
  intros j Hj. assert (Hc : cap table_cg = 4) by (vm_compute; reflexivity). replace j with 3 by lia. exists (Entry (ks "c") (Some 1)).
  split; [vm_compute; reflexivity | intros E; vm_compute in E; congruence].
Defined.

(** "a" put with value 5 into a default table sits at its start cell 97. *)
Definition table_a : hashmap := snd (hm_put (ks "a") 5 (init_default 1)).

Lemma put_duplicate_increments_witness :
  hm_put (ks "a") 9 table_a =
    (Ok tt, set_table (<[Z.to_nat 97 := Some (Entry (ks "a") (Some (5 + 1)))]> (table table_a))
              (set_probe (probe table_a + 1) table_a)).
Proof.
  apply (put_duplicate_increments 999 (ks "a") (Some 9) table_a 97 97 5 (Some 5));
    [split; vm_compute; reflexivity | vm_compute; reflexivity | vm_compute; reflexivity
    | assert (Hc : cap table_a = 100) by (vm_compute; reflexivity); lia | vm_compute; reflexivity | intros m Hm; lia].
Defined.

Lemma remove_table_ok_witness :
  table_ok (snd (remove (ks "b") table_bc)).
Proof.
  apply (remove_table_ok (ks "b") table_bc _ tt).
  - split; [split|]; vm_compute; reflexivity.
  - vm_compute. reflexivity.
Defined.

Lemma remove_keeps_numkeys_witness :
  numkeys (snd (remove (ks "b") table_bc)) = numkeys table_bc /\
  cap (snd (remove (ks "b") table_bc)) = cap table_bc /\
  probe (snd (remove (ks "b") table_bc)) = probe table_bc /\
  collision (snd (remove (ks "b") table_bc)) = collision table_bc.
Proof.
  apply (remove_keeps_numkeys (ks "b") table_bc _ (fst (remove (ks "b") table_bc))).
  vm_compute. reflexivity.
Defined.

End Witnesses.
