(* ===== verification/Invariant.v ===== *)
(** * The probe-chain invariant of the table

    Open addressing with linear probing is correct only if every key can be
    found from its home cell ([hash % cap]) by walking forward over occupied
    cells, and if no key is stored twice.  [chain_in] and [unique_in] state
    these two facts of a list of cells; [wf] adds them to [table_ok].  This
    file proves that [put] (resizes included), [remove] and [__init__]
    keep [wf], so that every state a program reaches by successful calls
    satisfies it, and that under [wf] a lookup walk that stops at an empty
    cell proves the key absent. *)

From stdpp Require Import base list decidable.
From Stdlib Require Import ZArith Lia QArith_base.
From S2P Require Import Prelude Entry Hashing Probe Hashmap.

Open Scope Z_scope.
Open Scope py_scope.

(** ** Chains and uniqueness of a list of cells *)

Section Chains.
Variable home : pystr -> result Z.

(** Every string key stored at [p] sits at some offset [d] from its home
    [h], and the [d] cells from [h] before it are all occupied: the walk
    from [h] reaches [p] without meeting an empty cell. *)
Definition chain_in (t : list slot) : Prop :=
  forall (p : nat) (e : entry) (sk : pystr),
    t !! p = Some (Some e) -> key e = KStr sk ->
    exists h d, home sk = Ok h /\
      Z.of_nat p = (h + Z.of_nat d) mod Z.of_nat (length t) /\
      occupied_run t h d.

(** No string key is stored in two cells. *)
Definition unique_in (t : list slot) : Prop :=
  forall (p q : nat) (e1 e2 : entry) (sk : pystr),
    t !! p = Some (Some e1) -> t !! q = Some (Some e2) ->
    key e1 = KStr sk -> key e2 = KStr sk -> p = q.

(** The key [k] is stored in no cell (tombstone keys are never looked for). *)
Definition key_absent (k : pykey) (t : list slot) : Prop :=
  forall sk, k = KStr sk ->
    forall (p : nat) (e : entry), t !! p = Some (Some e) -> key e <> k.

Lemma occupied_run_le (t : list slot) (h : Z) (d d' : nat) :
  (d' <= d)%nat -> occupied_run t h d -> occupied_run t h d'.
Proof. intros Hle Hrun d'' Hd''. apply Hrun. lia. Qed.

(** Writing a [Some] cell only adds occupied cells. *)
Lemma occupied_run_insert (t : list slot) (i : nat) (e' : entry) (h : Z) (d : nat) :
  occupied_run t h d -> occupied_run (<[i := Some e']> t) h d.
Proof.
  intros Hrun d' Hd'. rewrite length_insert.
  destruct (Hrun d' Hd') as [e He].
  destruct (decide (i = Z.to_nat ((h + Z.of_nat d') mod Z.of_nat (length t)))) as [->|Hne].
  - exists e'. apply list_lookup_insert_eq. eapply lookup_lt_Some. exact He.
  - exists e. rewrite list_lookup_insert_ne by exact Hne. exact He.
Qed.

(** A write keeps the chains when the written key, if it is a string, has a
    chain to the written cell in the table before the write. *)
Lemma chain_write (t : list slot) (i : nat) (e' : entry) :
  chain_in t ->
  (forall sk, key e' = KStr sk -> exists h d, home sk = Ok h /\
     Z.of_nat i = (h + Z.of_nat d) mod Z.of_nat (length t) /\ occupied_run t h d) ->
  chain_in (<[i := Some e']> t).
Proof.
  intros Hch Hnew p e sk Hp Hk. rewrite length_insert.
  apply list_lookup_insert_Some in Hp as [(<- & [= <-] & _) | (_ & Hp)].
  - destruct (Hnew sk Hk) as (h & d & Hh & Hi & Hrun).
    exists h, d. split_and!; auto using occupied_run_insert.
  - destruct (Hch p e sk Hp Hk) as (h & d & Hh & Hi & Hrun).
    exists h, d. split_and!; auto using occupied_run_insert.
Qed.

(** A write keeps keys unique when the written key, if it is a string, is
    stored in no other cell. *)
Lemma unique_write (t : list slot) (i : nat) (e' : entry) :
  unique_in t ->
  (forall sk, key e' = KStr sk -> forall q e, t !! q = Some (Some e) ->
     key e = KStr sk -> q = i) ->
  unique_in (<[i := Some e']> t).
Proof.
  intros Hu Hnew p q e1 e2 sk Hp Hq Hk1 Hk2.
  apply list_lookup_insert_Some in Hp as [(<- & [= <-] & _) | (Hpi & Hp)];
  apply list_lookup_insert_Some in Hq as [(<- & [= <-] & _) | (Hqi & Hq)].
  - reflexivity.
  - symmetry. exact (Hnew sk Hk1 q e2 Hq Hk2).
  - exact (Hnew sk Hk2 p e1 Hp Hk1).
  - exact (Hu p q e1 e2 sk Hp Hq Hk1 Hk2).
Qed.

(** Under the chain invariant, a walk from the home of [sk] that passes only
    cells where it does not stop and then meets an empty cell proves that
    [sk] is stored nowhere: the chain of a stored copy would either pass the
    empty cell or end at a cell where the walk stops. *)
Lemma absent_of_empty (t : list slot) (sk : pystr) (h : Z) (dj : nat) :
  chain_in t -> home sk = Ok h ->
  t !! Z.to_nat ((h + Z.of_nat dj) mod Z.of_nat (length t)) = Some None ->
  (forall d', (d' < dj)%nat ->
     stops t (KStr sk) ((h + Z.of_nat d') mod Z.of_nat (length t)) = false) ->
  key_absent (KStr sk) t.
Proof.
  intros Hch Hh Hj Hbefore sk' [= <-] p e Hp Hk.
  destruct (Hch p e sk Hp Hk) as (h' & d & Hh' & Hpos & Hrun).
  rewrite Hh in Hh'. injection Hh' as <-.
  assert (Hcell : t !! Z.to_nat ((h + Z.of_nat d) mod Z.of_nat (length t)) = Some (Some e))
    by (rewrite <- Hpos, Nat2Z.id; exact Hp).
  destruct (lt_eq_lt_dec d dj) as [[Hlt | ->] | Hgt].
  - specialize (Hbefore d Hlt). unfold stops in Hbefore.
    rewrite Hcell, Hk in Hbefore. rewrite bool_decide_eq_true_2 in Hbefore; done.
  - congruence.
  - destruct (Hrun dj Hgt) as [e' He']. congruence.
Qed.

End Chains.

(** ** The invariant of the object *)

Section StateInvariant.
Context `{PyHash}.

(** The home of a key is the start index of the methods. *)
Definition chain_ok (s : hashmap) : Prop :=
  chain_in (fun sk => start_index s (KStr sk)) (table s).

Definition unique_ok (s : hashmap) : Prop := unique_in (table s).

(** The well-formed objects. *)
Definition wf (s : hashmap) : Prop := table_ok s /\ chain_ok s /\ unique_ok s.

(** [self.table[a] = e'] keeps chains and uniqueness under the conditions of
    [chain_write] and [unique_write]. *)
Lemma write_cu (a : Z) (e' : entry) (s s' : hashmap) (u : unit) :
  chain_ok s -> unique_ok s -> 0 <= a ->
  (forall sk, key e' = KStr sk -> exists h d, start_index s (KStr sk) = Ok h /\
     a = (h + Z.of_nat d) mod Z.of_nat (length (table s)) /\ occupied_run (table s) h d) ->
  (forall sk, key e' = KStr sk -> forall q e, table s !! q = Some (Some e) ->
     key e = KStr sk -> q = Z.to_nat a) ->
  write_cell a (Some e') s = (Ok u, s') -> chain_ok s' /\ unique_ok s'.
Proof.
  intros Hch Hu Ha Hnew Huniq Hw. apply write_cell_inv in Hw as (t & Ht & ->).
  apply py_setitem_Ok in Ht as [_ ->]; [|exact Ha].
  split; [apply chain_write; [exact Hch|] | exact (unique_write _ _ _ Hu Huniq)].
  intros sk Hk. destruct (Hnew sk Hk) as (h & d & Hh & Hpos & Hrun).
  exists h, d. rewrite Z2Nat.id by exact Ha. auto.
Qed.

(** Rewriting the cell [a] that holds [e] with an entry of the same key. *)
Lemma write_same_key_cu (a : Z) (e e' : entry) (s s' : hashmap) (u : unit) :
  chain_ok s -> unique_ok s -> 0 <= a -> table s !! Z.to_nat a = Some (Some e) ->
  key e' = key e -> write_cell a (Some e') s = (Ok u, s') -> chain_ok s' /\ unique_ok s'.
Proof.
  intros Hch Hu Ha Hc Hk. apply write_cu; auto.
  - intros sk Hsk. rewrite Hk in Hsk.
    destruct (Hch _ e sk Hc Hsk) as (h & d & Hh & Hpos & Hrun).
    exists h, d. rewrite Z2Nat.id in Hpos by exact Ha. auto.
  - intros sk Hsk q e2 Hq Hk2. rewrite Hk in Hsk. exact (Hu q _ e2 e sk Hq Hc Hk2 Hsk).
Qed.

(** An empty start cell proves the key absent. *)
Lemma absent_of_start_empty (s : hashmap) (sk : pystr) (h : Z) :
  chain_ok s -> start_index s (KStr sk) = Ok h -> 0 <= h ->
  py_getitem (table s) h = Ok None -> key_absent (KStr sk) (table s).
Proof.
  intros Hch Hh Hpos Hc. apply py_getitem_lookup in Hc as [Hlt Hc]; [|exact Hpos].
  apply (absent_of_empty _ _ sk h 0 Hch Hh); [|intros; lia].
  rewrite Z.add_0_r, Z.mod_small by lia. exact Hc.
Qed.

(** [contains] answering [False] proves the key absent. *)
Lemma absent_of_contains_false (s : hashmap) (sk : pystr) :
  wf s -> contains s (KStr sk) = Ok false -> key_absent (KStr sk) (table s).
Proof.
  intros [[[Hcap Hpos] _] [Hch _]] Hc. unfold contains in Hc.
  apply rbind_Ok in Hc as (h & Hh & Hc).
  pose proof (start_index_in_range s _ h Hpos Hh) as Hb.
  apply rbind_Ok in Hc as (j & Hj & Hc). rewrite Hcap in Hj, Hb.
  destruct (lookup_walk_Ok_inv _ _ _ h j Hb Hj) as (dj & _ & -> & _ & Hbefore).
  apply rbind_Ok in Hc as ([e|] & Hget & Hres); [discriminate|].
  apply py_getitem_lookup in Hget as [_ Hget]; [|apply Z.mod_pos_bound; lia].
  exact (absent_of_empty _ _ sk h dj Hch Hh Hget Hbefore).
Qed.

End StateInvariant.

Lemma lookup_repeat_None {A} (n p : nat) (x : A) : repeat None n !! p <> Some (Some x).
Proof. revert p. induction n as [|n IH]; intros [|p]; simpl; [discriminate.. | apply IH]. Qed.

(** The table [[None for _ in range(n)]] of [__init__] and of the resize. *)
Lemma empty_cu (home : pystr -> result Z) (n : nat) :
  chain_in home (repeat None n) /\ unique_in (repeat None n).
Proof.
  split; [intros p e sk Hp | intros p q e1 e2 sk Hp];
    contradict Hp; apply lookup_repeat_None.
Qed.

(** [start_index] reads [cap] and [hashtype]; [chain_ok] also [table]. *)
Lemma start_index_frame `{PyHash} (s s' : hashmap) (k : pykey) :
  cap s' = cap s -> hashtype s' = hashtype s -> start_index s' k = start_index s k.
Proof. unfold start_index. intros -> ->. reflexivity. Qed.

Lemma chain_ok_frame `{PyHash} (s s' : hashmap) :
  table s' = table s -> cap s' = cap s -> hashtype s' = hashtype s ->
  chain_ok s -> chain_ok s'.
Proof. unfold chain_ok, start_index. intros -> -> ->. exact id. Qed.

(** ** [put] keeps the invariant *)

Section PutWf.
Context `{PyHash}.

(** What [put_place] may assume of its start index: it is out of range
    (the walk then raises), or it is the home of a key the table does not
    hold. *)
Definition place_pre (s : hashmap) (k : pykey) (index : Z) : Prop :=
  cap s <= index \/ (start_index s k = Ok index /\ key_absent k (table s)).

(** The choice of the cell (lines 76-80) writes at the stop [j] or at the
    first tombstone, and changes nothing but [numkeys]. *)
Lemma place_choice_inv (k : pykey) (j : Z) (fd : option Z) (c : slot)
    (s s2 : hashmap) (a : Z) :
  place_choice k j fd c s = (Ok a, s2) ->
  (a = j \/ fd = Some a) /\ table s2 = table s /\ cap s2 = cap s /\
  hashtype s2 = hashtype s.
Proof.
  intros Hrun. unfold place_choice in Hrun.
  destruct fd as [q|];
    [destruct (match c with None => true | Some e => bool_decide (key e <> k) end)|];
    try (apply mret_inv in Hrun as [-> ->]; auto);
    destruct c; simpl in Hrun; injection Hrun as <- <-; auto.
Qed.

Section WithRec.
Variable rec : pykey -> option Z -> PyM hashmap unit.
Hypothesis rec_wf : forall k v, mpres wf (rec k v).

Lemma reinsert_wf (old : list slot) : mpres wf (reinsert rec old).
Proof. induction old as [|[e|] old IH]; simpl reinsert; mpres_solve idtac; auto. Qed.

(** The resize (lines 86-90) doubles [cap], empties the table and resets
    [numkeys] before the loop of reinsertions. *)
Definition rehash_reset (s : hashmap) : hashmap :=
  set_numkeys 0 (set_table (repeat None (Z.to_nat (cap s * 2))) (set_cap (cap s * 2) s)).

Lemma rehash_run (s s' : hashmap) (u : unit) :
  rehash rec s = (Ok u, s') -> reinsert rec (table s) (rehash_reset s) = (Ok u, s').
Proof. exact id. Qed.

(** The empty table of the resize is well formed. *)
Lemma rehash_reset_wf (s : hashmap) : table_ok s -> wf (rehash_reset s).
Proof.
  intros [[Hc Hpos] _].
  unfold wf, table_ok, shape_ok, count_ok, chain_ok, unique_ok, rehash_reset, set_numkeys,
    set_table, set_cap; simpl.
  rewrite repeat_length, occupied_repeat_None.
  refine (conj (conj (conj _ _) _) (empty_cu _ _)); lia.
Qed.

Lemma rehash_wf : mpres wf (rehash rec).
Proof.
  intros s a s' Hwf Hrun. eapply reinsert_wf; [|exact (rehash_run s s' a Hrun)].
  exact (rehash_reset_wf s (proj1 Hwf)).
Qed.

Lemma place_tail_wf :
  mpres wf (resize_check rec).
Proof. unfold resize_check. mpres_solve idtac; apply rehash_wf. Qed.

(** The choice of the cell and the write (lines 76-82), after a walk from
    the home [h] of a key the table does not hold, which stopped at [j] at
    offset [dj] over occupied cells. *)
Lemma place_write_wf (k : pykey) (v : option Z) (h j : Z) (dj : nat) (fd : option Z)
    (c : slot) (s s2 s3 : hashmap) (i : Z) (u : unit) :
  wf s -> start_index s k = Ok h -> key_absent k (table s) -> 0 <= h ->
  j = (h + Z.of_nat dj) mod Z.of_nat (length (table s)) ->
  occupied_run (table s) h dj -> table s !! Z.to_nat j = Some c ->
  first_deleted_ok (table s) h dj fd ->
  place_choice k j fd c s = (Ok i, s2) ->
  write_cell i (Some (Entry k v)) s2 = (Ok u, s3) -> wf s3.
Proof.
  intros (Hok & Hch & Hu) Hh Habs Hh0 Hj Hrunj Hc Hfd Hchoice Hwrite.
  assert (Hn : 0 < Z.of_nat (length (table s))) by (destruct Hok as [[<- ?] _]; exact H0).
  assert (Hfd' : fd = None \/ exists q, fd = Some q /\ 0 <= q /\
                   table s !! Z.to_nat q = Some (Some DELETED)).
  { destruct fd as [q|]; [right|left; reflexivity].
    destruct Hfd as (dq & _ & Hq & Hdel). exists q. split_and!; auto.
    rewrite Hq. apply Z.mod_pos_bound. exact Hn. }
  split.
  { refine (place_write_ok k v j fd c (mret tt) s s3 tt (mpres_ret _ _) Hok _ Hc Hfd' _);
      [rewrite Hj; apply Z.mod_pos_bound; exact Hn|].
    eapply mbind_run; [exact Hchoice|]. eapply mbind_run; [exact Hwrite|]. reflexivity. }
  destruct (place_choice_inv k j fd c s s2 i Hchoice) as (Hi & Ht & Hcap & Hty).
  assert (Hch2 : chain_ok s2) by exact (chain_ok_frame s s2 Ht Hcap Hty Hch).
  assert (Hu2 : unique_ok s2) by (unfold unique_ok; rewrite Ht; exact Hu).
  assert (Hnew : exists d, i = (h + Z.of_nat d) mod Z.of_nat (length (table s)) /\
                           occupied_run (table s) h d).
  { destruct Hi as [-> | ->]; [exists dj; auto|].
    destruct Hfd as (dq & Hlt & Hq & _). exists dq.
    split; [exact Hq | exact (occupied_run_le (table s) h dj dq ltac:(lia) Hrunj)]. }
  destruct Hnew as (d & Hid & Hrun).
  apply (write_cu i (Entry k v) s2 s3 u Hch2 Hu2); [| | |exact Hwrite].
  - rewrite Hid. apply Z.mod_pos_bound. exact Hn.
  - intros sk Hk. simpl in Hk. subst k. exists h, d.
    rewrite (start_index_frame s s2 _ Hcap Hty), Ht. auto.
  - intros sk Hk q e Hq Hke. simpl in Hk. subst k. rewrite Ht in Hq.
    destruct (Habs sk eq_refl q e Hq Hke).
Qed.

(** A successful [put_place] under [place_pre] is the write of the entry
    at a cell that held no string key, in a table the walk left alone, into
    a well-formed object, and then the resize check (lines 65-94). *)
Lemma put_place_write (k : pykey) (v : option Z) (index : Z) (s s' : hashmap) (u : unit) :
  wf s -> place_pre s k index -> put_place rec k v index s = (Ok u, s') ->
  exists i c s2 s3 w,
    start_index s k = Ok index /\ key_absent k (table s) /\ 0 <= i /\
    table s !! Z.to_nat i = Some c /\ (forall e sk, c = Some e -> key e <> KStr sk) /\
    table s2 = table s /\ cap s2 = cap s /\ hashtype s2 = hashtype s /\
    write_cell i (Some (Entry k v)) s2 = (Ok w, s3) /\ wf s3 /\
    resize_check rec s3 = (Ok u, s').
Proof.
  intros Hwf Hpre Hrun. unfold put_place in Hrun.
  apply mbind_inv in Hrun as ([j fd] & s1 & Hwalk & Hrun).
  apply on_probe_inv in Hwalk as (p & Hwalk & ->).
  assert (Hwf1 : wf (set_probe p s)) by exact Hwf.
  destruct Hwf as [[[Hcap Hpos] _] _].
  destruct Hpre as [Hout | [Hh Habs]].
  { destruct (put_walk_out_of_range (table s) k index None (walk_fuel s) (probe s))
      as [e He]; [lia|]. rewrite Hwalk in He. discriminate. }
  pose proof (start_index_in_range s k index Hpos Hh) as Hin.
  rewrite <- (Z.mod_small index (Z.of_nat (length (table s)))), <- (Z.add_0_r index),
    <- (Nat2Z.inj_0) in Hwalk by lia.
  destruct (put_walk_result (table s) k index (walk_fuel s) 0 None (probe s) j fd p
              ltac:(lia) ltac:(intros d' Hd'; lia) I Hwalk)
    as (dj & _ & Hj & Hrunj & Hstop & Hfd & _ & _).
  assert (Hj0 : 0 <= j) by (rewrite Hj; apply Z.mod_pos_bound; lia).
  apply mbind_inv in Hrun as (c & s2 & Hc & Hrun). apply mread_inv in Hc as [Hc ->].
  simpl in Hc. apply py_getitem_lookup in Hc as [_ Hc]; [|exact Hj0].
  apply mbind_inv in Hrun as (i & s3 & Hchoice & Hrun).
  apply mbind_inv in Hrun as (w & s4 & Hwrite & Hrun).
  pose proof (place_write_wf k v index j dj fd c _ _ _ i w
                Hwf1 Hh Habs ltac:(lia) Hj Hrunj Hc Hfd Hchoice Hwrite) as Hwf4.
  destruct (place_choice_inv k j fd c _ _ i Hchoice) as (Hi & Ht & Hcp & Hty).
  destruct Hi as [-> | ->].
  - exists j, c, s3, s4, w. split_and!; auto.
    intros e sk -> Hk. unfold stops in Hstop. rewrite Hc in Hstop.
    apply bool_decide_eq_true_1 in Hstop. rewrite Hstop in Hk.
    exact (Habs sk Hk _ e Hc Hstop).
  - destruct Hfd as (dq & _ & Hq & Hdel).
    exists i, (Some DELETED), s3, s4, w. split_and!; auto.
    + rewrite Hq. apply Z.mod_pos_bound. lia.
    + intros e sk [= <-]. discriminate.
Qed.

Lemma put_place_wf (k : pykey) (v : option Z) (index : Z) (s s' : hashmap) (u : unit) :
  wf s -> place_pre s k index -> put_place rec k v index s = (Ok u, s') -> wf s'.
Proof.
  intros Hwf Hpre Hrun.
  destruct (put_place_write k v index s s' u Hwf Hpre Hrun)
    as (i & c & s2 & s3 & w & _ & _ & _ & _ & _ & _ & _ & _ & _ & Hwf3 & Htail).
  exact (place_tail_wf _ _ _ Hwf3 Htail).
Qed.

(** A key that [contains] does not find, or whose home cell is empty, is
    absent; tombstone keys are absent by definition. *)
Lemma absent_of_contains (s : hashmap) (k : pykey) :
  wf s -> contains s k = Ok false -> key_absent k (table s).
Proof.
  intros Hwf Hc. destruct k as [sk|]; [exact (absent_of_contains_false s sk Hwf Hc)|].
  intros sk [=].
Qed.

Lemma absent_of_start (s : hashmap) (k : pykey) (h : Z) :
  chain_ok s -> start_index s k = Ok h -> 0 <= h ->
  py_getitem (table s) h = Ok None -> key_absent k (table s).
Proof.
  intros Hch Hh Hpos Hc. destruct k as [sk|]; [exact (absent_of_start_empty s sk h Hch Hh Hpos Hc)|].
  intros sk [=].
Qed.

(** The duplicate branch (lines 52-62): it rewrites the cell of the key,
    or hands [put_place] an index out of range, or, the key being absent,
    its home. *)
Lemma dup_branch_wf (k : pykey) (v : option Z) (index : Z) (s s1 : hashmap)
    (next : option (Z * option Z)) :
  wf s -> start_index s k = Ok index ->
  dup_branch k v index s = (Ok next, s1) ->
  wf s1 /\ (forall i v', next = Some (i, v') -> place_pre s1 k i).
Proof.
  intros Hwf Hh Hrun.
  pose proof (start_index_in_range s k index (proj2 (proj1 (proj1 Hwf))) Hh) as Hb.
  destruct (dup_branch_ok k v index s s1 next (proj1 Hwf) ltac:(lia) Hrun) as [Hok1 _].
  destruct Hwf as (Hok & Hch & Hu). unfold dup_branch in Hrun.
  mstep Hrun. apply mmodify_inv in Hstep as ->.
  mstep Hrun. apply mread_inv in Hstep as [Hpresent ->].
  destruct a0.
  - mstep Hrun. apply mread_inv in Hstep as [_ ->].
    mstep Hrun. apply mread_inv in Hstep as [_ ->].
    mstep Hrun. apply mread_inv in Hstep as [Hscan ->].
    destruct a2 as [i|i].
    + apply dup_scan_inl in Hscan as [Hi (e & He & Hk)]; [|lia].
      mstep Hrun. apply mret_inv in Hrun as [-> ->]. split; [|discriminate].
      split; [exact Hok1|].
      eapply (write_same_key_cu i e _ (set_probe (probe s + 1) s)); [exact Hch|exact Hu|exact Hi|exact He| |exact Hstep].
      exact (eq_sym Hk).
    + apply dup_scan_inr in Hscan as [Hle _].
      apply mret_inv in Hrun as [-> ->]. split; [exact (conj Hok (conj Hch Hu))|].
      intros i' v' [= <- _]. left. exact Hle.
  - mstep Hrun. apply mmodify_inv in Hstep as ->.
    apply mret_inv in Hrun as [-> ->]. split; [exact (conj Hok (conj Hch Hu))|].
    intros i' v' [= <- _]. right. split; [exact Hh|].
    exact (absent_of_contains _ k (conj Hok (conj Hch Hu)) Hpresent).
Qed.

Lemma put_body_wf (k : pykey) (v : option Z) : mpres wf (put_body rec k v).
Proof.
  intros s u s' Hwf Hrun. unfold put_body in Hrun.
  mstep Hrun. apply mread_inv in Hstep as [Hidx ->].
  pose proof (start_index_in_range s k a (proj2 (proj1 (proj1 Hwf))) Hidx) as Hb.
  mstep Hrun. apply mread_inv in Hstep as [Hc ->].
  mstep Hrun.
  assert (Hnext : wf s0 /\ forall i v', a1 = Some (i, v') -> place_pre s0 k i).
  { destruct a0 as [e|].
    - exact (dup_branch_wf k v a s s0 a1 Hwf Hidx Hstep).
    - apply mret_inv in Hstep as [-> ->]. split; [exact Hwf|].
      intros i v' [= <- _]. right. split; [exact Hidx|].
      exact (absent_of_start s k a (proj1 (proj2 Hwf)) Hidx ltac:(lia) Hc). }
  destruct Hnext as [Hwf0 Hpre].
  destruct a1 as [[i v']|].
  - exact (put_place_wf k v' i _ _ _ Hwf0 (Hpre i v' eq_refl) Hrun).
  - apply mret_inv in Hrun as [_ ->]. exact Hwf0.
Qed.

End WithRec.

End PutWf.

(** ** [remove], [__init__] and the reachable states *)

Section Reach.
Context `{PyHash}.

(** [__init__] with a positive size builds a well-formed object. *)
Lemma init_wf (inittype initsz : Z) (ml : Q) : 0 < initsz -> wf (init inittype initsz ml).
Proof.
  intros Hsz. unfold wf, table_ok, shape_ok, count_ok, chain_ok, unique_ok, init; simpl.
  rewrite repeat_length, occupied_repeat_None.
  refine (conj (conj (conj _ _) _) (empty_cu _ _)); lia.
Qed.

Lemma remove_frame (k : pykey) : mrel load_frame (remove k).
Proof. unfold remove, write_cell. mrel_solve frame_tac. Qed.

Lemma remove_mpres_wf (k : pykey) : mpres wf (remove k).
Proof.
  intros s u s' (Hok & Hch & Hu) Hrun. unfold remove in Hrun.
  mstep Hrun. apply mread_inv in Hstep as [Hidx ->].
  pose proof (start_index_in_range s k a (proj2 (proj1 Hok)) Hidx) as Hb.
  mstep Hrun. apply mread_inv in Hstep as [Hwalk ->].
  pose proof (lookup_walk_nonneg _ _ _ _ a a0 ltac:(lia) Hwalk) as Hj.
  mstep Hrun. apply mread_inv in Hstep as [Hc ->].
  apply py_getitem_lookup in Hc as [_ Hc]; [|exact Hj].
  destruct a1 as [e|].
  - split; [exact (write_occupied_ok _ e _ _ _ _ Hok Hj Hc Hrun)|].
    exact (write_cu a0 DELETED s s' u Hch Hu Hj (fun sk Hk => ltac:(discriminate Hk))
             (fun sk Hk => ltac:(discriminate Hk)) Hrun).
  - apply mret_inv in Hrun as [_ ->]. exact (conj Hok (conj Hch Hu)).
Qed.

(** C9: [remove] keeps the object well formed: it overwrites the cell of
    the key with the tombstone [DELETED], which is occupied, so the probe
    chains of the other keys still reach them. *)
Theorem remove_wf (k : pykey) (s s' : hashmap) (u : unit) :
  wf s -> remove k s = (Ok u, s') -> wf s'.
Proof. exact (remove_mpres_wf k s u s'). Qed.

Lemma put_wf_mpres (depth : nat) (k : pykey) (v : option Z) : mpres wf (put depth k v).
Proof. apply put_mpres. intros rec Hrec k' v'. apply put_body_wf; assumption. Qed.

(** C3: every successful [put], at every depth of recursion and through
    every resize, keeps the object well formed: the table invariant, the
    probe chain of every stored key from its home cell, and no key stored
    twice. *)
Theorem put_wf (depth : nat) (k : pykey) (v : option Z) (s s' : hashmap) (u : unit) :
  wf s -> put depth k v s = (Ok u, s') -> wf s'.
Proof. exact (put_wf_mpres depth k v s u s'). Qed.

(** The objects a program builds by [Hashmap(inittype, initsz, maxload)]
    and then calls of [put] and [remove] that return without raising (the
    other methods do not change the object). *)
Inductive reachable : hashmap -> Prop :=
| reach_init (inittype initsz : Z) (ml : Q) :
    0 < initsz -> (0 <= ml)%Q -> reachable (init inittype initsz ml)
| reach_put (s s' : hashmap) (k : pykey) (v : Z) :
    reachable s -> hm_put k v s = (Ok tt, s') -> reachable s'
| reach_remove (s s' : hashmap) (k : pykey) :
    reachable s -> remove k s = (Ok tt, s') -> reachable s'.

Lemma reachable_inv (s : hashmap) : reachable s -> wf s /\ load_inv s.
Proof.
  induction 1 as [t sz ml Hsz Hml | s s' k v _ [Hwf Hl] Hrun | s s' k _ [Hwf Hl] Hrun].
  - split; [exact (init_wf t sz ml Hsz)|]. split; [exact Hml|].
    apply load_ok_empty; [reflexivity|exact Hml].
  - split; [exact (put_wf_mpres _ _ _ s tt s' Hwf Hrun)|].
    exact (put_load_mpres _ _ _ s tt s' Hl Hrun).
  - split; [exact (remove_mpres_wf k s tt s' Hwf Hrun)|].
    exact (load_inv_frame s s' (mrel_apply _ _ _ _ _ Hrun (remove_frame k)) Hl).
Qed.

(** C6: every reachable object is well formed and its load factor is at
    most [maxload]. *)
Theorem reachable_wf (s : hashmap) : reachable s -> wf s /\ load_inv s.
Proof. exact (reachable_inv s). Qed.

End Reach.

(** ** Witnesses *)

Section Witnesses.
#[local] Existing Instance demo_hash.

(** A run of hash type 1 from a table of two cells: ["ab"] goes to cell 1,
    ["ba"] collides with it and its insertion resizes the table to four
    cells, and ["ab"], which the resize moved, is then removed. *)
Definition run_s0 : hashmap := init 1 2 (7 # 10).
Definition run_s1 : hashmap := snd (hm_put (ks "ab") 1 run_s0).
Definition run_s2 : hashmap := snd (hm_put (ks "ba") 2 run_s1).
Definition run_s3 : hashmap := snd (remove (ks "ab") run_s2).

Lemma run_wf : wf run_s1 /\ wf run_s2 /\ wf run_s3.
Proof.
  assert (H1 : wf run_s1).
  { apply (put_wf_mpres recursion_limit (ks "ab") (Some 1) run_s0 tt run_s1);
      [apply init_wf; lia | vm_compute; reflexivity]. }
  assert (H2 : wf run_s2).
  { apply (put_wf_mpres recursion_limit (ks "ba") (Some 2) run_s1 tt run_s2);
      [exact H1 | vm_compute; reflexivity]. }
  split_and!; [exact H1 | exact H2|].
  apply (remove_mpres_wf (ks "ab") run_s2 tt run_s3); [exact H2 | vm_compute; reflexivity].
Qed.

Lemma put_wf_witness : wf run_s2.
Proof.
  apply (put_wf recursion_limit (ks "ba") (Some 2) run_s1 run_s2 tt);
    [|vm_compute; reflexivity].
  apply (put_wf recursion_limit (ks "ab") (Some 1) run_s0 run_s1 tt);
    [apply init_wf; lia | vm_compute; reflexivity].
Defined.

Lemma remove_wf_witness : wf run_s3.
Proof.
  apply (remove_wf (ks "ab") run_s2 run_s3 tt); [exact (proj1 (proj2 run_wf)) | vm_compute; reflexivity].
Defined.

Lemma reachable_wf_witness : wf run_s3 /\ load_inv run_s3.
Proof.
  apply reachable_wf.
  apply (reach_remove run_s2 run_s3 (ks "ab")); [|vm_compute; reflexivity].
  apply (reach_put run_s1 run_s2 (ks "ba") 2); [|vm_compute; reflexivity].
  apply (reach_put run_s0 run_s1 (ks "ab") 1); [|vm_compute; reflexivity].
  apply reach_init; [lia | unfold Qle; simpl; lia].
Defined.

End Witnesses.
