(* ===== verification/ResizeLoss.v ===== *)
(** * What a resize that raises leaves ([src/hashmap.py], lines 85-94)

    The resize first replaces the array by an empty one of twice the size
    (lines 86-90), then reinserts the old cells one by one (lines 92-94).
    An exception in that loop leaves the object with the new array, which
    holds only the cells reinserted so far.  With hash types 1 and 2 the
    loop raises at the first [DELETED] cell ([len()] of its [_delobj]
    key).  So every entry stored after the first tombstone of the old
    array is lost.

    The proof tracks a set [K] of keys, with the relation [keeps P] ([P]
    before the run implies [P] after it).  This relation holds of every
    run, also of the runs that raise.  [put] of a key in [K] keeps "every
    key of the array is in [K]" ([keys_in]) on every run, at every depth. *)

From stdpp Require Import base list decidable.
From Stdlib Require Import ZArith Lia QArith_base.
From S2P Require Import Prelude Entry Hashing Probe Hashmap Invariant.

Open Scope Z_scope.
Open Scope py_scope.

(** [P] before the run implies [P] after it, whatever the run returns. *)
Definition keeps (P : hashmap -> Prop) (s s' : hashmap) : Prop := P s -> P s'.

#[export] Instance keeps_preorder (P : hashmap -> Prop) : PreOrder (keeps P).
Proof.
  unfold keeps. split; [intros s H; exact H | intros s1 s2 s3 H12 H23 H; exact (H23 (H12 H))].
Qed.

Ltac keeps_tac := unfold keeps; intros ?; assumption.

Section KeySet.
Context `{PyHash}.
Variable K : pykey -> Prop.

(** The cell is empty, or its key is in [K]. *)
Definition key_in (c : slot) : Prop :=
  match c with
  | Some e => K (key e)
  | None => True
  end.

(** Every key of the array is in [K]. *)
Definition keys_in (s : hashmap) : Prop := Forall key_in (table s).

Lemma write_cell_keeps (i : Z) (c : slot) : key_in c -> mrel (keeps keys_in) (write_cell i c).
Proof.
  intros Hc s r s'. unfold write_cell. cbn [mbind mread mmodify].
  destruct (py_setitem (table s) i c) as [t|e] eqn:E; intros [= _ <-] Hs; [|exact Hs].
  exact (py_setitem_Forall _ _ _ _ _ Hs Hc E).
Qed.

Lemma on_probe_keeps {A} (m : hashmap -> PyM Z A) : mrel (keeps keys_in) (on_probe m).
Proof. intros s r s'. unfold on_probe. destruct (m s (probe s)). intros [= _ <-] Hs. exact Hs. Qed.

Lemma dup_branch_keeps (k : pykey) (v : option Z) (index : Z) :
  K k -> mrel (keeps keys_in) (dup_branch k v index).
Proof. intros Hk. unfold dup_branch. mrel_solve keeps_tac; apply write_cell_keeps; exact Hk. Qed.

Section WithRec.
Variable rec : pykey -> option Z -> PyM hashmap unit.
Hypothesis rec_keeps : forall k v, K k -> mrel (keeps keys_in) (rec k v).

Lemma reinsert_keeps (old : list slot) :
  Forall key_in old -> mrel (keeps keys_in) (reinsert rec old).
Proof.
  induction old as [|c old IH]; intros Hold; [apply mrel_ret; exact _|].
  inversion Hold as [|? ? Hc Hold']; subst.
  destruct c as [e|]; simpl reinsert; [|exact (IH Hold')].
  apply mrel_bind; try exact _; [exact (rec_keeps _ _ Hc) | intros _; exact (IH Hold')].
Qed.

Lemma rehash_keeps : mrel (keeps keys_in) (rehash rec).
Proof.
  intros s r s' Hrun Hs.
  change (reinsert rec (table s) (rehash_reset s) = (r, s')) in Hrun.
  exact (reinsert_keeps (table s) Hs _ _ _ Hrun (Forall_repeat key_in None _ I)).
Qed.

Lemma resize_check_keeps : mrel (keeps keys_in) (resize_check rec).
Proof. unfold resize_check. mrel_solve keeps_tac. apply rehash_keeps. Qed.

Lemma put_body_keeps (k : pykey) (v : option Z) :
  K k -> mrel (keeps keys_in) (put_body rec k v).
Proof.
  intros Hk. unfold put_body, put_place, place_choice.
  mrel_solve keeps_tac;
    solve [apply dup_branch_keeps, Hk | apply on_probe_keeps | apply write_cell_keeps, Hk
          | apply resize_check_keeps].
Qed.

End WithRec.

(** Every run of [put] of a key in [K], raising or not, at every depth. *)
Lemma put_keeps (depth : nat) : forall k v, K k -> mrel (keeps keys_in) (put depth k v).
Proof.
  induction depth as [|depth IH]; intros k v Hk; simpl put; [apply mrel_throw; exact _|].
  apply put_body_keeps; [exact IH|exact Hk].
Qed.

End KeySet.

Section Loss.
Context `{PyHash}.

(** With hash type 1 or 2, [put] of the [_delobj] key raises before it
    changes anything: its start index needs [len(key)]. *)
Lemma put_tombstone_raises (depth : nat) (s : hashmap) :
  hashtype s = 1 \/ hashtype s = 2 -> exists e, put depth KDel None s = (Err e, s).
Proof.
  intros Ht. destruct depth as [|d]; simpl; [eauto|].
  unfold put_body. cbn [mbind mread]. unfold start_index, hash_of.
  destruct Ht as [-> | ->]; simpl; eauto.
Qed.

(** The keys stored in the cells of [t]. *)
Definition keys_of (t : list slot) (k : pykey) : Prop := exists v, Some (Entry k v) ∈ t.

Lemma keys_of_cells (t : list slot) : Forall (key_in (keys_of t)) t.
Proof.
  apply Forall_lookup. intros i [[k v]|] Hi; simpl; [|exact I].
  exists v. exact (list_elem_of_lookup_2 _ _ _ Hi).
Qed.

(** The loop of the resize over [t1 ++ DELETED :: t2] raises, in a state
    whose keys all come from [t1]. *)
Lemma reinsert_stops_at_tombstone (depth : nat) (K : pykey -> Prop) (t2 : list slot) :
  forall (t1 : list slot) (s s' : hashmap) (r : result unit),
  Forall (key_in K) t1 -> hashtype s = 1 \/ hashtype s = 2 -> keys_in K s ->
  reinsert (put depth) (t1 ++ Some DELETED :: t2) s = (r, s') ->
  r <> Ok tt /\ keys_in K s'.
Proof.
  induction t1 as [|c t1 IH]; intros s s' r Hk Ht Hs Hrun.
  - destruct (put_tombstone_raises depth s Ht) as [e He].
    simpl in Hrun. rewrite He in Hrun. injection Hrun as <- <-. split; [discriminate|exact Hs].
  - inversion Hk as [|? ? Hc Hk']; subst.
    destruct c as [e|]; simpl in Hrun; [|exact (IH _ _ _ Hk' Ht Hs Hrun)].
    destruct (put depth (key e) (value e) s) as [[u|e'] s1] eqn:E; simpl in Hrun.
    + destruct (put_mono depth (key e) (value e) s _ s1 E) as (_ & _ & _ & Hty).
      apply (IH s1 s' r Hk'); [rewrite Hty; exact Ht | | exact Hrun].
      exact (put_keeps K depth (key e) (value e) Hc s _ s1 E Hs).
    + injection Hrun as <- <-. split; [discriminate|].
      exact (put_keeps K depth (key e) (value e) Hc s _ s1 E Hs).
Qed.

Lemma rehash_tombstone_keys (depth : nat) (s s' : hashmap) (r : result unit) (t1 t2 : list slot) :
  (hashtype s = 1 \/ hashtype s = 2) -> table s = t1 ++ Some DELETED :: t2 ->
  rehash (put depth) s = (r, s') -> r <> Ok tt /\ keys_in (keys_of t1) s'.
Proof.
  intros Ht Htab Hrun.
  change (reinsert (put depth) (table s) (rehash_reset s) = (r, s')) in Hrun.
  rewrite Htab in Hrun.
  exact (reinsert_stops_at_tombstone depth (keys_of t1) t2 t1 (rehash_reset s) s' r
           (keys_of_cells t1) Ht
           (Forall_repeat _ None _ I) Hrun).
Qed.

(** C21: with hash type 1 or 2, a resize of a table that stores no key
    twice and whose array is [t1 ++ [DELETED] ++ t2] raises, and no cell of
    the array it leaves holds a key stored in [t2]: every entry after the
    first tombstone of the old array is lost. *)
Theorem rehash_tombstone_loses (depth : nat) (s s' : hashmap) (r : result unit)
    (t1 t2 : list slot) :
  unique_ok s -> (hashtype s = 1 \/ hashtype s = 2) -> table s = t1 ++ Some DELETED :: t2 ->
  rehash (put depth) s = (r, s') ->
  r <> Ok tt /\ forall sk v, Some (Entry (KStr sk) v) ∈ t2 -> key_absent (KStr sk) (table s').
Proof.
  intros Hu Ht Htab Hrun.
  destruct (rehash_tombstone_keys depth s s' r t1 t2 Ht Htab Hrun) as [Hr Hs'].
  split; [exact Hr|]. intros sk v Hin2 sk' [= <-] p [k' v'] Hp Hk. simpl in Hk. subst k'.
  destruct (Forall_lookup_1 _ _ _ _ Hs' Hp) as [v1 Hin1].
  apply list_elem_of_lookup_1 in Hin1 as [p1 Hp1].
  apply list_elem_of_lookup_1 in Hin2 as [p2 Hp2].
  assert (E1 : table s !! p1 = Some (Some (Entry (KStr sk) v1)))
    by (rewrite Htab; apply lookup_app_l_Some, Hp1).
  assert (E2 : table s !! (length t1 + S p2)%nat = Some (Some (Entry (KStr sk) v))).
  { rewrite Htab, lookup_app_r by lia. replace (length t1 + S p2 - length t1)%nat with (S p2) by lia.
    exact Hp2. }
  pose proof (Hu _ _ _ _ sk E1 E2 eq_refl eq_refl). apply lookup_lt_Some in Hp1. lia.
Qed.

End Loss.

(** ** Witnesses *)

Section Witnesses.
#[local] Existing Instance demo_hash.

(** Hash type 1, four cells: "a" (cell 1) and "b" (cell 2) are put, then
    "a" is removed; the array is [None; DELETED; "b"; None]. *)
Definition loss_s1 : hashmap := snd (hm_put (ks "a") 1 (init 1 4 (7 # 10))).
Definition loss_s2 : hashmap := snd (hm_put (ks "b") 1 loss_s1).
Definition loss_s : hashmap := snd (remove (ks "a") loss_s2).

Lemma rehash_tombstone_loses_witness :
  fst (rehash (put recursion_limit) loss_s) <> Ok tt /\
  key_absent (ks "b") (table (snd (rehash (put recursion_limit) loss_s))).
Proof.
  assert (Hreach : reachable loss_s).
  { apply (reach_remove loss_s2 loss_s (ks "a")); [|vm_compute; reflexivity].
    apply (reach_put loss_s1 loss_s2 (ks "b") 1); [|vm_compute; reflexivity].
    apply (reach_put (init 1 4 (7 # 10)) loss_s1 (ks "a") 1); [|vm_compute; reflexivity].
    apply reach_init; [lia|unfold Qle; simpl; lia]. }
  destruct (reachable_inv _ Hreach) as [(_ & _ & Hu) _].
  assert (Ht : hashtype loss_s = 1) by (vm_compute; reflexivity).
  assert (Htab : table loss_s = [None] ++ Some DELETED :: [Some (Entry (ks "b") (Some 1)); None])
    by (vm_compute; reflexivity).
  destruct (rehash_tombstone_loses recursion_limit loss_s _ _ [None]
              [Some (Entry (ks "b") (Some 1)); None] Hu (or_introl Ht) Htab
              (surjective_pairing _)) as [Hr Hl].
  split; [exact Hr|]. apply (Hl (str "b") (Some 1)). constructor.
Defined.

End Witnesses.
