(* ===== verification/Refinement.v ===== *)
(** * The table refines a finite map

    [abs_of] reads the cells of the table as a finite map ([gmap]) from
    string keys to values; tombstones and empty cells are not in it.  The
    abstract operations [abs_get], [abs_contains], [abs_put] and
    [abs_remove] state what the methods do to that map: [get] and
    [contains] look it up, [remove] deletes the key, and [put] sets the key
    to the caller's value when it is absent, and to the stored value plus
    one when it is present (the code's [value = self.get(key) + 1]).  On a
    well-formed object ([Invariant.wf]) with an empty cell, [get],
    [contains] and [remove] compute exactly these results; every [put]
    that returns, resizes included, leaves the table holding [abs_put].
    The laws of section 8 of the spec follow: the round trip of [put] and
    [get] (with the code's increment), idempotent removal, and absence after
    removal; and with [maxload < 1] every reachable object has the empty
    cell these theorems assume. *)

From stdpp Require Import base list decidable countable gmap.
From Stdlib Require Import ZArith Lia QArith_base.
From S2P Require Import Prelude Entry Hashing Probe Hashmap Invariant.

Open Scope Z_scope.
Open Scope py_scope.

(** ** The abstraction function *)

Abbreviation amap := (gmap pystr (option Z)).

(** The string keys of the cells, with their values; the first cell of a
    key wins (under [unique_in] there is only one). *)
Fixpoint abs_of (t : list slot) : amap :=
  match t with
  | [] => ∅
  | Some (Entry (KStr sk) v) :: t' => <[sk := v]> (abs_of t')
  | _ :: t' => abs_of t'
  end.

Definition abs (s : hashmap) : amap := abs_of (table s).

(** ** The abstract operations *)

Definition abs_get (m : amap) (sk : pystr) : result (option Z) :=
  match m !! sk with
  | Some v => Ok v
  | None => Err KeyError
  end.

Definition abs_contains (m : amap) (sk : pystr) : bool := bool_decide (is_Some (m !! sk)).

Definition abs_put (m : amap) (sk : pystr) (v : option Z) : amap :=
  <[sk := match m !! sk with Some (Some x) => Some (x + 1) | _ => v end]> m.

Definition abs_remove (m : amap) (sk : pystr) : amap := delete sk m.

(** ** Lookups in the abstraction *)

Lemma abs_of_cons_str (sk : pystr) (v : option Z) (t : list slot) :
  abs_of (Some (Entry (KStr sk) v) :: t) = <[sk := v]> (abs_of t).
Proof. reflexivity. Qed.

Lemma abs_of_lookup_Some (t : list slot) (sk : pystr) (v : option Z) :
  abs_of t !! sk = Some v -> exists p, t !! p = Some (Some (Entry (KStr sk) v)).
Proof.
  induction t as [|c t IH]; simpl; [rewrite lookup_empty; discriminate|].
  intros Hl. destruct c as [[[sk'|] v']|];
    try (destruct (IH Hl) as [p Hp]; exists (S p); exact Hp).
  destruct (decide (sk' = sk)) as [<-|Hne].
  - rewrite lookup_insert_eq in Hl. injection Hl as <-. exists 0%nat. reflexivity.
  - rewrite lookup_insert_ne in Hl by exact Hne.
    destruct (IH Hl) as [p Hp]. exists (S p). exact Hp.
Qed.

(** A key stored in some cell is in the abstraction. *)
Lemma abs_of_present (t : list slot) (p : nat) (e : entry) (sk : pystr) :
  t !! p = Some (Some e) -> key e = KStr sk -> is_Some (abs_of t !! sk).
Proof.
  revert p. induction t as [|c t IH]; intros p Hp Hk; [discriminate|].
  destruct p as [|p]; simpl in Hp.
  - injection Hp as ->. destruct e as [k v]. simpl in Hk. subst k.
    rewrite abs_of_cons_str, lookup_insert_eq. eauto.
  - destruct c as [[[sk'|] v']|]; simpl; try exact (IH p Hp Hk).
    destruct (decide (sk' = sk)) as [<-|Hne];
      [rewrite lookup_insert_eq; eauto | rewrite lookup_insert_ne by exact Hne; eauto].
Qed.

Lemma unique_in_tail (c : slot) (t : list slot) : unique_in (c :: t) -> unique_in t.
Proof.
  intros Hu p q e1 e2 sk Hp Hq Hk1 Hk2.
  enough (S p = S q) by lia. exact (Hu (S p) (S q) e1 e2 sk Hp Hq Hk1 Hk2).
Qed.

(** Under uniqueness, the abstraction holds the value of the key's cell. *)
Lemma abs_of_cell (t : list slot) (p : nat) (e : entry) (sk : pystr) :
  unique_in t -> t !! p = Some (Some e) -> key e = KStr sk ->
  abs_of t !! sk = Some (value e).
Proof.
  revert p. induction t as [|c t IH]; intros p Hu Hp Hk; [discriminate|].
  destruct p as [|p]; simpl in Hp.
  - injection Hp as ->. destruct e as [k v]. simpl in Hk |- *. subst k.
    apply lookup_insert_eq.
  - pose proof (IH p (unique_in_tail c t Hu) Hp Hk) as IHp.
    destruct c as [[[sk'|] v']|]; simpl; try exact IHp.
    destruct (decide (sk' = sk)) as [<-|Hne]; [|rewrite lookup_insert_ne by exact Hne; exact IHp].
    enough (0%nat = S p) by lia.
    exact (Hu 0%nat (S p) (Entry (KStr sk') v') e sk' eq_refl Hp eq_refl Hk).
Qed.

Lemma abs_of_absent (t : list slot) (sk : pystr) :
  key_absent (KStr sk) t <-> abs_of t !! sk = None.
Proof.
  split.
  - intros Habs. destruct (abs_of t !! sk) as [v|] eqn:E; [|reflexivity].
    destruct (abs_of_lookup_Some t sk v E) as [p Hp].
    destruct (Habs sk eq_refl p _ Hp eq_refl).
  - intros Hn sk' [= <-] p e Hp Hk. destruct (abs_of_present t p e sk Hp Hk) as [v Hv].
    congruence.
Qed.

(** ** Lookups *)

Section Lookups.
Context `{PyHash}.

(** A string key always hashes, so every method finds its start index. *)
Lemma start_index_str (s : hashmap) (sk : pystr) :
  0 < cap s -> exists h, start_index s (KStr sk) = Ok h.
Proof.
  intros Hc. unfold start_index, hash_of, py_mod.
  rewrite (proj2 (Z.eqb_neq (cap s) 0)) by lia.
  destruct (hashtype s =? 1), (hashtype s =? 0); simpl; eauto.
Qed.

(** With [maxload < 1] the load bound leaves an empty cell, which is what
    makes the lookup loops stop. *)
Lemma empty_cell_of_load (s : hashmap) :
  table_ok s -> load_ok s -> (maxload s < 1)%Q -> exists p, table s !! p = Some None.
Proof.
  intros [[Hcap Hpos] Hcnt] Hl Hml. apply occupied_lt_has_None.
  unfold count_ok in Hcnt. apply Nat2Z.inj_lt. rewrite <- Hcnt, <- Hcap.
  apply Z.nle_gt. intros Hge.
  assert (H1 : (1 <= inject_Z (numkeys s) / inject_Z (cap s))%Q).
  { apply Qle_shift_div_l; unfold Qlt, Qle; simpl; lia. }
  apply (Qlt_irrefl 1). eapply Qle_lt_trans; [exact H1|]. eapply Qle_lt_trans; [exact Hl|exact Hml].
Qed.

(** Under [wf], the lookup walk from the home of [sk] in a table with an
    empty cell stops at the cell of [sk], or at an empty cell when [sk] is
    not in the abstraction. *)
Lemma lookup_home (s : hashmap) (sk : pystr) :
  wf s -> (exists p, table s !! p = Some None) ->
  exists h j, start_index s (KStr sk) = Ok h /\
    lookup_walk (table s) (cap s) (KStr sk) h (walk_fuel s) = Ok j /\ 0 <= j /\
    ((exists e, table s !! Z.to_nat j = Some (Some e) /\ key e = KStr sk) \/
     (table s !! Z.to_nat j = Some None /\ abs s !! sk = None)).
Proof.
  intros ([[Hcap Hpos] _] & Hch & _) [p Hp].
  destruct (start_index_str s sk Hpos) as [h Hh].
  pose proof (start_index_in_range s _ h Hpos Hh) as Hb. rewrite Hcap in Hb |- *.
  destruct (empty_cell_offset (table s) (KStr sk) h p Hb Hp) as (d0 & Hd0 & Hstop0).
  destruct (nat_least (fun d => stops (table s) (KStr sk)
              ((h + Z.of_nat d) mod Z.of_nat (length (table s))) = true) d0 Hstop0)
    as (d & Hle & Hstop & Hmin).
  assert (Hbefore : forall d', (d' < d)%nat -> stops (table s) (KStr sk)
            ((h + Z.of_nat d') mod Z.of_nat (length (table s))) = false)
    by (intros d' Hd'; apply not_true_is_false, Hmin, Hd').
  exists h, ((h + Z.of_nat d) mod Z.of_nat (length (table s))).
  split_and!; [exact Hh | apply lookup_walk_first; [exact Hb|unfold walk_fuel; lia|exact Hstop|exact Hbefore]
              | apply Z.mod_pos_bound; lia |].
  unfold stops in Hstop.
  destruct (table s !! Z.to_nat _) as [[e|]|] eqn:Ec; [left|right|discriminate].
  - exists e. split; [reflexivity|]. exact (bool_decide_eq_true_1 _ Hstop).
  - split; [reflexivity|]. apply abs_of_absent.
    exact (absent_of_empty _ _ sk h d Hch Hh Ec Hbefore).
Qed.

End Lookups.

(** ** Writes in the abstraction *)

(** The string key of a cell, if any. *)
Definition cell_key (c : slot) : option pystr :=
  match c with Some (Entry (KStr sk) _) => Some sk | _ => None end.

Definition abs_add_cell (c : slot) (m : amap) : amap :=
  match c with Some (Entry (KStr sk) v) => <[sk := v]> m | _ => m end.

Definition abs_del_cell (c : slot) (m : amap) : amap :=
  match cell_key c with Some sk => delete sk m | None => m end.

Lemma abs_of_cons (c : slot) (t : list slot) : abs_of (c :: t) = abs_add_cell c (abs_of t).
Proof. destruct c as [[[sk|] v]|]; reflexivity. Qed.

Lemma cell_key_Some (c : slot) (sk : pystr) :
  cell_key c = Some sk -> exists e, c = Some e /\ key e = KStr sk.
Proof. destruct c as [[[sk'|] v]|]; simpl; intros [= ->]; eauto. Qed.

(** Under uniqueness the key of the cell [p] occurs in no other cell. *)
Lemma unique_cell_key (t : list slot) (p q : nat) (c d : slot) (sk : pystr) :
  unique_in t -> t !! p = Some c -> t !! q = Some d ->
  cell_key c = Some sk -> cell_key d = Some sk -> p = q.
Proof.
  intros Hu Hp Hq Hc Hd. apply cell_key_Some in Hc as (e1 & -> & Hk1).
  apply cell_key_Some in Hd as (e2 & -> & Hk2). exact (Hu p q e1 e2 sk Hp Hq Hk1 Hk2).
Qed.

(** Adding and removing the keys of cells commute when the keys differ. *)
Lemma abs_cells_commute (c0 c c' : slot) (m : amap) :
  (forall sk, cell_key c0 = Some sk -> cell_key c <> Some sk /\ cell_key c' <> Some sk) ->
  abs_add_cell c0 (abs_add_cell c' (abs_del_cell c m))
  = abs_add_cell c' (abs_del_cell c (abs_add_cell c0 m)).
Proof.
  intros Hne. destruct c0 as [[[sk0|] v0]|]; [|reflexivity..].
  destruct (Hne sk0 eq_refl) as [Hc Hc'].
  unfold abs_del_cell.
  destruct c as [[[sk|] v]|], c' as [[[sk'|] v']|]; simpl in *;
    rewrite ?delete_insert_ne, ?(insert_insert_ne _ sk0) by congruence; reflexivity.
Qed.

(** Overwriting the cell [i], which held [c], with [c']: the key of [c]
    leaves the abstraction and the key of [c'] enters it. *)
Lemma abs_of_insert (t : list slot) (i : nat) (c c' : slot) :
  unique_in t -> unique_in (<[i := c']> t) -> t !! i = Some c ->
  abs_of (<[i := c']> t) = abs_add_cell c' (abs_del_cell c (abs_of t)).
Proof.
  revert i. induction t as [|c0 t IH]; intros i Hu Hu' Hi; [discriminate|].
  destruct i as [|i]; simpl in Hi.
  - change (<[0%nat := c']> (c0 :: t)) with (c' :: t).
    injection Hi as ->. rewrite !abs_of_cons. f_equal.
    unfold abs_del_cell. destruct c as [[[sk|] v]|]; simpl; [|reflexivity..].
    symmetry. apply delete_insert_id, abs_of_absent. intros sk' [= <-] p e Hp Hk.
    enough (0%nat = S p) by lia. exact (Hu 0%nat (S p) _ e sk eq_refl Hp eq_refl Hk).
  - change (<[S i := c']> (c0 :: t)) with (c0 :: <[i := c']> t).
    rewrite !abs_of_cons, (IH i (unique_in_tail _ _ Hu) (unique_in_tail _ _ Hu') Hi).
    apply abs_cells_commute. intros sk Hsk. split; intros Hc.
    + enough (0%nat = S i) by lia. exact (unique_cell_key _ 0 (S i) c0 c sk Hu eq_refl Hi Hsk Hc).
    + enough (0%nat = S i) by lia.
      apply (unique_cell_key _ 0 (S i) c0 c' sk Hu' eq_refl); [|exact Hsk|exact Hc].
      simpl. apply list_lookup_insert_eq. apply lookup_lt_Some in Hi. exact Hi.
Qed.

(** ** [get], [contains] and [remove] refine the abstract operations *)

Section MethodRefinement.
Context `{PyHash}.

Lemma get_abs (s : hashmap) (sk : pystr) :
  wf s -> (exists p, table s !! p = Some None) ->
  get s (KStr sk) = abs_get (abs s) sk.
Proof.
  intros Hwf Hp. destruct (lookup_home s sk Hwf Hp) as (h & j & Hh & Hj & Hj0 & Hcell).
  unfold get, abs_get. rewrite Hh. cbn [rbind]. rewrite Hj. cbn [rbind].
  destruct Hcell as [(e & He & Hk) | [He Habs]];
    rewrite (py_getitem_of_lookup _ _ _ Hj0 He); cbn [rbind]; unfold abs in *.
  - rewrite (abs_of_cell _ _ e sk (proj2 (proj2 Hwf)) He Hk). reflexivity.
  - rewrite Habs. reflexivity.
Qed.

(** C2: on a well-formed object with an empty cell, [get] returns the
    value the abstraction holds for the key, and raises [KeyError] exactly
    when the key is not in it (it never hangs and never raises anything
    else). *)
Theorem get_refines (s : hashmap) (sk : pystr) :
  wf s -> (exists p, table s !! p = Some None) ->
  get s (KStr sk) = abs_get (abs s) sk.
Proof. exact (get_abs s sk). Qed.

Lemma contains_abs (s : hashmap) (sk : pystr) :
  wf s -> (exists p, table s !! p = Some None) ->
  contains s (KStr sk) = Ok (abs_contains (abs s) sk).
Proof.
  intros Hwf Hp. destruct (lookup_home s sk Hwf Hp) as (h & j & Hh & Hj & Hj0 & Hcell).
  unfold contains, abs_contains. rewrite Hh. cbn [rbind]. rewrite Hj. cbn [rbind].
  destruct Hcell as [(e & He & Hk) | [He Habs]];
    rewrite (py_getitem_of_lookup _ _ _ Hj0 He); cbn [rbind]; unfold abs in *.
  - rewrite (abs_of_cell _ _ e sk (proj2 (proj2 Hwf)) He Hk), bool_decide_eq_true_2; eauto.
  - rewrite Habs, bool_decide_eq_false_2; [reflexivity|]. apply is_Some_None.
Qed.

(** C8: on a well-formed object with an empty cell, [contains] answers
    whether the key is in the abstraction. *)
Theorem contains_refines (s : hashmap) (sk : pystr) :
  wf s -> (exists p, table s !! p = Some None) ->
  contains s (KStr sk) = Ok (abs_contains (abs s) sk).
Proof. exact (contains_abs s sk). Qed.

(** What [remove] leaves: the abstraction without the key; the object
    itself unchanged when the key is absent, and otherwise the object with
    the key's cell, and only it, overwritten by [DELETED]. *)
Definition remove_post_spec (s s' : hashmap) (sk : pystr) : Prop :=
  abs s' = abs_remove (abs s) sk /\
  (abs s !! sk = None -> s' = s) /\
  (forall p v, table s !! p = Some (Some (Entry (KStr sk) v)) ->
     s' = set_table (<[p := Some DELETED]> (table s)) s).

Lemma remove_abs (s : hashmap) (sk : pystr) :
  wf s -> (exists p, table s !! p = Some None) ->
  exists s', remove (KStr sk) s = (Ok tt, s') /\ remove_post_spec s s' sk.
Proof.
  intros Hwf Hp. destruct (lookup_home s sk Hwf Hp) as (h & j & Hh & Hj & Hj0 & Hcell).
  destruct Hwf as ([[Hcap Hpos] _] & _ & Hu). rewrite Hcap in Hj.
  unfold remove, abs_remove, remove_post_spec. cbn [mbind mread]. rewrite Hh. cbn [mbind mread].
  rewrite Hj.
  destruct Hcell as [(e & He & Hk) | [He Habs]];
    rewrite (py_getitem_of_lookup _ _ _ Hj0 He).
  - unfold write_cell. cbn [mbind mread].
    rewrite py_setitem_in_range by (apply lookup_lt_Some in He; lia).
    eexists. split; [reflexivity|]. split_and!.
    + unfold abs, set_table; simpl.
      rewrite (abs_of_insert _ _ _ _ Hu (unique_write _ _ DELETED Hu
                 (fun sk' Hk' => ltac:(discriminate Hk'))) He).
      destruct e as [k v]. simpl in Hk. subst k. reflexivity.
    + intros Habs. unfold abs in Habs. rewrite (abs_of_cell _ _ e sk Hu He Hk) in Habs.
      discriminate.
    + intros p v Hp'. rewrite (Hu p (Z.to_nat j) _ e sk Hp' He eq_refl Hk). reflexivity.
  - eexists. split; [reflexivity|]. split_and!.
    + symmetry. apply delete_id. exact Habs.
    + intros _. reflexivity.
    + intros p v Hp'. unfold abs in Habs. rewrite (abs_of_cell _ _ _ sk Hu Hp' eq_refl) in Habs.
      discriminate.
Qed.

(** C7: on a well-formed object with an empty cell, [remove] returns and
    deletes the key from the abstraction; a key that is absent leaves the
    object unchanged (the guard of line 112), and a present key has its
    cell, and nothing else, overwritten by [DELETED] (line 113). *)
Theorem remove_refines (s : hashmap) (sk : pystr) :
  wf s -> (exists p, table s !! p = Some None) ->
  exists s', remove (KStr sk) s = (Ok tt, s') /\
    abs s' = abs_remove (abs s) sk /\
    (abs s !! sk = None -> s' = s) /\
    (forall p v, table s !! p = Some (Some (Entry (KStr sk) v)) ->
       s' = set_table (<[p := Some DELETED]> (table s)) s).
Proof. exact (remove_abs s sk). Qed.

End MethodRefinement.

(** ** [put] refines [abs_put] *)

(** What [put] does to the abstraction; a tombstone key is not in it. *)
Definition put_abs (k : pykey) (v : option Z) (m : amap) : amap :=
  match k with KStr sk => abs_put m sk v | KDel => m end.

Lemma abs_of_repeat_None (n : nat) : abs_of (repeat None n) = ∅.
Proof. induction n as [|n IH]; [reflexivity|exact IH]. Qed.

(** The key of the first cell of a list without duplicates is not in the
    rest. *)
Lemma unique_head_absent (sk : pystr) (v : option Z) (t : list slot) :
  unique_in (Some (Entry (KStr sk) v) :: t) -> abs_of t !! sk = None.
Proof.
  intros Hu. apply abs_of_absent. intros sk' [= <-] p e Hp Hk.
  enough (0%nat = S p) by lia. exact (Hu 0%nat (S p) _ e sk eq_refl Hp eq_refl Hk).
Qed.

Lemma abs_del_cell_nostr (c : slot) (m : amap) :
  (forall e sk, c = Some e -> key e <> KStr sk) -> abs_del_cell c m = m.
Proof. intros Hc. destruct c as [[[sk|] v]|]; [|reflexivity..]. destruct (Hc _ sk eq_refl eq_refl). Qed.

Lemma abs_put_absent (m : amap) (sk : pystr) (v : option Z) :
  m !! sk = None -> abs_put m sk v = <[sk := v]> m.
Proof. unfold abs_put. intros ->. reflexivity. Qed.

Section PutRefinement.
Context `{PyHash}.

(** A successful [get] reads the abstraction. *)
Lemma get_Ok_abs (s : hashmap) (sk : pystr) (old : option Z) :
  wf s -> get s (KStr sk) = Ok old -> abs s !! sk = Some old.
Proof.
  intros ([[Hcap Hpos] _] & _ & Hu) Hg. unfold get in Hg.
  apply rbind_Ok in Hg as (h & Hh & Hg).
  pose proof (start_index_in_range s _ h Hpos Hh) as Hb.
  apply rbind_Ok in Hg as (j & Hj & Hg). rewrite Hcap in Hj, Hb.
  destruct (lookup_walk_Ok_inv _ _ _ h j Hb Hj) as (dj & _ & Hjeq & Hstop & _).
  apply rbind_Ok in Hg as ([e|] & Hget & Hres); [|discriminate].
  injection Hres as <-.
  apply py_getitem_lookup in Hget as [_ Hget]; [|rewrite Hjeq; apply Z.mod_pos_bound; lia].
  unfold stops in Hstop. rewrite Hget in Hstop. apply bool_decide_eq_true_1 in Hstop.
  exact (abs_of_cell _ _ e sk Hu Hget Hstop).
Qed.

Section WithRec.
Variable rec : pykey -> option Z -> PyM hashmap unit.
Hypothesis rec_wf : forall k v, mpres wf (rec k v).
Hypothesis rec_abs : forall k v s u s',
  wf s -> rec k v s = (Ok u, s') -> abs s' = put_abs k v (abs s).

(** The loop of the resize puts the old cells back one by one: their keys
    being distinct and not yet in the table, the table ends up holding
    them all. *)
Lemma reinsert_abs (old : list slot) : forall (s s' : hashmap) (u : unit),
  wf s -> unique_in old -> (forall sk, is_Some (abs_of old !! sk) -> abs s !! sk = None) ->
  reinsert rec old s = (Ok u, s') -> abs s' = abs_of old ∪ abs s.
Proof.
  induction old as [|[[k v]|] old IH]; intros s s' u Hwf Huo Hdisj Hrun; simpl in Hrun.
  - apply mret_inv in Hrun as [_ ->]. symmetry. apply (left_id ∅ (∪)).
  - apply mbind_inv in Hrun as (w & s1 & Hrec & Hrun).
    pose proof (rec_abs _ _ _ _ _ Hwf Hrec) as Habs1.
    pose proof (rec_wf _ _ _ _ _ Hwf Hrec) as Hwf1.
    destruct k as [sk|]; simpl in Habs1.
    + assert (Hn : abs s !! sk = None)
        by (apply Hdisj; rewrite abs_of_cons_str, lookup_insert_eq; eauto).
      pose proof (unique_head_absent sk v old Huo) as Hrest.
      unfold abs_put in Habs1. rewrite Hn in Habs1.
      rewrite (IH s1 s' u Hwf1 (unique_in_tail _ _ Huo)); [| |exact Hrun].
      * rewrite Habs1, abs_of_cons_str, <- insert_union_r by exact Hrest.
        apply insert_union_l.
      * intros sk' Hsk'. rewrite Habs1.
        assert (Hne : sk <> sk') by (intros <-; rewrite Hrest in Hsk'; exact (is_Some_None Hsk')).
        rewrite lookup_insert_ne by exact Hne. apply Hdisj.
        rewrite abs_of_cons_str, lookup_insert_ne by exact Hne. exact Hsk'.
    + rewrite (IH s1 s' u Hwf1 (unique_in_tail _ _ Huo)); [|rewrite Habs1; exact Hdisj|exact Hrun].
      rewrite Habs1. reflexivity.
  - exact (IH s s' u Hwf (unique_in_tail _ _ Huo) Hdisj Hrun).
Qed.

(** The resize moves the contents to the new table unchanged. *)
Lemma rehash_abs (s s' : hashmap) (u : unit) :
  wf s -> rehash rec s = (Ok u, s') -> abs s' = abs s.
Proof.
  intros Hwf Hrun.
  assert (Hempty : abs (rehash_reset s) = ∅)
    by (unfold abs, rehash_reset; simpl; apply abs_of_repeat_None).
  rewrite (reinsert_abs _ _ _ _ (rehash_reset_wf s (proj1 Hwf)) (proj2 (proj2 Hwf))
             (fun sk _ => ltac:(rewrite Hempty; apply lookup_empty))
             (rehash_run rec s s' u Hrun)), Hempty.
  apply (right_id ∅ (∪)).
Qed.

Lemma tail_abs (s s' : hashmap) (u : unit) :
  wf s ->
  resize_check rec s = (Ok u, s') -> abs s' = abs s.
Proof.
  intros Hwf Hrun. unfold resize_check in Hrun. mstep Hrun. apply mread_inv in Hstep as [_ ->].
  destruct a; [exact (rehash_abs _ _ _ Hwf Hrun)|].
  apply mret_inv in Hrun as [_ ->]. reflexivity.
Qed.

(** Lines 65-94 under [place_pre]: the key was absent, so the entry is
    added as it is. *)
Lemma put_place_abs (k : pykey) (v : option Z) (index : Z) (s s' : hashmap) (u : unit) :
  wf s -> place_pre s k index -> put_place rec k v index s = (Ok u, s') ->
  abs s' = put_abs k v (abs s).
Proof.
  intros Hwf Hpre Hrun.
  destruct (put_place_write rec k v index s s' u Hwf Hpre Hrun)
    as (i & c & s2 & s3 & w & _ & Habs & Hi & Hc & Hnostr & Ht & _ & _ & Hwrite & Hwf3 & Htail).
  rewrite (tail_abs _ _ _ Hwf3 Htail).
  apply write_cell_inv in Hwrite as (t & Hset & ->).
  apply py_setitem_Ok in Hset as [_ ->]; [|exact Hi].
  rewrite Ht in Hwf3 |- *. unfold abs, set_table; simpl.
  rewrite (abs_of_insert _ _ c _ (proj2 (proj2 Hwf)) (proj2 (proj2 Hwf3)) Hc),
    (abs_del_cell_nostr c _ Hnostr).
  destruct k as [sk|]; [|reflexivity]. simpl.
  rewrite abs_put_absent; [reflexivity|]. apply abs_of_absent, Habs.
Qed.

(** The insertion after the duplicate branch: either it runs with the
    caller's value, or its start index is out of range and it raises. *)
Lemma place_or_fail_abs (k : pykey) (v v' : option Z) (i : Z) (s s' : hashmap) (u : unit) :
  wf s -> place_pre s k i -> v' = v \/ cap s <= i ->
  put_place rec k v' i s = (Ok u, s') -> abs s' = put_abs k v (abs s).
Proof.
  intros Hwf Hpre [-> | Hout] Hrun; [exact (put_place_abs k v i s s' u Hwf Hpre Hrun)|].
  destruct (put_place_write rec k v' i s s' u Hwf Hpre Hrun) as (_ & _ & _ & _ & _ & Hh & _).
  pose proof (start_index_in_range s k i (proj2 (proj1 (proj1 Hwf))) Hh). lia.
Qed.

End WithRec.

(** The duplicate branch (lines 52-62): a key found by the scan gets the
    old value plus one; otherwise the object is unchanged and [put_place]
    gets the caller's value, or the scan ran past the end. *)
Lemma dup_branch_abs (k : pykey) (v : option Z) (index : Z) (s s1 : hashmap)
    (next : option (Z * option Z)) :
  wf s -> start_index s k = Ok index ->
  dup_branch k v index s = (Ok next, s1) ->
  match next with
  | None => abs s1 = put_abs k v (abs s)
  | Some (i, v') => abs s1 = abs s /\ (v' = v \/ cap s1 <= i)
  end.
Proof.
  intros Hwf Hh Hrun.
  pose proof (start_index_in_range s k index (proj2 (proj1 (proj1 Hwf))) Hh) as Hb.
  destruct (dup_branch_wf k v index s s1 next Hwf Hh Hrun) as [Hwf1 _].
  unfold dup_branch in Hrun.
  mstep Hrun. apply mmodify_inv in Hstep as ->.
  mstep Hrun. apply mread_inv in Hstep as [_ ->].
  destruct a0.
  - mstep Hrun. apply mread_inv in Hstep as [Hget ->].
    mstep Hrun. apply mread_inv in Hstep as [Hadd ->].
    mstep Hrun. apply mread_inv in Hstep as [Hscan ->].
    destruct a2 as [i|i].
    + apply dup_scan_inl in Hscan as [Hi (e & He & Hk)]; [|lia].
      mstep Hrun. apply mret_inv in Hrun as [-> ->].
      apply write_cell_inv in Hstep as (t & Hset & ->).
      apply py_setitem_Ok in Hset as [_ ->]; [|exact Hi].
      unfold abs, set_table; simpl.
      rewrite (abs_of_insert _ _ _ _ (proj2 (proj2 Hwf)) (proj2 (proj2 Hwf1)) He).
      destruct e as [ke ve]. simpl in Hk. subst ke. destruct k as [sk|]; [|reflexivity].
      simpl. unfold abs_put.
      pose proof (get_Ok_abs (set_probe (probe s + 1) s) sk a0 Hwf Hget) as Hold.
      change (abs_of (table s) !! sk = Some a0) in Hold.
      unfold abs_del_cell; simpl. rewrite Hold, insert_delete_eq.
      destruct a0 as [x|]; [injection Hadd as <-; reflexivity | discriminate].
    + apply dup_scan_inr in Hscan as [Hle _].
      apply mret_inv in Hrun as [-> ->]. split; [reflexivity | right; exact Hle].
  - mstep Hrun. apply mmodify_inv in Hstep as ->.
    apply mret_inv in Hrun as [-> ->]. split; [reflexivity | left; reflexivity].
Qed.

Lemma put_body_abs (rec : pykey -> option Z -> PyM hashmap unit)
    (rec_wf : forall k v, mpres wf (rec k v))
    (rec_abs : forall k v s u s', wf s -> rec k v s = (Ok u, s') ->
       abs s' = put_abs k v (abs s))
    (k : pykey) (v : option Z) (s s' : hashmap) (u : unit) :
  wf s -> put_body rec k v s = (Ok u, s') -> abs s' = put_abs k v (abs s).
Proof.
  intros Hwf Hrun. unfold put_body in Hrun.
  mstep Hrun. apply mread_inv in Hstep as [Hidx ->].
  pose proof (start_index_in_range s k a (proj2 (proj1 (proj1 Hwf))) Hidx) as Hb.
  mstep Hrun. apply mread_inv in Hstep as [Hc ->].
  mstep Hrun. destruct a0 as [e|].
  - destruct (dup_branch_wf k v a s s0 a1 Hwf Hidx Hstep) as [Hwf0 Hpre].
    pose proof (dup_branch_abs k v a s s0 a1 Hwf Hidx Hstep) as Habs0.
    destruct a1 as [[i v']|].
    + destruct Habs0 as [Habs0 Hv]. rewrite <- Habs0.
      exact (place_or_fail_abs rec rec_wf rec_abs k v v' i s0 s' u Hwf0
               (Hpre i v' eq_refl) Hv Hrun).
    + apply mret_inv in Hrun as [_ ->]. exact Habs0.
  - apply mret_inv in Hstep as [-> ->].
    refine (put_place_abs rec rec_wf rec_abs k v a s s' u Hwf _ Hrun).
    right. split; [exact Hidx|].
    exact (absent_of_start s k a (proj1 (proj2 Hwf)) Hidx ltac:(lia) Hc).
Qed.

Lemma put_abs_all (depth : nat) : forall k v s u s',
  wf s -> put depth k v s = (Ok u, s') -> abs s' = put_abs k v (abs s).
Proof.
  induction depth as [|depth IH]; intros k v s u s' Hwf Hrun; [discriminate|].
  exact (put_body_abs (put depth) (put_wf_mpres depth) IH k v s s' u Hwf Hrun).
Qed.

(** C1: every [put] of a string key that returns, resizes included, leaves
    the abstraction updated by [abs_put]: the key gets the caller's value
    when it was absent, and its old value plus one when it was present; no
    other key changes. *)
Theorem put_refines (depth : nat) (sk : pystr) (v : option Z) (s s' : hashmap) (u : unit) :
  wf s -> put depth (KStr sk) v s = (Ok u, s') -> abs s' = abs_put (abs s) sk v.
Proof. exact (put_abs_all depth (KStr sk) v s u s'). Qed.

End PutRefinement.

(** ** Reachable objects *)

Section Reachable.
Context `{PyHash}.

(** C11: with [maxload < 1] (the default is 0.7), every reachable object
    has an empty cell, so the lookup loops of [get], [contains] and
    [remove] stop and the refinements above apply to it. *)
Theorem reachable_empty_cell (s : hashmap) :
  reachable s -> (maxload s < 1)%Q -> exists p, table s !! p = Some None.
Proof.
  intros Hr Hml. destruct (reachable_inv s Hr) as [[Hok _] [_ Hl]].
  exact (empty_cell_of_load s Hok Hl Hml).
Qed.

End Reachable.

(** ** The laws of the spec *)

Section Laws.
Context `{PyHash}.

(** [remove] only writes [DELETED] over an occupied cell: empty cells stay
    empty. *)
Lemma remove_keeps_empty (k : pykey) (s s1 : hashmap) (u : unit) (p : nat) :
  table_ok s -> remove k s = (Ok u, s1) -> table s !! p = Some None ->
  table s1 !! p = Some None.
Proof.
  intros Hok Hrun Hp. unfold remove in Hrun.
  mstep Hrun. apply mread_inv in Hstep as [Hidx ->].
  pose proof (start_index_in_range s k a (proj2 (proj1 Hok)) Hidx) as Hb.
  mstep Hrun. apply mread_inv in Hstep as [Hwalk ->].
  pose proof (lookup_walk_nonneg _ _ _ _ a a0 ltac:(lia) Hwalk) as Hj.
  mstep Hrun. apply mread_inv in Hstep as [Hc ->].
  destruct a1 as [e|]; [|apply mret_inv in Hrun as [_ ->]; exact Hp].
  apply py_getitem_lookup in Hc as [_ Hc]; [|exact Hj].
  apply write_cell_inv in Hrun as (t & Ht & ->). apply py_setitem_Ok in Ht as [_ ->]; [|exact Hj].
  unfold set_table; cbn [table]. rewrite list_lookup_insert_ne; [exact Hp|].
  intros Heq. rewrite <- Heq in Hp. congruence.
Qed.

(** [remove] of an absent key changes nothing. *)
Lemma remove_absent (s : hashmap) (sk : pystr) :
  wf s -> (exists p, table s !! p = Some None) -> abs s !! sk = None ->
  remove (KStr sk) s = (Ok tt, s).
Proof.
  intros Hwf Hp Habs. destruct (lookup_home s sk Hwf Hp) as (h & j & Hh & Hj & Hj0 & Hcell).
  destruct Hwf as ([[Hcap Hpos] _] & _ & Hu). rewrite Hcap in Hj.
  destruct Hcell as [(e & He & Hk) | [He _]].
  - unfold abs in Habs. rewrite (abs_of_cell _ _ e sk Hu He Hk) in Habs. discriminate.
  - unfold remove. cbn [mbind mread]. rewrite Hh. cbn [mbind mread]. rewrite Hj.
    rewrite (py_getitem_of_lookup _ _ _ Hj0 He). reflexivity.
Qed.

(** After a removal, the object is well formed, still has an empty cell,
    and the key is not in the abstraction. *)
Lemma remove_post (s s1 : hashmap) (sk : pystr) :
  wf s -> (exists p, table s !! p = Some None) -> remove (KStr sk) s = (Ok tt, s1) ->
  wf s1 /\ (exists p, table s1 !! p = Some None) /\ abs s1 !! sk = None.
Proof.
  intros Hwf [p Hp] Hrun. split_and!.
  - exact (remove_mpres_wf _ s tt s1 Hwf Hrun).
  - exists p. exact (remove_keeps_empty _ s s1 tt p (proj1 Hwf) Hrun Hp).
  - destruct (remove_abs s sk Hwf (ex_intro _ p Hp)) as (s' & Hrun' & Habs & _).
    rewrite Hrun in Hrun'. injection Hrun' as <-. rewrite Habs. apply lookup_delete_eq.
Qed.

(** C10: round trip (spec section 8): on a well-formed object within its
    load bound, with [maxload < 1], a [put(k, v)] that returns is followed
    by a [get(k)] that returns [v] when [k] was absent, and the old value
    plus one when [k] was present (the code's increment, not the upsert of
    the spec). *)
Theorem put_get_roundtrip (depth : nat) (sk : pystr) (v : Z) (s s' : hashmap) (u : unit) :
  wf s -> load_inv s -> (maxload s < 1)%Q ->
  put depth (KStr sk) (Some v) s = (Ok u, s') ->
  get s' (KStr sk) = Ok (Some (match abs s !! sk with Some (Some x) => x + 1 | _ => v end)).
Proof.
  intros Hwf Hl Hml Hrun.
  pose proof (put_wf_mpres _ _ _ s u s' Hwf Hrun) as Hwf'.
  pose proof (put_load_mpres _ _ _ s u s' Hl Hrun) as Hl'.
  pose proof (mrel_maxload _ _ _ _ (put_mono _ _ _) Hrun) as Hm.
  assert (Hml' : (maxload s' < 1)%Q) by (rewrite Hm; exact Hml).
  rewrite (get_abs s' sk Hwf' (empty_cell_of_load s' (proj1 Hwf') (proj2 Hl') Hml')).
  unfold abs_get. rewrite (put_abs_all _ _ _ s u s' Hwf Hrun). simpl.
  unfold abs_put. rewrite lookup_insert_eq. destruct (abs s !! sk) as [[x|]|]; reflexivity.
Qed.

(** C16: idempotent removal (spec section 8): on a well-formed object with
    an empty cell, a second [remove(k)] after one that returned leaves the
    object exactly as the first left it. *)
Theorem remove_idempotent (sk : pystr) (s s1 : hashmap) :
  wf s -> (exists p, table s !! p = Some None) ->
  remove (KStr sk) s = (Ok tt, s1) -> remove (KStr sk) s1 = (Ok tt, s1).
Proof.
  intros Hwf Hp Hrun. destruct (remove_post s s1 sk Hwf Hp Hrun) as (Hwf1 & Hp1 & Habs1).
  exact (remove_absent s1 sk Hwf1 Hp1 Habs1).
Qed.

(** C15: absence after removal (spec section 8): after a [remove(k)] that
    returned on a well-formed object with an empty cell, [contains(k)] is
    [False] and [get(k)] raises [KeyError]. *)
Theorem absent_after_remove (sk : pystr) (s s1 : hashmap) :
  wf s -> (exists p, table s !! p = Some None) -> remove (KStr sk) s = (Ok tt, s1) ->
  contains s1 (KStr sk) = Ok false /\ get s1 (KStr sk) = Err KeyError.
Proof.
  intros Hwf Hp Hrun. destruct (remove_post s s1 sk Hwf Hp Hrun) as (Hwf1 & Hp1 & Habs1).
  rewrite (contains_abs s1 sk Hwf1 Hp1), (get_abs s1 sk Hwf1 Hp1).
  unfold abs_contains, abs_get. rewrite Habs1. split; [|reflexivity].
  rewrite bool_decide_eq_false_2; [reflexivity|]. apply is_Some_None.
Qed.

End Laws.

(** ** Witnesses *)

Section Witnesses.
#[local] Existing Instance demo_hash.

(** [run_s3] of [Invariant]: ["ba"] holds 2 and ["ab"] was removed. *)
Lemma get_refines_witness :
  get run_s3 (ks "ba") = abs_get (abs run_s3) (str "ba") /\
  abs_get (abs run_s3) (str "ba") = Ok (Some 2).
Proof.
  split; [|vm_compute; reflexivity].
  apply get_refines; [exact (proj2 (proj2 run_wf)) | exists 0%nat; vm_compute; reflexivity].
Defined.

Lemma contains_refines_witness :
  contains run_s3 (ks "ab") = Ok (abs_contains (abs run_s3) (str "ab")) /\
  abs_contains (abs run_s3) (str "ab") = false.
Proof.
  split; [|vm_compute; reflexivity].
  apply contains_refines; [exact (proj2 (proj2 run_wf)) | exists 0%nat; vm_compute; reflexivity].
Defined.

Lemma remove_refines_witness :
  exists s', remove (ks "ba") run_s3 = (Ok tt, s') /\
    abs s' = abs_remove (abs run_s3) (str "ba") /\
    (abs run_s3 !! str "ba" = None -> s' = run_s3) /\
    (forall p v, table run_s3 !! p = Some (Some (Entry (ks "ba") v)) ->
       s' = set_table (<[p := Some DELETED]> (table run_s3)) run_s3).
Proof.
  apply remove_refines; [exact (proj2 (proj2 run_wf)) | exists 0%nat; vm_compute; reflexivity].
Defined.

(** The insertion of ["ba"] in [run_s1], which resizes the table. *)
Lemma put_refines_witness :
  abs run_s2 = abs_put (abs run_s1) (str "ba") (Some 2).
Proof.
  apply (put_refines recursion_limit (str "ba") (Some 2) run_s1 run_s2 tt);
    [exact (proj1 run_wf) | vm_compute; reflexivity].
Defined.

Lemma reachable_empty_cell_witness : exists p, table run_s3 !! p = Some None.
Proof.
  apply reachable_empty_cell; [|vm_compute; reflexivity].
  apply (reach_remove run_s2 run_s3 (ks "ab")); [|vm_compute; reflexivity].
  apply (reach_put run_s1 run_s2 (ks "ba") 2); [|vm_compute; reflexivity].
  apply (reach_put run_s0 run_s1 (ks "ab") 1); [|vm_compute; reflexivity].
  apply reach_init; [lia | unfold Qle; simpl; lia].
Defined.

Definition run_s4 : hashmap := snd (remove (ks "ba") run_s3).

Lemma put_get_roundtrip_witness : get run_s2 (ks "ba") = Ok (Some 2).
Proof.
  assert (Hl0 : load_inv run_s0).
  { split; [unfold Qle; simpl; lia|]. apply load_ok_empty; [reflexivity | unfold Qle; simpl; lia]. }
  assert (Hl1 : load_inv run_s1).
  { apply (put_load_mpres recursion_limit (ks "ab") (Some 1) run_s0 tt run_s1);
      [exact Hl0 | vm_compute; reflexivity]. }
  assert (Hml : (maxload run_s1 < 1)%Q) by (vm_compute; reflexivity).
  assert (Hrun : put recursion_limit (ks "ba") (Some 2) run_s1 = (Ok tt, run_s2))
    by (vm_compute; reflexivity).
  unfold ks. rewrite (put_get_roundtrip recursion_limit (str "ba") 2 run_s1 run_s2 tt
             (proj1 run_wf) Hl1 Hml Hrun).
  vm_compute. reflexivity.
Defined.

Lemma remove_idempotent_witness : remove (ks "ba") run_s4 = (Ok tt, run_s4).
Proof.
  apply (remove_idempotent (str "ba") run_s3 run_s4);
    [exact (proj2 (proj2 run_wf)) | exists 0%nat; vm_compute; reflexivity
    | vm_compute; reflexivity].
Defined.

Lemma absent_after_remove_witness :
  contains run_s3 (ks "ab") = Ok false /\ get run_s3 (ks "ab") = Err KeyError.
Proof.
  apply (absent_after_remove (str "ab") run_s2 run_s3);
    [exact (proj1 (proj2 run_wf)) | exists 0%nat; vm_compute; reflexivity
    | vm_compute; reflexivity].
Defined.

End Witnesses.
