(* ===== verification/Scan.v ===== *)
(** * The scan [findMax] ([src/hashmap.py], lines 202-217)

    [findMax] walks the array once, keeping the greatest value seen so far
    ([max], initially 1) and the key that holds it ([wordMax], initially the
    cell [map.table[0]] itself: [None] or an [Entry], not a key).  The
    Python object it returns first is therefore a cell or a key, the type
    [pyobj].  A [DELETED] cell has the value [None], and [None > max]
    raises [TypeError].  [findMax_loop] is the [while] loop on fuel;
    [max_step] is the body of one iteration as a function on the pair
    (wordMax, max), and the theorems relate the loop to the fold of
    [max_step] over the array, then read off what the fold returns; on a
    well-formed object the reported key has the largest count of the
    abstraction of [Refinement].  [printMap], the other scan of the array,
    is in [Report] with the other prints. *)

From stdpp Require Import base list decidable.
From Stdlib Require Import ZArith Lia QArith_base.
From S2P Require Import Prelude Entry Hashing Probe Hashmap Invariant Refinement.

Open Scope Z_scope.
Open Scope py_scope.

(** A Python object returned as [wordMax]: a cell, or a key. *)
Inductive pyobj :=
  | OSlot (c : slot)
  | OKey (k : pykey).

Fixpoint findMax_loop (table : list slot) (cap : Z) (index mx : Z)
    (wordMax : pyobj) (fuel : nat) : result (pyobj * Z) :=
  match fuel with
  | O => Err OutOfFuel
  | S fuel' =>
      if index =? cap then Ok (wordMax, mx)
      else
        let? c := py_getitem table index in
        match c with
        | Some e =>
            match value e with
            | Some v =>
                if mx <? v then findMax_loop table cap (index + 1) v (OKey (key e)) fuel'
                else findMax_loop table cap (index + 1) mx wordMax fuel'
            | None => Err TypeError
            end
        | None => findMax_loop table cap (index + 1) mx wordMax fuel'
        end
  end.

Definition findMax (m : hashmap) : result (pyobj * Z) :=
  let? wordMax := py_getitem (table m) 0 in
  findMax_loop (table m) (cap m) 0 1 (OSlot wordMax) (S (length (table m))).

(** ** Reference: the loop body as a step of a fold *)

Definition max_step (acc : result (pyobj * Z)) (c : slot) : result (pyobj * Z) :=
  let? (w, mx) := acc in
  match c with
  | Some e =>
      match value e with
      | Some v => if mx <? v then Ok (OKey (key e), v) else Ok (w, mx)
      | None => Err TypeError
      end
  | None => Ok (w, mx)
  end.

Lemma fold_max_step_err (l : list slot) (e : exc) :
  fold_left max_step l (Err e) = Err e.
Proof. induction l as [|c l IH]; simpl; auto. Qed.

Lemma findMax_loop_fold (table : list slot) (fuel : nat) :
  forall (index mx : Z) (w : pyobj),
  0 <= index <= Z.of_nat (length table) ->
  Z.of_nat (length table) - index < Z.of_nat fuel ->
  findMax_loop table (Z.of_nat (length table)) index mx w fuel
  = fold_left max_step (drop (Z.to_nat index) table) (Ok (w, mx)).
Proof.
  induction fuel as [|fuel IH]; intros index mx w Hi Hf; [lia|].
  simpl. destruct (Z.eqb_spec index (Z.of_nat (length table))) as [->|Hne].
  { rewrite Nat2Z.id, drop_all. reflexivity. }
  destruct (py_getitem_in_range table index ltac:(lia)) as (c & Hc & ->). simpl.
  rewrite (drop_S _ _ _ Hc). simpl.
  replace (S (Z.to_nat index)) with (Z.to_nat (index + 1)) by lia.
  destruct c as [e|]; [destruct (value e) as [v|]; [destruct (mx <? v)|]|];
    simpl; try (apply IH; lia).
  symmetry. apply fold_max_step_err.
Qed.

(** ** Properties of [findMax] *)

Lemma findMax_fold_eq (m : hashmap) :
  shape_ok m ->
  findMax m = let? w := py_getitem (table m) 0 in
              fold_left max_step (table m) (Ok (OSlot w, 1)).
Proof.
  intros [Hcap Hpos]. unfold findMax.
  destruct (py_getitem (table m) 0) as [w|e]; cbn [rbind]; [|reflexivity].
  rewrite Hcap. apply findMax_loop_fold; lia.
Qed.

Lemma fold_max_step_deleted (l : list slot) (acc : result (pyobj * Z)) :
  Some DELETED ∈ l -> fold_left max_step l acc = Err TypeError \/
                     exists e, fold_left max_step l acc = Err e /\ acc = Err e.
Proof.
  revert acc. induction l as [|c l IH]; intros acc Hin; [inversion Hin|].
  apply elem_of_cons in Hin as [<-|Hin]; simpl.
  - destruct acc as [[w mx]|e]; simpl; rewrite fold_max_step_err; [left|right]; eauto.
  - destruct (IH (max_step acc c) Hin) as [H|(e & H & He)]; [left; exact H|].
    destruct acc as [[w mx]|e']; simpl in He.
    + destruct c as [[k [v|]]|]; simpl in He; try destruct (mx <? v); try discriminate.
      injection He as <-. left. rewrite H. reflexivity.
    + right. injection He as <-. eauto.
Qed.

Lemma findMax_deleted (m : hashmap) :
  shape_ok m -> Some DELETED ∈ table m -> findMax m = Err TypeError.
Proof.
  intros Hshape Hin. rewrite (findMax_fold_eq m Hshape).
  destruct (table m) as [|c0 l] eqn:Ht; [inversion Hin|].
  simpl. destruct (fold_max_step_deleted (c0 :: l) (Ok (OSlot c0, 1)) Hin)
    as [H|(e & _ & He)]; [exact H|discriminate].
Qed.

(** C30: a tombstone anywhere in the array makes [findMax] raise
    [TypeError] ([None > max], line 213), on every table whose capacity is
    the length of its array. *)
Theorem findMax_tombstone_type_error (m : hashmap) :
  shape_ok m -> Some DELETED ∈ table m -> findMax m = Err TypeError.
Proof. exact (findMax_deleted m). Qed.

(** What the fold returns from [(w0, mx0)]: [mx] bounds every value, and
    either nothing exceeded [mx0], or [mx] is the value of the first cell
    [p] that holds it, and [w] that cell's key. *)
Definition max_result (l : list slot) (w0 : pyobj) (mx0 : Z) (w : pyobj) (mx : Z) : Prop :=
  mx0 <= mx /\
  (forall e v, Some e ∈ l -> value e = Some v -> v <= mx) /\
  ((mx = mx0 /\ w = w0) \/
   exists p e, l !! p = Some (Some e) /\ value e = Some mx /\ mx0 < mx /\
     w = OKey (key e) /\
     forall p' e' v', (p' < p)%nat -> l !! p' = Some (Some e') -> value e' = Some v' -> v' < mx).

Lemma fold_max_spec (l : list slot) :
  forall (w0 : pyobj) (mx0 : Z) (w : pyobj) (mx : Z),
  fold_left max_step l (Ok (w0, mx0)) = Ok (w, mx) -> max_result l w0 mx0 w mx.
Proof.
  induction l as [|c l IH]; intros w0 mx0 w mx Hfold.
  { injection Hfold as <- <-. split; [lia|]. split; [intros e v Hin; inversion Hin|]. auto. }
  simpl in Hfold. destruct c as [e|].
  2:{ destruct (IH _ _ _ _ Hfold) as (Hle & Hub & Hw). split; [exact Hle|]. split.
      - intros e' v Hin. apply elem_of_cons in Hin as [Hin|Hin]; [discriminate|eauto].
      - destruct Hw as [Hw|(p & e' & Hp & He & Hlt & Hk & Hfirst)]; [left; exact Hw|].
        right. exists (S p), e'. split_and!; auto.
        intros [|p'] e'' v' Hp' Hl Hv; [discriminate|]. apply (Hfirst p' e'' v'); auto; lia. }
  destruct (value e) as [v|] eqn:Hv; [|rewrite fold_max_step_err in Hfold; discriminate].
  simpl in Hfold. destruct (Z.ltb_spec mx0 v) as [Hlt|Hge].
  - destruct (IH _ _ _ _ Hfold) as (Hle & Hub & Hw). split; [lia|]. split.
    + intros e' v' Hin Hv'. apply elem_of_cons in Hin as [[= ->]|Hin]; [|eauto].
      rewrite Hv in Hv'. injection Hv' as <-. lia.
    + right. destruct Hw as [[-> ->]|(p & e' & Hp & He & Hlt' & Hk & Hfirst)].
      * exists 0%nat, e. split_and!; auto. intros p'; lia.
      * exists (S p), e'. split_and!; auto; [lia|].
        intros [|p'] e'' v' Hp' Hl Hv''; simpl in Hl.
        -- injection Hl as ->. rewrite Hv in Hv''. injection Hv'' as <-. lia.
        -- apply (Hfirst p' e'' v'); auto; lia.
  - destruct (IH _ _ _ _ Hfold) as (Hle & Hub & Hw). split; [lia|]. split.
    + intros e' v' Hin Hv'. apply elem_of_cons in Hin as [[= ->]|Hin]; [|eauto].
      rewrite Hv in Hv'. injection Hv' as <-. lia.
    + destruct Hw as [Hw|(p & e' & Hp & He & Hlt' & Hk & Hfirst)]; [left; exact Hw|].
      right. exists (S p), e'. split_and!; auto.
      intros [|p'] e'' v' Hp' Hl Hv''; simpl in Hl.
      -- injection Hl as ->. rewrite Hv in Hv''. injection Hv'' as <-. lia.
      -- apply (Hfirst p' e'' v'); auto; lia.
Qed.

Lemma findMax_max_result (m : hashmap) (w : pyobj) (mx : Z) :
  shape_ok m -> findMax m = Ok (w, mx) ->
  exists c0, table m !! 0%nat = Some c0 /\ max_result (table m) (OSlot c0) 1 w mx.
Proof.
  intros Hshape Hrun. rewrite (findMax_fold_eq m Hshape) in Hrun.
  destruct (py_getitem (table m) 0) as [c0|e] eqn:Hc0; [|discriminate]. simpl in Hrun.
  apply py_getitem_lookup in Hc0 as [_ Hc0]; [|lia].
  exists c0. split; [exact Hc0|]. apply fold_max_spec, Hrun.
Qed.

(** C29: when [findMax] returns [(w, mx)], [mx] is at least 1 and bounds
    the value of every entry; either no value exceeds 1 and [w] is the cell
    [table[0]] itself, or [w] is the key of the first cell, in array order,
    whose value is [mx] (ties go to the first occurrence). *)
Theorem findMax_first_max (m : hashmap) (w : pyobj) (mx : Z) :
  shape_ok m -> findMax m = Ok (w, mx) ->
  exists c0, table m !! 0%nat = Some c0 /\ max_result (table m) (OSlot c0) 1 w mx.
Proof. exact (findMax_max_result m w mx). Qed.

(** ** [findMax] against the abstraction *)

Section AbsMax.
Context `{PyHash}.

Lemma findMax_abs (m : hashmap) (sk : pystr) (mx : Z) :
  wf m -> findMax m = Ok (OKey (KStr sk), mx) ->
  abs m !! sk = Some (Some mx) /\
  forall sk' v', abs m !! sk' = Some (Some v') -> v' <= mx.
Proof.
  intros (Hok & _ & Hu) Hrun.
  destruct (findMax_max_result m _ mx (proj1 Hok) Hrun) as (c0 & _ & _ & Hub & Hw).
  split.
  - destruct Hw as [[_ Hw] | (p & e & Hp & Hv & _ & Hk & _)]; [discriminate|].
    injection Hk as Hk. rewrite <- Hv. exact (abs_of_cell _ _ e sk Hu Hp (eq_sym Hk)).
  - intros sk' v' Hl. destruct (abs_of_lookup_Some _ _ _ Hl) as [p Hp].
    exact (Hub _ v' (list_elem_of_lookup_2 _ _ _ Hp) eq_refl).
Qed.

(** C17: on a well-formed object, when [findMax] reports a string key, that
    key holds the reported value in the abstraction, and no key of the
    abstraction holds a greater value: the reported word has the largest
    count of the map. *)
Theorem findMax_abs_max (m : hashmap) (sk : pystr) (mx : Z) :
  wf m -> findMax m = Ok (OKey (KStr sk), mx) ->
  abs m !! sk = Some (Some mx) /\
  forall sk' v', abs m !! sk' = Some (Some v') -> v' <= mx.
Proof. exact (findMax_abs m sk mx). Qed.

End AbsMax.

Section Runs.
Context `{PyHash}.

(** The frequency count that the driver builds: [put(word, 1)] once per
    occurrence, for the words in order. *)
Definition count_words (ws : list (pykey * nat)) : PyM hashmap unit :=
  foldr (fun '(k, n) m => foldr (fun _ m' => hm_put k 1 ;; m') m (seq 0 n)) (mret tt) ws.

(** The scenario of the spec: counting "cat" 3 times, "dog" 7 times
    and "ant" 7 times in a default table of hash type 1 (relying on the
    increment of duplicates), [findMax] returns ("dog", 7): "dog" sits in
    cell 24, before "ant" in cell 83. *)
Theorem findMax_scenario :
  let (r, s) := count_words [(ks "cat", 3%nat); (ks "dog", 7%nat); (ks "ant", 7%nat)]
                  (init_default 1) in
  r = Ok tt /\ findMax s = Ok (OKey (ks "dog"), 7).
Proof. vm_compute. split; reflexivity. Qed.

(** [findMax] never reports an empty table: when no value exceeds 1
    it returns the cell [table[0]] (here [None] for an empty table, and
    the whole [Entry] "d" for a table holding only "d" once), with 1. *)
Theorem findMax_no_max_returns_cell :
  findMax (init_default 1) = Ok (OSlot None, 1) /\
  findMax (snd (hm_put (ks "d") 1 (init 1 4 (7 # 10))))
    = Ok (OSlot (Some (Entry (ks "d") (Some 1))), 1).
Proof. vm_compute. split; reflexivity. Qed.

End Runs.

(** ** Witnesses *)

Lemma findMax_tombstone_type_error_witness :
  findMax (mkHashmap [None; Some DELETED; Some (Entry (ks "a") (Some 2))] 1 3 (7 # 10) 1 0 0)
  = Err TypeError.
Proof.
  apply findMax_tombstone_type_error.
  - split; vm_compute; reflexivity.
  - vm_compute. right. left.
Defined.

Lemma findMax_first_max_witness :
  exists c0, [None; Some (Entry (ks "a") (Some 2))] !! 0%nat = Some c0 /\
    max_result [None; Some (Entry (ks "a") (Some 2))] (OSlot c0) 1 (OKey (ks "a")) 2.
Proof.
  apply (findMax_first_max (mkHashmap [None; Some (Entry (ks "a") (Some 2))] 1 2 (7 # 10) 1 0 0)).
  - split; vm_compute; reflexivity.
  - vm_compute. reflexivity.
Defined.

Section AbsWitness.
#[local] Existing Instance demo_hash.

(** [run_s2] of [Invariant]: ["ab"] holds 1 and ["ba"] holds 2. *)
Lemma findMax_abs_max_witness :
  abs run_s2 !! str "ba" = Some (Some 2) /\
  forall sk' v', abs run_s2 !! sk' = Some (Some v') -> v' <= 2.
Proof.
  apply findMax_abs_max; [exact (proj1 (proj2 run_wf)) | vm_compute; reflexivity].
Defined.

End AbsWitness.
