(* ===== verification/Driver.v ===== *)
(** * The driver [testMapFile] ([src/hashmap.py], lines 219-230)

    [testMapFile] reads a file line by line, splits every line with
    [re.split('\W+', line)], and for every word that is not empty calls
    [put(word.lower(), 1)] on three maps in turn, [map0], [map1] and
    [map2] (built by [testMap] with hash types 0, 1 and 2).  The model takes
    the lines already split into their word lists (the file and [re.split]
    are I/O and a library), and [str.lower] as a parameter [lower] (a
    library method the code only calls).  The three maps are the record
    [maps3]; the loop is [testMapFile_loop], two nested [py_for].

    Through [Refinement.put_refines], the loop is shown to count words: after
    a run that returns, the abstraction of each map gives every word the
    number of its occurrences (when it was not in the map before), whatever
    the hash type.  The prints of [testMapFile] and the rounds of [testMap]
    are in [Report]. *)

From stdpp Require Import base list decidable countable gmap.
From Stdlib Require Import ZArith Lia QArith_base.
From S2P Require Import Prelude Entry Hashing Probe Hashmap Invariant Refinement.

Open Scope Z_scope.
Open Scope py_scope.

(** ** The three maps *)

Record maps3 := Maps3 { map0 : hashmap; map1 : hashmap; map2 : hashmap }.

(** A call on one of the three objects; the other two are untouched. *)
Definition on_map0 {A} (m : PyM hashmap A) : PyM maps3 A :=
  fun st => let (r, s) := m (map0 st) in (r, Maps3 s (map1 st) (map2 st)).
Definition on_map1 {A} (m : PyM hashmap A) : PyM maps3 A :=
  fun st => let (r, s) := m (map1 st) in (r, Maps3 (map0 st) s (map2 st)).
Definition on_map2 {A} (m : PyM hashmap A) : PyM maps3 A :=
  fun st => let (r, s) := m (map2 st) in (r, Maps3 (map0 st) (map1 st) s).

Section Driver.
Context `{PyHash}.
Variable lower : pystr -> pystr.

(** [if word != '': map0.put(word.lower(), 1); map1.put(...); map2.put(...)]. *)
Definition put_word (word : pystr) : PyM maps3 unit :=
  if bool_decide (word = []) then mret tt
  else
    on_map0 (hm_put (KStr (lower word)) 1) ;;
    on_map1 (hm_put (KStr (lower word)) 1) ;;
    on_map2 (hm_put (KStr (lower word)) 1).

(** [for line in f: wordList = re.split('\W+', line); for word in wordList: ...]. *)
Definition testMapFile_loop (lines : list (list pystr)) : PyM maps3 unit :=
  py_for lines (fun wordList => py_for wordList put_word).

End Driver.

(** ** The abstract word count *)

(** One word of the loop on the abstraction of one map. *)
Definition count_step (lower : pystr -> pystr) (m : amap) (word : pystr) : amap :=
  if bool_decide (word = []) then m else abs_put m (lower word) (Some 1).

(** The number of non-empty words of the lines that [lower] maps to [w]. *)
Definition word_count (lower : pystr -> pystr) (lines : list (list pystr)) (w : pystr) : nat :=
  length (filter (fun word => word <> [] /\ lower word = w) (concat lines)).

(** The value a count of [n] more occurrences leaves under a key that held
    [old]: a missing value or [None] counts as 0 ([get(key) + 1] is only
    reached for a present key, and a new key is stored with 1). *)
Definition counted (old : option (option Z)) (n : nat) : option (option Z) :=
  match n with
  | O => old
  | S _ => Some (Some (match old with Some (Some c) => c | _ => 0 end + Z.of_nat n))
  end.

(** ** Counting *)

Lemma foldl_concat {A B} (f : B -> A -> B) (b : B) (ls : list (list A)) :
  foldl f b (concat ls) = foldl (foldl f) b ls.
Proof. revert b. induction ls as [|l ls IH]; intros b; [reflexivity|]. simpl. rewrite foldl_app. apply IH. Qed.

Lemma count_fold (lower : pystr -> pystr) (x : pystr) (ws : list pystr) : forall m,
  foldl (count_step lower) m ws !! x
  = counted (m !! x) (length (filter (fun word => word <> [] /\ lower word = x) ws)).
Proof.
  induction ws as [|w ws IH]; intros m; [reflexivity|].
  simpl. rewrite IH, filter_cons. unfold count_step.
  destruct (decide (w = [])) as [Hw|Hw].
  - rewrite bool_decide_eq_true_2 by exact Hw.
    rewrite decide_False by tauto. reflexivity.
  - rewrite bool_decide_eq_false_2 by exact Hw. unfold abs_put.
    destruct (decide (lower w = x)) as [<-|Hx].
    + rewrite decide_True by tauto. simpl length. rewrite lookup_insert_eq.
      destruct (length _) as [|n]; simpl;
        destruct (m !! lower w) as [[c|]|]; f_equal; f_equal; lia.
    + rewrite decide_False by tauto. rewrite lookup_insert_ne by exact Hx. reflexivity.
Qed.

Section DriverProofs.
Context `{PyHash}.
Variable lower : pystr -> pystr.

Definition wf3 (st : maps3) : Prop := wf (map0 st) /\ wf (map1 st) /\ wf (map2 st).

Definition abs3 (st : maps3) : amap * amap * amap :=
  (abs (map0 st), abs (map1 st), abs (map2 st)).

Definition count_step3 (b : amap * amap * amap) (word : pystr) : amap * amap * amap :=
  let '(a0, a1, a2) := b in
  (count_step lower a0 word, count_step lower a1 word, count_step lower a2 word).

Lemma on_map0_inv {A} (m : PyM hashmap A) (st st' : maps3) (a : A) :
  on_map0 m st = (Ok a, st') ->
  m (map0 st) = (Ok a, map0 st') /\ map1 st' = map1 st /\ map2 st' = map2 st.
Proof. unfold on_map0. destruct (m (map0 st)) as [r s]. intros [= -> <-]. auto. Qed.

Lemma on_map1_inv {A} (m : PyM hashmap A) (st st' : maps3) (a : A) :
  on_map1 m st = (Ok a, st') ->
  m (map1 st) = (Ok a, map1 st') /\ map0 st' = map0 st /\ map2 st' = map2 st.
Proof. unfold on_map1. destruct (m (map1 st)) as [r s]. intros [= -> <-]. auto. Qed.

Lemma on_map2_inv {A} (m : PyM hashmap A) (st st' : maps3) (a : A) :
  on_map2 m st = (Ok a, st') ->
  m (map2 st) = (Ok a, map2 st') /\ map0 st' = map0 st /\ map1 st' = map1 st.
Proof. unfold on_map2. destruct (m (map2 st)) as [r s]. intros [= -> <-]. auto. Qed.

(** One [put(word, 1)] on a well-formed map. *)
Lemma hm_put_count (word : pystr) (s s' : hashmap) (u : unit) :
  word <> [] -> wf s -> hm_put (KStr (lower word)) 1 s = (Ok u, s') ->
  wf s' /\ abs s' = count_step lower (abs s) word.
Proof.
  intros Hw Hwf Hrun. split; [exact (put_wf_mpres _ _ _ s u s' Hwf Hrun)|].
  unfold count_step. rewrite bool_decide_eq_false_2 by exact Hw.
  exact (put_abs_all _ _ _ s u s' Hwf Hrun).
Qed.

Lemma put_word_count (word : pystr) (st st' : maps3) (u : unit) :
  wf3 st -> put_word lower word st = (Ok u, st') ->
  wf3 st' /\ abs3 st' = count_step3 (abs3 st) word.
Proof.
  intros (H0 & H1 & H2) Hrun. unfold put_word, count_step3, abs3, count_step in *.
  destruct (bool_decide (word = [])) eqn:Hw.
  { apply mret_inv in Hrun as [_ ->]. split; [exact (conj H0 (conj H1 H2))|reflexivity]. }
  apply bool_decide_eq_false in Hw.
  apply mbind_inv in Hrun as (u0 & st0 & R0 & Hrun).
  apply mbind_inv in Hrun as (u1 & st1 & R1 & R2).
  apply on_map0_inv in R0 as (R0 & E01 & E02).
  apply on_map1_inv in R1 as (R1 & E10 & E12).
  apply on_map2_inv in R2 as (R2 & E20 & E21).
  rewrite E01 in R1. rewrite E12, E02 in R2.
  destruct (hm_put_count word _ _ _ Hw H0 R0) as [W0 A0].
  destruct (hm_put_count word _ _ _ Hw H1 R1) as [W1 A1].
  destruct (hm_put_count word _ _ _ Hw H2 R2) as [W2 A2].
  unfold count_step in A0, A1, A2. rewrite bool_decide_eq_false_2 in A0, A1, A2 by exact Hw.
  unfold wf3. rewrite E20, E10, E21. split_and!; [exact W0|exact W1|exact W2|]. congruence.
Qed.

Lemma foldl_count_step3 (ws : list pystr) : forall a0 a1 a2,
  foldl count_step3 (a0, a1, a2) ws
  = (foldl (count_step lower) a0 ws, foldl (count_step lower) a1 ws,
     foldl (count_step lower) a2 ws).
Proof. induction ws as [|w ws IH]; intros a0 a1 a2; [reflexivity|]. apply IH. Qed.

(** The loop of [testMapFile] applies [count_step] to each map for every
    word of every line, in order. *)
Lemma testMapFile_abs (lines : list (list pystr)) (st st' : maps3) (u : unit) :
  wf3 st -> testMapFile_loop lower lines st = (Ok u, st') ->
  wf3 st' /\ abs3 st' = foldl count_step3 (abs3 st) (concat lines).
Proof.
  intros Hwf Hrun. rewrite foldl_concat.
  refine (py_for_fold wf3 abs3 (foldl count_step3) _ _ lines st u st' Hwf Hrun).
  exact (py_for_fold wf3 abs3 count_step3 (put_word lower)
           (fun x s u s' => put_word_count x s s' u)).
Qed.

Lemma testMapFile_lookup (lines : list (list pystr)) (st st' : maps3) (u : unit) :
  wf3 st -> testMapFile_loop lower lines st = (Ok u, st') ->
  forall w,
    abs (map0 st') !! w = counted (abs (map0 st) !! w) (word_count lower lines w) /\
    abs (map1 st') !! w = counted (abs (map1 st) !! w) (word_count lower lines w) /\
    abs (map2 st') !! w = counted (abs (map2 st) !! w) (word_count lower lines w).
Proof.
  intros Hwf Hrun w. destruct (testMapFile_abs lines st st' u Hwf Hrun) as [_ Habs].
  unfold abs3 in Habs. rewrite foldl_count_step3 in Habs. injection Habs as E0 E1 E2.
  unfold word_count. rewrite E0, E1, E2, !count_fold. auto.
Qed.

(** C12: the word loop of [testMapFile] counts words: after a run that
    returns, each of the three maps gives every word [w] the number of
    non-empty words of the lines whose [lower()] is [w], added to the count
    it held before (a new word starts at 0), whatever the hash type. *)
Theorem testMapFile_counts (lines : list (list pystr)) (st st' : maps3) (u : unit) :
  wf (map0 st) -> wf (map1 st) -> wf (map2 st) ->
  testMapFile_loop lower lines st = (Ok u, st') ->
  forall w,
    abs (map0 st') !! w = counted (abs (map0 st) !! w) (word_count lower lines w) /\
    abs (map1 st') !! w = counted (abs (map1 st) !! w) (word_count lower lines w) /\
    abs (map2 st') !! w = counted (abs (map2 st) !! w) (word_count lower lines w).
Proof.
  intros H0 H1 H2. exact (testMapFile_lookup lines st st' u (conj H0 (conj H1 H2))).
Qed.

End DriverProofs.

(** [map0 = Hashmap(0, initsz=70000)], [map1 = Hashmap(1, ...)],
    [map2 = Hashmap(2, ...)] in [testMap] (lines 237-239, with
    [initsz = 70000]). *)
Definition testMap_maps (initsz : Z) : maps3 :=
  Maps3 (init 0 initsz (7 # 10)) (init 1 initsz (7 # 10)) (init 2 initsz (7 # 10)).

Section Fresh.
Context `{PyHash}.
Variable lower : pystr -> pystr.

Lemma testMap_lookup (lines : list (list pystr)) (initsz : Z) (st' : maps3) (u : unit) :
  0 < initsz -> testMapFile_loop lower lines (testMap_maps initsz) = (Ok u, st') ->
  forall w,
    abs (map0 st') !! w = counted None (word_count lower lines w) /\
    abs (map1 st') !! w = counted None (word_count lower lines w) /\
    abs (map2 st') !! w = counted None (word_count lower lines w).
Proof.
  intros Hsz Hrun w.
  assert (Hwf : wf3 (testMap_maps initsz)) by (split_and!; apply init_wf; exact Hsz).
  destruct (testMapFile_lookup lower lines _ st' u Hwf Hrun w) as (E0 & E1 & E2).
  unfold testMap_maps, abs in E0, E1, E2; simpl in E0, E1, E2.
  rewrite abs_of_repeat_None, lookup_empty in E0, E1, E2. auto.
Qed.

End Fresh.

(** ** Witnesses *)

Section Witnesses.
#[local] Existing Instance demo_hash.

(** [str.lower] on ASCII letters, the case of the witnesses. *)
Definition ascii_lower (w : pystr) : pystr :=
  map (fun c => if (65 <=? ord c) && (ord c <=? 90) then PyChar (ord c + 32) else c) w.

(** Two lines, the second with an empty word as [re.split] yields for a
    leading separator: "The cat" and ", the dog". *)
Definition demo_lines : list (list pystr) :=
  [[str "The"; str "cat"]; [str ""; str "the"; str "dog"]].

Definition demo_run : result unit * maps3 :=
  testMapFile_loop ascii_lower demo_lines (testMap_maps 8).

Lemma testMapFile_counts_witness :
  abs (map0 (snd demo_run)) !! str "the" = Some (Some 2).
Proof.
  assert (Hrun : testMapFile_loop ascii_lower demo_lines (testMap_maps 8) = (Ok tt, snd demo_run))
    by (vm_compute; reflexivity).
  destruct (testMapFile_counts ascii_lower demo_lines (testMap_maps 8) (snd demo_run) tt
              (init_wf 0 8 (7 # 10) ltac:(lia)) (init_wf 1 8 (7 # 10) ltac:(lia))
              (init_wf 2 8 (7 # 10) ltac:(lia)) Hrun (str "the")) as (E0 & _ & _).
  rewrite E0. vm_compute. reflexivity.
Defined.

End Witnesses.
