(* ===== verification/Typing.v ===== *)
(** * The Python types of the cells ([src/hashmap.py], lines 5-17, 37-113)

    Python does not check what [self.table] holds; this file shows which
    shapes it can hold.  [cell_typed] admits the three shapes the code
    writes: [None], [Entry(str, int)] and [DELETED = Entry(_delobj(), None)].
    [cell_str] admits only [None] and [Entry(str, int)]: this is what the
    driver fills its maps with.  Both are per-cell predicates.  The section
    [CellInvariant] proves, once for any such predicate [Pc], that [put]
    keeps every cell in [Pc] when its arguments are: the writes of lines 58
    and 82, the increment of line 55, the empty array of the resize (line
    89) and the reinsertions of line 94 all stay in [Pc].  The two
    instances then give:
    - [put] and [remove] keep the cells typed;
    - [put] of strings with integer values never creates a tombstone;
    - on a typed table, [findMax] raises [TypeError] exactly when a
      tombstone is present. *)

From stdpp Require Import base list decidable.
From Stdlib Require Import ZArith Lia QArith_base.
From S2P Require Import Prelude Entry Hashing Probe Hashmap Invariant Scan.

Open Scope Z_scope.
Open Scope py_scope.

(** ** The two cell predicates *)

(** [None], [Entry(str, int)], or the sentinel [DELETED]. *)
Definition cell_typed (c : slot) : Prop :=
  match c with
  | None => True
  | Some (Entry (KStr _) (Some _)) => True
  | Some (Entry KDel None) => True
  | Some _ => False
  end.

(** [None] or [Entry(str, int)]: no tombstone, and every value an integer. *)
Definition cell_str (c : slot) : Prop :=
  match c with
  | None => True
  | Some (Entry (KStr _) (Some _)) => True
  | Some _ => False
  end.

#[export] Instance cell_typed_dec (c : slot) : Decision (cell_typed c).
Proof. destruct c as [[[sk|] [x|]]|]; simpl; exact _. Defined.
#[export] Instance cell_str_dec (c : slot) : Decision (cell_str c).
Proof. destruct c as [[[sk|] [x|]]|]; simpl; exact _. Defined.

(** ** What [get] returns *)

(** The lookup loop stops at a cell that is empty or holds the key. *)
Lemma lookup_walk_key (t : list slot) (b : Z) (k : pykey) (fuel : nat) :
  forall i j e, lookup_walk t b k i fuel = Ok j -> py_getitem t j = Ok (Some e) -> key e = k.
Proof.
  induction fuel as [|fuel IH]; intros i j e Hrun Hj; [discriminate|].
  simpl in Hrun. destruct (py_getitem t i) as [[e'|]|] eqn:Hi; simpl in Hrun; try discriminate.
  - destruct (bool_decide (key e' = k)) eqn:Hk; [|exact (IH _ _ _ Hrun Hj)].
    injection Hrun as <-. rewrite Hi in Hj. injection Hj as <-.
    exact (bool_decide_eq_true_1 _ Hk).
  - injection Hrun as <-. rewrite Hi in Hj. discriminate.
Qed.

(** A value [get] returns is the value of a cell that holds the key. *)
Lemma get_cell `{PyHash} (s : hashmap) (k : pykey) (x : option Z) :
  get s k = Ok x -> exists e, Some e ∈ table s /\ key e = k /\ value e = x.
Proof.
  unfold get. intros Hg.
  apply rbind_Ok in Hg as (i & _ & Hg). apply rbind_Ok in Hg as (j & Hw & Hg).
  apply rbind_Ok in Hg as (c & Hj & Hg). destruct c as [e|]; [injection Hg as <-|discriminate].
  exists e. split; [exact (py_getitem_elem _ _ _ Hj)|].
  split; [exact (lookup_walk_key _ _ _ _ _ _ _ Hw Hj)|reflexivity].
Qed.

(** ** [put] keeps a per-cell invariant *)

Section CellInvariant.
Context `{PyHash}.
Variable Pc : slot -> Prop.
Hypothesis Pc_None : Pc None.
(** The increment of line 55 stays in [Pc]. *)
Hypothesis Pc_incr :
  forall k x, Pc (Some (Entry k (Some x))) -> Pc (Some (Entry k (Some (x + 1)))).

Definition cells_ok (s : hashmap) : Prop := Forall Pc (table s).

Lemma on_probe_cells {A} (m : hashmap -> PyM Z A) : mpres cells_ok (on_probe m).
Proof. intros s a s' Hs Hrun. apply on_probe_inv in Hrun as (p & _ & ->). exact Hs. Qed.

Lemma write_cell_cells (i : Z) (c : slot) : Pc c -> mpres cells_ok (write_cell i c).
Proof.
  intros Hc s u s' Hs Hrun. apply write_cell_inv in Hrun as (t & Ht & ->).
  exact (py_setitem_Forall _ _ _ _ _ Hs Hc Ht).
Qed.

Section WithRec.
Variable rec : pykey -> option Z -> PyM hashmap unit.
Hypothesis rec_ok : forall k v, Pc (Some (Entry k v)) -> mpres cells_ok (rec k v).

(** Every cell of the old array is put back with its own key and value. *)
Lemma reinsert_cells (old : list slot) : Forall Pc old -> mpres cells_ok (reinsert rec old).
Proof.
  induction old as [|c old IH]; intros Hold; [apply mpres_ret|].
  inversion Hold as [|? ? Hc Hold']; subst.
  destruct c as [[k v]|]; simpl reinsert; [|exact (IH Hold')].
  apply mpres_bind; [exact (rec_ok k v Hc)|intros _; exact (IH Hold')].
Qed.

Lemma rehash_cells : mpres cells_ok (rehash rec).
Proof.
  intros s u s' Hs Hrun. refine (reinsert_cells (table s) Hs _ _ _ _ (rehash_run rec s s' u Hrun)).
  exact (Forall_repeat _ _ _ Pc_None).
Qed.

Lemma resize_check_cells : mpres cells_ok (resize_check rec).
Proof. unfold resize_check. mpres_solve idtac; apply rehash_cells. Qed.

Lemma put_place_cells (k : pykey) (v : option Z) (index : Z) :
  Pc (Some (Entry k v)) -> mpres cells_ok (put_place rec k v index).
Proof.
  intros Hkv. unfold put_place, place_choice.
  mpres_solve idtac;
    solve [assumption | apply on_probe_cells | apply write_cell_cells, Hkv
          | apply resize_check_cells].
Qed.

(** The duplicate branch writes or hands on [Entry(key, v')] with [v'] the
    increment of a value the table holds under the key. *)
Lemma dup_branch_cells (k : pykey) (v : option Z) (index : Z) (s s1 : hashmap)
    (next : option (Z * option Z)) :
  Pc (Some (Entry k v)) -> cells_ok s -> dup_branch k v index s = (Ok next, s1) ->
  cells_ok s1 /\ forall i v', next = Some (i, v') -> Pc (Some (Entry k v')).
Proof.
  intros Hkv Hs Hrun. unfold dup_branch in Hrun.
  mstep Hrun. apply mmodify_inv in Hstep as ->.
  mstep Hrun. apply mread_inv in Hstep as [_ ->].
  destruct a0.
  - mstep Hrun. apply mread_inv in Hstep as [Hget ->].
    mstep Hrun. apply mread_inv in Hstep as [Hadd ->].
    destruct (get_cell _ _ _ Hget) as ([ke ve] & He & Hk & Hv). simpl in Hk, Hv. subst ke ve.
    destruct a0 as [x|]; simpl in Hadd; [injection Hadd as <-|discriminate].
    assert (Hnew : Pc (Some (Entry k (Some (x + 1))))).
    { apply Pc_incr. unfold cells_ok in Hs. rewrite Forall_forall in Hs. apply Hs, list_elem_of_In, He. }
    mstep Hrun. apply mread_inv in Hstep as [_ ->].
    destruct a0 as [i|i].
    + mstep Hrun. apply mret_inv in Hrun as [-> ->]. split; [|discriminate].
      exact (write_cell_cells i _ Hnew (set_probe (probe s + 1) s) _ _ Hs Hstep).
    + apply mret_inv in Hrun as [-> ->]. split; [exact Hs|].
      intros i' v' [= _ <-]. exact Hnew.
  - mstep Hrun. apply mmodify_inv in Hstep as ->.
    apply mret_inv in Hrun as [-> ->]. split; [exact Hs|].
    intros i' v' [= _ <-]. exact Hkv.
Qed.

Lemma put_body_cells (k : pykey) (v : option Z) :
  Pc (Some (Entry k v)) -> mpres cells_ok (put_body rec k v).
Proof.
  intros Hkv s u s' Hs Hrun. unfold put_body in Hrun.
  mstep Hrun. apply mread_inv in Hstep as [_ ->].
  mstep Hrun. apply mread_inv in Hstep as [_ ->].
  mstep Hrun.
  assert (Hnext : cells_ok s0 /\ forall i v', a1 = Some (i, v') -> Pc (Some (Entry k v'))).
  { destruct a0 as [e|].
    - exact (dup_branch_cells k v a s s0 a1 Hkv Hs Hstep).
    - apply mret_inv in Hstep as [-> ->]. split; [exact Hs|].
      intros i v' [= _ <-]. exact Hkv. }
  destruct Hnext as [Hs0 Hnext].
  destruct a1 as [[i v']|].
  - exact (put_place_cells k v' i (Hnext i v' eq_refl) _ _ _ Hs0 Hrun).
  - apply mret_inv in Hrun as [_ ->]. exact Hs0.
Qed.

End WithRec.

(** [put] at every depth, resizes and their reinsertions included. *)
Lemma put_cells (depth : nat) :
  forall k v, Pc (Some (Entry k v)) -> mpres cells_ok (put depth k v).
Proof.
  induction depth as [|depth IH]; intros k v Hkv; simpl put; [apply mpres_throw|].
  apply put_body_cells; [exact IH|exact Hkv].
Qed.

End CellInvariant.

(** ** The types of the cells *)

(** Every cell is [None], [Entry(str, int)] or [DELETED]. *)
Definition typed (s : hashmap) : Prop := cells_ok cell_typed s.

(** Every cell is [None] or [Entry(str, int)]. *)
Definition str_cells (s : hashmap) : Prop := cells_ok cell_str s.

Lemma typed_incr (k : pykey) (x : Z) :
  cell_typed (Some (Entry k (Some x))) -> cell_typed (Some (Entry k (Some (x + 1)))).
Proof. destruct k; simpl; tauto. Qed.

Lemma str_incr (k : pykey) (x : Z) :
  cell_str (Some (Entry k (Some x))) -> cell_str (Some (Entry k (Some (x + 1)))).
Proof. destruct k; simpl; tauto. Qed.

Lemma init_cells (Pc : slot -> Prop) (inittype initsz : Z) (ml : Q) :
  Pc None -> cells_ok Pc (init inittype initsz ml).
Proof. intros HN. exact (Forall_repeat _ _ _ HN). Qed.

Lemma str_cells_typed (s : hashmap) : str_cells s -> typed s /\ Some DELETED ∉ table s.
Proof.
  intros Hs. split.
  - eapply Forall_impl; [|exact Hs]. intros [[[sk|] [x|]]|]; simpl; tauto.
  - intros Hin. unfold str_cells, cells_ok in Hs. rewrite Forall_forall in Hs.
    exact (Hs _ (proj1 (list_elem_of_In _ _) Hin)).
Qed.

Section Types.
Context `{PyHash}.

Lemma put_typed_mpres (depth : nat) (k : pykey) (v : option Z) :
  cell_typed (Some (Entry k v)) -> mpres typed (put depth k v).
Proof. exact (put_cells cell_typed I typed_incr depth k v). Qed.

(** C14: [put] keeps every cell of the array [None], [Entry(str, int)] or
    [DELETED], when its own key and value are of one of the two entry
    shapes: at every depth, so also for the reinsertions of a resize,
    which under hash type 0 put [DELETED] itself back. *)
Theorem put_typed (depth : nat) (k : pykey) (v : option Z) (s s' : hashmap) (u : unit) :
  typed s -> cell_typed (Some (Entry k v)) -> put depth k v s = (Ok u, s') -> typed s'.
Proof. intros Hs Hkv. exact (put_typed_mpres depth k v Hkv s u s' Hs). Qed.

Lemma remove_typed (k : pykey) : mpres typed (remove k).
Proof. unfold remove. mpres_solve idtac. apply write_cell_cells. exact I. Qed.

(** [put(word, 1)] as the driver calls it keeps the maps free of tombstones. *)
Lemma hm_put_str_cells (sk : pystr) (v : Z) : mpres str_cells (hm_put (KStr sk) v).
Proof. exact (put_cells cell_str I str_incr recursion_limit (KStr sk) (Some v) I). Qed.

End Types.

(** ** [findMax] on typed tables *)

Lemma fold_max_step_typed (l : list slot) :
  Forall cell_typed l -> Some DELETED ∉ l ->
  forall w mx, exists r, fold_left max_step l (Ok (w, mx)) = Ok r.
Proof.
  induction l as [|c l IH]; intros Hl Hd w mx; [eauto|].
  inversion Hl as [|? ? Hc Hl']; subst. apply not_elem_of_cons in Hd as [Hc0 Hd].
  destruct c as [[[sk|] [v|]]|]; simpl in Hc |- *; try contradiction;
    try destruct (mx <? v); first [apply IH; assumption | destruct (Hc0 eq_refl)].
Qed.

(** On a typed table without tombstone [findMax] returns. *)
Lemma findMax_typed_ok (m : hashmap) :
  shape_ok m -> typed m -> Some DELETED ∉ table m -> exists r, findMax m = Ok r.
Proof.
  intros Hsh Ht Hd. rewrite (findMax_fold_eq m Hsh).
  destruct Hsh as [Hc Hp]. destruct (py_getitem_in_range (table m) 0 ltac:(lia)) as (c0 & _ & ->).
  exact (fold_max_step_typed _ Ht Hd _ _).
Qed.

(** C25: on a typed table whose capacity is the length of its array,
    [findMax] raises [TypeError] exactly when the array holds a tombstone:
    the comparison [None > max] of line 213 is the only way it fails. *)
Theorem findMax_type_error_iff (m : hashmap) :
  shape_ok m -> typed m -> (findMax m = Err TypeError <-> Some DELETED ∈ table m).
Proof.
  intros Hsh Ht. split; [|exact (findMax_deleted m Hsh)].
  intros Herr. destruct (decide (Some DELETED ∈ table m)) as [Hin|Hnin]; [exact Hin|].
  destruct (findMax_typed_ok m Hsh Ht Hnin) as [r Hr]. congruence.
Qed.

(** ** Witnesses *)

Section Witnesses.
#[local] Existing Instance demo_hash.

(** Hash type 0, a tombstone in cell 0 and "c" in cell 3 of four: the put
    of "b" resizes, and the reinsertion puts [DELETED] back, in cell 1 of
    eight ([hash(_delobj())] is 1 here). *)
Definition tomb_s0 : hashmap :=
  mkHashmap [Some DELETED; None; None; Some (Entry (ks "c") (Some 1))] 2 4 (7 # 10) 0 0 0.

(** Under hash type 0 the resize reinserts the tombstone [DELETED] as
    an entry of the new array (line 94; spec 4.3 says tombstones are
    dropped): from four cells holding [DELETED] and "c", the put of "b"
    resizes to eight cells, and the new array holds [DELETED] again,
    counted by [numkeys] with "c" and "b". *)
Theorem rehash_reinserts_tombstone :
  fst (hm_put (ks "b") 1 tomb_s0) = Ok tt /\
  cap (snd (hm_put (ks "b") 1 tomb_s0)) = 8 /\
  (table (snd (hm_put (ks "b") 1 tomb_s0)) !! 1%nat) = Some (Some DELETED) /\
  numkeys (snd (hm_put (ks "b") 1 tomb_s0)) = 3.
Proof. vm_compute. split_and!; reflexivity. Qed.

Lemma put_typed_witness :
  typed (snd (hm_put (ks "b") 1 tomb_s0)) /\
  Some DELETED ∈ table (snd (hm_put (ks "b") 1 tomb_s0)).
Proof.
  split.
  - apply (put_typed recursion_limit (ks "b") (Some 1) tomb_s0 _ tt).
    + unfold typed, cells_ok. vm_compute. repeat constructor.
    + exact I.
    + vm_compute. reflexivity.
  - apply list_elem_of_In. vm_compute. tauto.
Defined.

Lemma findMax_type_error_iff_witness :
  findMax (snd (hm_put (ks "b") 1 tomb_s0)) = Err TypeError.
Proof.
  apply (findMax_type_error_iff (snd (hm_put (ks "b") 1 tomb_s0))).
  - split; vm_compute; reflexivity.
  - unfold typed, cells_ok. vm_compute. repeat constructor.
  - apply list_elem_of_In. vm_compute. tauto.
Defined.

End Witnesses.
