(* ===== verification/Counters.v ===== *)
(** * The counters [self.probe] and [self.collision] ([src/hashmap.py], lines 33-34, 52-74)

    [put] adds 1 to [probe] when its start cell is occupied (line 53), and
    then 1 to [collision] when the key is not present (line 62).  The
    insertion walk adds to [probe] only (line 74).  [get], [contains] and
    [remove] change neither.  So on every run of [put], raising or not, the
    collisions grow by at most as much as the probes ([counters_rel]), and
    every object the program builds has [0 <= collision <= probe]: the
    collision count that [testMapFile] prints never exceeds its probe
    count. *)

From stdpp Require Import base list decidable.
From Stdlib Require Import ZArith Lia QArith_base.
From S2P Require Import Prelude Entry Hashing Probe Hashmap Invariant.

Open Scope Z_scope.
Open Scope py_scope.

(** From [s] to [s'], [collision] grows by at most as much as [probe]. *)
Definition counters_rel (s s' : hashmap) : Prop :=
  collision s' - collision s <= probe s' - probe s.

#[export] Instance counters_rel_preorder : PreOrder counters_rel.
Proof. unfold counters_rel. split; [intros s; lia | intros s1 s2 s3; lia]. Qed.

Ltac counters_tac := unfold counters_rel; simpl; lia.

Section Counters.
Context `{PyHash}.

Lemma on_probe_counters {A} (m : hashmap -> PyM Z A) :
  (forall s, mrel Z.le (m s)) -> mrel counters_rel (on_probe m).
Proof.
  intros Hm s r s'. unfold on_probe. destruct (m s (probe s)) as [r0 p] eqn:E.
  intros [= _ <-]. pose proof (Hm s _ _ _ E). counters_tac.
Qed.

Lemma write_cell_counters (i : Z) (c : slot) : mrel counters_rel (write_cell i c).
Proof. unfold write_cell. mrel_solve counters_tac. Qed.

(** The duplicate branch: one probe, then at most one collision. *)
Lemma dup_branch_counters (k : pykey) (v : option Z) (index : Z) :
  mrel counters_rel (dup_branch k v index).
Proof.
  intros s r s' Hrun. unfold dup_branch in Hrun. cbn [mbind mmodify mread] in Hrun.
  set (s1 := set_probe (probe s + 1) s) in Hrun.
  assert (H1 : forall s', collision s' = collision s1 -> probe s1 <= probe s' ->
                 counters_rel s s') by (intros s2; unfold s1; counters_tac).
  destruct (contains s1 k) as [[|]|e]; [| |injection Hrun as _ <-; apply H1; simpl; lia].
  - destruct (mbind (mread _) _ s1) as [r1 s2] eqn:E. injection Hrun as _ <-.
    assert (Hf : mrel counters_rel (let* old := mread (fun s => get s k) in
                   let* v' := mread (fun _ => py_add1 old) in
                   let* r := mread (fun s => dup_scan (table s) (cap s) k index
                                                (S (Z.to_nat (cap s - index)))) in
                   match r with
                   | inl i => write_cell i (Some (Entry k (Some v'))) ;; mret None
                   | inr i => mret (Some (i, Some v'))
                   end))
      by (mrel_solve counters_tac; apply write_cell_counters).
    pose proof (Hf _ _ _ E) as Hc. unfold s1, counters_rel in *. simpl in Hc. lia.
  - cbn [mbind mmodify mret] in Hrun. injection Hrun as _ <-. unfold s1. counters_tac.
Qed.

Section WithRec.
Variable rec : pykey -> option Z -> PyM hashmap unit.
Hypothesis rec_counters : forall k v, mrel counters_rel (rec k v).

Lemma reinsert_counters (old : list slot) : mrel counters_rel (reinsert rec old).
Proof. induction old as [|[e|] old IH]; simpl reinsert; mrel_solve counters_tac; auto. Qed.

Lemma put_body_counters (k : pykey) (v : option Z) : mrel counters_rel (put_body rec k v).
Proof.
  unfold put_body, put_place, place_choice, resize_check, rehash.
  mrel_solve counters_tac;
    solve [apply dup_branch_counters | apply write_cell_counters | apply reinsert_counters
          | apply on_probe_counters; intros; apply put_walk_probe_mono].
Qed.

End WithRec.

(** Every run of [put], whether it returns or raises, at every depth. *)
Lemma put_counters (depth : nat) (k : pykey) (v : option Z) :
  mrel counters_rel (put depth k v).
Proof.
  revert k v. induction depth as [|depth IH]; intros k v; simpl put.
  - apply mrel_throw; exact _.
  - apply put_body_counters, IH.
Qed.

Lemma remove_counters (k : pykey) : mrel counters_rel (remove k).
Proof. unfold remove. mrel_solve counters_tac; apply write_cell_counters. Qed.

(** The bound as a state invariant. *)
Definition counters_ok (s : hashmap) : Prop := 0 <= collision s <= probe s.

Lemma counters_ok_step {A} (m : PyM hashmap A) (s s' : hashmap) (r : result A) :
  mrel counters_rel m -> mrel hm_mono m -> m s = (r, s') -> counters_ok s -> counters_ok s'.
Proof.
  intros Hc Hm Hrun. pose proof (Hc _ _ _ Hrun). destruct (Hm _ _ _ Hrun) as (_ & ? & _).
  unfold counters_rel, counters_ok in *. lia.
Qed.

Lemma remove_mono (k : pykey) : mrel hm_mono (remove k).
Proof. unfold remove. mrel_solve hm_mono_tac; apply write_cell_mono. Qed.

Lemma reachable_counters_ok (s : hashmap) : reachable s -> counters_ok s.
Proof.
  induction 1 as [t sz ml _ _ | s s' k v _ IH Hrun | s s' k _ IH Hrun].
  - unfold counters_ok, init; simpl; lia.
  - exact (counters_ok_step _ _ _ _ (put_counters _ _ _) (put_mono _ _ _) Hrun IH).
  - exact (counters_ok_step _ _ _ _ (remove_counters k) (remove_mono k) Hrun IH).
Qed.

(** C26: in every object built by [__init__] and calls of [put] and
    [remove] that returned, [0 <= self.collision <= self.probe]. *)
Theorem reachable_counters (s : hashmap) : reachable s -> 0 <= collision s <= probe s.
Proof. exact (reachable_counters_ok s). Qed.

End Counters.

(** ** Witnesses *)

Section Witnesses.
#[local] Existing Instance demo_hash.

(** [run_s3] of [Invariant]: "ba" collided with "ab", and the resize
    reinserted both. *)
Lemma reachable_counters_witness : 0 <= collision run_s3 <= probe run_s3.
Proof.
  apply reachable_counters.
  apply (reach_remove run_s2 run_s3 (ks "ab")); [|vm_compute; reflexivity].
  apply (reach_put run_s1 run_s2 (ks "ba") 2); [|vm_compute; reflexivity].
  apply (reach_put run_s0 run_s1 (ks "ab") 1); [|vm_compute; reflexivity].
  apply reach_init; [lia|].
  unfold Qle; simpl; lia.
Defined.

End Witnesses.
