(* ===== verification/Report.v ===== *)
(** * The output of the driver: [printMap], [testMapFile], [testMap]
    ([src/hashmap.py], lines 198-200 and 219-290)

    Every [print] call is one event of the type [out_event], appended to
    the output trace (the state [list out_event]).  An event keeps the
    printed values, not their formatting by [str()]:
    - [OutCell i c]: line 200 of [printMap];
    - [OutCollisions t n] and [OutProbes t n]: lines 229-234, for the map
      [t] of [testMapFile];
    - [OutBanner b]: the banners of [testMap];
    - [OutMax t n w]: a report of [findMax] on the map [t].
    The driver's state is [world]: the three maps of [testMap] and the
    trace.  [testMapFile] is the word loop of [Driver] followed by the six
    prints.  [report_max] is [temp = findMax(mapX)] followed by its print,
    where the concatenation of a string literal with [temp[0]] raises
    [TypeError] unless [temp[0]] is a [str] ([py_concat_word]).  [novel] is one of the three rounds of
    [testMap] (lines 238-252): the banner, three fresh maps, [testMapFile],
    three reports.  The files are given by their lines, split into words,
    as in [Driver].

    The theorems:
    - every round of [testMap] that returns prints, for each map, a word
      that occurs most often in the file, with its number of occurrences;
    - when no word of a file occurs twice, the round raises [TypeError] in
      its first report: [findMax] then returns the cell [table[0]], which
      is not a [str];
    - [printMap] prints every cell in index order. *)

From stdpp Require Import base list decidable countable gmap.
From Stdlib Require Import ZArith Lia QArith_base.
From S2P Require Import Prelude Entry Hashing Probe Hashmap Invariant Refinement Scan Driver Typing.

Open Scope Z_scope.
Open Scope py_scope.

(** ** Output *)

Inductive out_event :=
  | OutCell (i : Z) (c : slot)
  | OutCollisions (t : Z) (n : Z)
  | OutProbes (t : Z) (n : Z)
  | OutBanner (b : String.string)
  | OutMax (t : Z) (n : Z) (word : pystr).

(** [print(...)]: one event at the end of the trace. *)
Definition emit (e : out_event) : PyM (list out_event) unit := mmodify (fun o => o ++ [e]).

(** [printMap(map)] (lines 198-200):
    for every [i] in [range(map.cap)], print [str(i)], a colon and
    [str(map.table[i])]. *)
Definition printMap (m : hashmap) : PyM (list out_event) unit :=
  py_for (map Z.of_nat (seq 0 (Z.to_nat (cap m))))
    (fun i => let* c := mread (fun _ => py_getitem (table m) i) in emit (OutCell i c)).

(** ** The driver's state *)

Record world := World { wmaps : maps3; wout : list out_event }.

Definition on_out {A} (m : PyM (list out_event) A) : PyM world A :=
  fun w => let (r, o) := m (wout w) in (r, World (wmaps w) o).
Definition on_maps {A} (m : PyM maps3 A) : PyM world A :=
  fun w => let (r, st) := m (wmaps w) in (r, World st (wout w)).

(** [print(label, mapX.collision)] and the like. *)
Definition print_stat (ev : Z -> out_event) (field : maps3 -> Z) : PyM world unit :=
  let* n := mread (fun w => Ok (field (wmaps w))) in on_out (emit (ev n)).

(** The concatenation of a string literal with [temp[0]]: [str + x]
    raises [TypeError] unless [x] is a [str]. *)
Definition py_concat_word (o : pyobj) : result pystr :=
  match o with
  | OKey (KStr sk) => Ok sk
  | _ => Err TypeError
  end.

(** The banners of lines 238, 254 and 273. *)
Local Open Scope string_scope.
Definition banner1 : String.string := "------------------------------------Novel 1 -----------------------------------------".
Definition banner2 : String.string := "------------------------------------Novel 2 -----------------------------------------".
Definition banner3 : String.string := "------------------------------------Linux dictionnary -----------------------------------------".
Local Close Scope string_scope.

Section Report.
Context `{PyHash}.
Variable lower : pystr -> pystr.

(** [testMapFile(filename, map0, map1, map2)] (lines 219-234). *)
Definition testMapFile (lines : list (list pystr)) : PyM world unit :=
  on_maps (testMapFile_loop lower lines) ;;
  print_stat (OutCollisions 0) (fun st => collision (map0 st)) ;;
  print_stat (OutCollisions 1) (fun st => collision (map1 st)) ;;
  print_stat (OutCollisions 2) (fun st => collision (map2 st)) ;;
  print_stat (OutProbes 0) (fun st => probe (map0 st)) ;;
  print_stat (OutProbes 1) (fun st => probe (map1 st)) ;;
  print_stat (OutProbes 2) (fun st => probe (map2 st)).

(** [temp = findMax(mapX)], then the print of [temp[1]] and of a string
    literal concatenated with [temp[0]] (lines 245-246 and the like). *)
Definition report_max (t : Z) (field : maps3 -> hashmap) : PyM world unit :=
  let* temp := mread (fun w => findMax (field (wmaps w))) in
  let* word := mread (fun _ => py_concat_word (fst temp)) in
  on_out (emit (OutMax t (snd temp) word)).

(** The three reports of a round (lines 245-252). *)
Definition report_maxes : PyM world unit :=
  report_max 0 map0 ;; report_max 1 map1 ;; report_max 2 map2.

(** One round of [testMap] (lines 238-252): the banner, three fresh maps
    of [initsz] cells, [testMapFile] on the file, the three reports. *)
Definition novel (banner : String.string) (initsz : Z) (lines : list (list pystr)) : PyM world unit :=
  on_out (emit (OutBanner banner)) ;;
  mmodify (fun w => World (testMap_maps initsz) (wout w)) ;;
  testMapFile lines ;;
  report_maxes.

(** [testMap()] (lines 237-290) on the contents of its three files, with
    the size of the maps as a parameter; [testMap] itself uses 70000. *)
Definition testMap_run (initsz : Z) (novel1 novel2 dict : list (list pystr)) : PyM world unit :=
  novel banner1 initsz novel1 ;;
  novel banner2 initsz novel2 ;;
  novel banner3 initsz dict.

Definition testMap (novel1 novel2 dict : list (list pystr)) : PyM world unit :=
  testMap_run 70000 novel1 novel2 dict.

End Report.

(** ** What a round prints *)

(** The six prints of lines 229-234, after the loop built the maps [st]. *)
Definition counter_lines (st : maps3) : list out_event :=
  [OutCollisions 0 (collision (map0 st)); OutCollisions 1 (collision (map1 st));
   OutCollisions 2 (collision (map2 st)); OutProbes 0 (probe (map0 st));
   OutProbes 1 (probe (map1 st)); OutProbes 2 (probe (map2 st))].

Section Rounds.
Context `{PyHash}.
Variable lower : pystr -> pystr.

(** [w] is a most frequent word of the lines, occurring [n > 1] times. *)
Definition most_frequent (lines : list (list pystr)) (w : pystr) (n : Z) : Prop :=
  n = Z.of_nat (word_count lower lines w) /\ 1 < n /\
  forall w', Z.of_nat (word_count lower lines w') <= n.

(** What a round of [testMap] on the file [lines] prints: its banner, the
    counters of the three maps the loop built, and for each map a most
    frequent word with its count. *)
Definition round_output (initsz : Z) (banner : String.string) (lines : list (list pystr))
    (o : list out_event) : Prop :=
  exists st w0 n0 w1 n1 w2 n2,
    testMapFile_loop lower lines (testMap_maps initsz) = (Ok tt, st) /\
    o = [OutBanner banner] ++ counter_lines st ++ [OutMax 0 n0 w0; OutMax 1 n1 w1; OutMax 2 n2 w2] /\
    most_frequent lines w0 n0 /\ most_frequent lines w1 n1 /\ most_frequent lines w2 n2.

(** The three maps hold no tombstone and only integer values. *)
Definition str3 (st : maps3) : Prop :=
  str_cells (map0 st) /\ str_cells (map1 st) /\ str_cells (map2 st).

(** *** Runs of the pieces *)

Lemma on_maps_inv {A} (m : PyM maps3 A) (w w' : world) (a : A) :
  on_maps m w = (Ok a, w') -> m (wmaps w) = (Ok a, wmaps w') /\ wout w' = wout w.
Proof. unfold on_maps. destruct (m (wmaps w)) as [r st]. intros [= -> <-]. auto. Qed.

Lemma on_maps_run {A} (m : PyM maps3 A) (w : world) (a : A) (st : maps3) :
  m (wmaps w) = (Ok a, st) -> on_maps m w = (Ok a, World st (wout w)).
Proof. unfold on_maps. intros ->. reflexivity. Qed.

Lemma testMapFile_inv (lines : list (list pystr)) (w w' : world) (u : unit) :
  testMapFile lower lines w = (Ok u, w') ->
  testMapFile_loop lower lines (wmaps w) = (Ok tt, wmaps w') /\
  wout w' = wout w ++ counter_lines (wmaps w').
Proof.
  unfold testMapFile. intros Hrun. mstep Hrun. destruct a.
  apply on_maps_inv in Hstep as [Hloop Hout]. cbn in Hrun. injection Hrun as _ <-.
  split; [exact Hloop|]. simpl. rewrite Hout, <- !app_assoc. reflexivity.
Qed.

Lemma testMapFile_run (lines : list (list pystr)) (w : world) (st : maps3) :
  testMapFile_loop lower lines (wmaps w) = (Ok tt, st) ->
  testMapFile lower lines w = (Ok tt, World st (wout w ++ counter_lines st)).
Proof.
  intros Hl. unfold testMapFile. apply (mbind_run _ _ _ _ _ _ (on_maps_run _ _ _ _ Hl)).
  cbn. rewrite <- !app_assoc. reflexivity.
Qed.

Lemma report_max_inv (t : Z) (f : maps3 -> hashmap) (w w' : world) (u : unit) :
  report_max t f w = (Ok u, w') ->
  exists sk mx, findMax (f (wmaps w)) = Ok (OKey (KStr sk), mx) /\
    wmaps w' = wmaps w /\ wout w' = wout w ++ [OutMax t mx sk].
Proof.
  unfold report_max. intros Hrun.
  mstep Hrun. apply mread_inv in Hstep as [Hf ->].
  mstep Hrun. apply mread_inv in Hstep as [Hc ->].
  destruct a as [[c|[sk|]] mx]; simpl in Hc; try discriminate.
  injection Hc as <-. cbn in Hrun. injection Hrun as _ <-. exists sk, mx. auto.
Qed.

Lemma report_max_err (t : Z) (f : maps3 -> hashmap) (w : world) (o : pyobj) (mx : Z) (e : exc) :
  findMax (f (wmaps w)) = Ok (o, mx) -> py_concat_word o = Err e ->
  report_max t f w = (Err e, w).
Proof. intros Hf Hc. unfold report_max. cbn [mbind mread]. rewrite Hf. cbn. rewrite Hc. reflexivity. Qed.

Lemma report_maxes_inv (w w' : world) (u : unit) :
  report_maxes w = (Ok u, w') ->
  exists w0 n0 w1 n1 w2 n2,
    findMax (map0 (wmaps w)) = Ok (OKey (KStr w0), n0) /\
    findMax (map1 (wmaps w)) = Ok (OKey (KStr w1), n1) /\
    findMax (map2 (wmaps w)) = Ok (OKey (KStr w2), n2) /\
    wmaps w' = wmaps w /\
    wout w' = wout w ++ [OutMax 0 n0 w0; OutMax 1 n1 w1; OutMax 2 n2 w2].
Proof.
  unfold report_maxes. intros Hrun. mstep Hrun. mstep Hrun.
  apply report_max_inv in Hstep as (w0 & n0 & F0 & M0 & O0).
  apply report_max_inv in Hstep0 as (w1 & n1 & F1 & M1 & O1).
  apply report_max_inv in Hrun as (w2 & n2 & F2 & M2 & O2).
  rewrite M0 in F1. rewrite M1, M0 in F2.
  exists w0, n0, w1, n1, w2, n2. split_and!; [exact F0|exact F1|exact F2|congruence|].
  rewrite O2, O1, O0, <- !app_assoc. reflexivity.
Qed.

Lemma novel_run (banner : String.string) (initsz : Z) (lines : list (list pystr)) (w : world) (st : maps3) :
  testMapFile_loop lower lines (testMap_maps initsz) = (Ok tt, st) ->
  novel lower banner initsz lines w
  = report_maxes (World st ((wout w ++ [OutBanner banner]) ++ counter_lines st)).
Proof.
  intros Hl. unfold novel.
  apply (mbind_run _ _ _ tt (World (wmaps w) (wout w ++ [OutBanner banner]))); [reflexivity|].
  apply (mbind_run _ _ _ tt (World (testMap_maps initsz) (wout w ++ [OutBanner banner])));
    [reflexivity|].
  exact (mbind_run _ _ _ tt _ _
           (testMapFile_run lines (World (testMap_maps initsz) _) st Hl) eq_refl).
Qed.

(** *** The maps after the loop *)

Lemma put_word_str3 (word : pystr) : mpres str3 (put_word lower word).
Proof.
  intros st u st' (H0 & H1 & H2) Hrun. unfold put_word in Hrun.
  destruct (bool_decide (word = [])).
  { apply mret_inv in Hrun as [_ ->]. exact (conj H0 (conj H1 H2)). }
  mstep Hrun. mstep Hrun.
  apply on_map0_inv in Hstep as (R0 & E01 & E02).
  apply on_map1_inv in Hstep0 as (R1 & E10 & E12).
  apply on_map2_inv in Hrun as (R2 & E20 & E21).
  rewrite E01 in R1. rewrite E12, E02 in R2. unfold str3. rewrite E20, E10, E21.
  split_and!; [exact (hm_put_str_cells _ _ _ _ _ H0 R0) | exact (hm_put_str_cells _ _ _ _ _ H1 R1)
             | exact (hm_put_str_cells _ _ _ _ _ H2 R2)].
Qed.

(** The three maps a round builds are well formed, hold no tombstone, and
    count the words of the file. *)
Lemma round_maps (lines : list (list pystr)) (initsz : Z) (st : maps3) :
  0 < initsz -> testMapFile_loop lower lines (testMap_maps initsz) = (Ok tt, st) ->
  wf3 st /\ str3 st /\
  forall w,
    abs (map0 st) !! w = counted None (word_count lower lines w) /\
    abs (map1 st) !! w = counted None (word_count lower lines w) /\
    abs (map2 st) !! w = counted None (word_count lower lines w).
Proof.
  intros Hsz Hl. split_and!.
  - refine (proj1 (testMapFile_abs lower lines _ st tt _ Hl)).
    split_and!; apply init_wf; exact Hsz.
  - refine (py_for_mpres str3 _ _ lines _ tt st _ Hl).
    + intros ws. apply py_for_mpres, put_word_str3.
    + split_and!; apply init_cells; exact I.
  - exact (testMap_lookup lower lines initsz st tt Hsz Hl).
Qed.

(** The word [findMax] reports on a map that counts the words of the file
    is a most frequent word, with its count. *)
Lemma reported_most_frequent (lines : list (list pystr)) (m : hashmap) (sk : pystr) (mx : Z) :
  wf m -> (forall w, abs m !! w = counted None (word_count lower lines w)) ->
  findMax m = Ok (OKey (KStr sk), mx) -> most_frequent lines sk mx.
Proof.
  intros Hwf Hc Hf. destruct (findMax_abs m sk mx Hwf Hf) as [Hsk Hmax].
  destruct (findMax_max_result m _ mx (proj1 (proj1 Hwf)) Hf)
    as (c0 & _ & _ & _ & [[_ Hw] | (p & e & _ & _ & Hlt & _)]); [discriminate|].
  rewrite Hc in Hsk. unfold counted in Hsk.
  destruct (word_count lower lines sk) as [|n] eqn:E; [discriminate|].
  injection Hsk as Hmx. split; [lia|]. split; [exact Hlt|].
  intros w'. specialize (Hc w'). destruct (word_count lower lines w') as [|n'] eqn:E'; [lia|].
  apply (Hmax w'). rewrite Hc. reflexivity.
Qed.

Lemma novel_inv (banner : String.string) (initsz : Z) (lines : list (list pystr)) (w w' : world) (u : unit) :
  0 < initsz -> novel lower banner initsz lines w = (Ok u, w') ->
  exists o, wout w' = wout w ++ o /\ round_output initsz banner lines o.
Proof.
  intros Hsz Hrun. unfold novel in Hrun.
  mstep Hrun. cbn in Hstep. injection Hstep as _ <-.
  mstep Hrun. apply mmodify_inv in Hstep as ->.
  mstep Hrun. apply testMapFile_inv in Hstep as [Hl Hout]. simpl in Hl.
  apply report_maxes_inv in Hrun as (w0 & n0 & w1 & n1 & w2 & n2 & F0 & F1 & F2 & _ & Ho).
  destruct (round_maps lines initsz _ Hsz Hl) as ((W0 & W1 & W2) & _ & Hc).
  eexists. split.
  - rewrite Ho, Hout. simpl. rewrite <- !app_assoc. reflexivity.
  - exists (wmaps s), w0, n0, w1, n1, w2, n2. split_and!; [exact Hl|reflexivity|..].
    + exact (reported_most_frequent lines _ w0 n0 W0 (fun x => proj1 (Hc x)) F0).
    + exact (reported_most_frequent lines _ w1 n1 W1 (fun x => proj1 (proj2 (Hc x))) F1).
    + exact (reported_most_frequent lines _ w2 n2 W2 (fun x => proj2 (proj2 (Hc x))) F2).
Qed.

(** C13: every run of [testMap] (with maps of any positive size) that
    returns prints, for each of its three files in turn, the banner, the
    collision and probe counters of the three maps that [testMapFile]
    built from the file, and for each map a word that occurs most often in
    the file (after [lower()]), with its number of occurrences, which is
    more than 1. *)
Theorem testMap_reports (initsz : Z) (novel1 novel2 dict : list (list pystr))
    (w w' : world) (u : unit) :
  0 < initsz -> testMap_run lower initsz novel1 novel2 dict w = (Ok u, w') ->
  exists o1 o2 o3, wout w' = wout w ++ o1 ++ o2 ++ o3 /\
    round_output initsz banner1 novel1 o1 /\ round_output initsz banner2 novel2 o2 /\
    round_output initsz banner3 dict o3.
Proof.
  intros Hsz Hrun. unfold testMap_run in Hrun. mstep Hrun. mstep Hrun.
  destruct (novel_inv _ _ _ _ _ _ Hsz Hstep) as (o1 & E1 & R1).
  destruct (novel_inv _ _ _ _ _ _ Hsz Hstep0) as (o2 & E2 & R2).
  destruct (novel_inv _ _ _ _ _ _ Hsz Hrun) as (o3 & E3 & R3).
  exists o1, o2, o3. split_and!; [|assumption..].
  rewrite E3, E2, E1, <- !app_assoc. reflexivity.
Qed.

(** C24: a round of [testMap] on a file where no word occurs twice raises
    [TypeError] in its first report, once the word loop has returned:
    [findMax] then returns the cell [table[0]] (no value exceeds 1), and
    line 246 concatenates it to a string. *)
Theorem novel_no_repeat_type_error (banner : String.string) (initsz : Z)
    (lines : list (list pystr)) (w : world) (st : maps3) :
  0 < initsz -> (forall x, (word_count lower lines x <= 1)%nat) ->
  testMapFile_loop lower lines (testMap_maps initsz) = (Ok tt, st) ->
  fst (novel lower banner initsz lines w) = Err TypeError.
Proof.
  intros Hsz Hno Hl. rewrite (novel_run banner initsz lines w st Hl).
  destruct (round_maps lines initsz st Hsz Hl) as ((W0 & _ & _) & (S0 & _ & _) & Hc).
  destruct (str_cells_typed _ S0) as [T0 D0].
  destruct (findMax_typed_ok (map0 st) (proj1 (proj1 W0)) T0 D0) as [[o mx] Hf].
  assert (Hcat : py_concat_word o = Err TypeError).
  { destruct o as [c|[sk|]]; [reflexivity| |reflexivity].
    destruct (reported_most_frequent lines _ sk mx W0 (fun x => proj1 (Hc x)) Hf)
      as (Hn & Hlt & _).
    specialize (Hno sk). lia. }
  unfold report_maxes. unfold mbind at 1.
  rewrite (report_max_err 0 map0 (World st _) o mx TypeError Hf Hcat). reflexivity.
Qed.

(** *** [printMap] *)

Lemma printMap_loop (t : list slot) (n : nat) : forall (k : nat) (o : list out_event),
  (k + n <= length t)%nat ->
  py_for (map Z.of_nat (seq k n))
    (fun i => let* c := mread (fun _ => py_getitem t i) in emit (OutCell i c)) o
  = (Ok tt, o ++ zip_with OutCell (map Z.of_nat (seq k n)) (take n (drop k t))).
Proof.
  induction n as [|n IH]; intros k o Hk; [rewrite app_nil_r; reflexivity|].
  destruct (lookup_lt_is_Some_2 t k ltac:(lia)) as [c Hc].
  cbn [seq map py_for].
  apply (mbind_run _ _ _ tt (o ++ [OutCell (Z.of_nat k) c])).
  - cbn [mbind mread emit mmodify].
    rewrite (py_getitem_of_lookup t (Z.of_nat k) c); [reflexivity|lia|rewrite Nat2Z.id; exact Hc].
  - rewrite IH by lia. rewrite (drop_S _ _ _ Hc). simpl. rewrite <- app_assoc. reflexivity.
Qed.

(** C31: [printMap] prints every cell of the array with its index, in
    index order, when [self.cap] is the length of the array. *)
Theorem printMap_cells (m : hashmap) (o : list out_event) :
  cap m = Z.of_nat (length (table m)) ->
  printMap m o
  = (Ok tt, o ++ zip_with OutCell (map Z.of_nat (seq 0 (length (table m)))) (table m)).
Proof.
  intros Hc. unfold printMap. rewrite Hc, Nat2Z.id, printMap_loop by lia.
  rewrite drop_0, firstn_all. reflexivity.
Qed.

End Rounds.

(** ** Witnesses *)

Section Witnesses.
#[local] Existing Instance demo_hash.

(** Three small files: [demo_lines] of [Driver] ("the" twice), "a b a",
    and "x y" / "y". *)
Definition demo_novel2 : list (list pystr) := [[str "a"; str "b"; str "a"]].
Definition demo_dict : list (list pystr) := [[str "x"; str "y"]; [str "y"]].
Definition demo_world : world := World (testMap_maps 8) [].

Definition demo_testMap : result unit * world :=
  testMap_run ascii_lower 8 demo_lines demo_novel2 demo_dict demo_world.

Lemma testMap_reports_witness :
  exists o1 o2 o3, wout (snd demo_testMap) = wout demo_world ++ o1 ++ o2 ++ o3 /\
    round_output ascii_lower 8 banner1 demo_lines o1 /\
    round_output ascii_lower 8 banner2 demo_novel2 o2 /\
    round_output ascii_lower 8 banner3 demo_dict o3.
Proof.
  assert (Hrun : testMap_run ascii_lower 8 demo_lines demo_novel2 demo_dict demo_world
                 = (Ok tt, snd demo_testMap)) by (vm_compute; reflexivity).
  exact (testMap_reports ascii_lower 8 demo_lines demo_novel2 demo_dict demo_world _ tt
           ltac:(lia) Hrun).
Defined.

(** A file of two different words. *)
Definition unique_lines : list (list pystr) := [[str "a"; str "b"]].

Lemma novel_no_repeat_type_error_witness :
  fst (novel ascii_lower banner1 8 unique_lines demo_world) = Err TypeError.
Proof.
  assert (Hl : testMapFile_loop ascii_lower unique_lines (testMap_maps 8)
               = (Ok tt, snd (testMapFile_loop ascii_lower unique_lines (testMap_maps 8))))
    by (vm_compute; reflexivity).
  apply (novel_no_repeat_type_error ascii_lower banner1 8 unique_lines demo_world
           (snd (testMapFile_loop ascii_lower unique_lines (testMap_maps 8))) ltac:(lia));
    [|exact Hl].
  intros x. unfold word_count, unique_lines. cbn [concat app]. rewrite !filter_cons, filter_nil.
  repeat case_decide; simpl; try lia.
  match goal with
  | H1 : _ /\ ascii_lower ?a = x, H2 : _ /\ ascii_lower ?b = x |- _ =>
      destruct H1 as [_ E1]; destruct H2 as [_ E2]; rewrite <- E2 in E1;
      vm_compute in E1; discriminate
  end.
Defined.

Lemma printMap_cells_witness :
  printMap run_s1 [] = (Ok tt, [OutCell 0 None; OutCell 1 (Some (Entry (ks "ab") (Some 1)))]).
Proof.
  rewrite (printMap_cells run_s1 []) by (vm_compute; reflexivity). vm_compute. reflexivity.
Defined.

End Witnesses.
